(** * deepfetch: resource discovery and source-map reconstruction

    A shallow embedding of the downloader classes of the repository
    (the refactored [AdvancedWebResourceDownloader] with [saveFile] and
    [fetchWithCORS], and the older variant that carries
    [extractSourceFilesAdvanced]) together with the properties that the
    specification states about them.

    Conventions.
    - A JavaScript string is its sequence of UTF-16 code units ([list N]);
      [lit] turns a Rocq string literal into one.
    - The platform ([fetch], [new URL], [DOMParser], [JSON.parse]) is not
      code of the repository.  The network is an oracle, the URL parser a
      section variable, and documents and source maps come in parsed.
    - Asynchronous methods become state-passing functions on [Session];
      a thrown exception is the [Throw] result of the monad [M]. *)

From Stdlib Require Import Ascii String.
From stdpp Require Import base tactics option list numbers pretty.

Set Default Proof Using "Type".

(** ** JavaScript strings *)

Module JS.

Abbreviation jsstring := (list N) (only parsing).

Definition lit (s : string) : jsstring :=
  N_of_ascii <$> list_ascii_of_string s.

(** [String.prototype.startsWith] *)
Fixpoint startsWith (s p : jsstring) {struct p} : bool :=
  match p, s with
  | [], _ => true
  | c :: p', d :: s' => if N.eqb c d then startsWith s' p' else false
  | _ :: _, [] => false
  end.

(** [String.prototype.includes] *)
Fixpoint includes (s p : jsstring) : bool :=
  startsWith s p ||
  match s with
  | [] => false
  | _ :: s' => includes s' p
  end.

(** [String.prototype.endsWith] *)
Definition endsWith (s p : jsstring) : bool :=
  startsWith (reverse s) (reverse p).

(** Truthiness of a string value: only the empty string is falsy. *)
Definition truthy (s : jsstring) : bool :=
  match s with [] => false | _ :: _ => true end.

Definition eqb (s t : jsstring) : bool := bool_decide (s = t).

(** Template literal [`${n}`] for a non-negative integer counter. *)
Definition ofNat (n : nat) : jsstring := lit (pretty n).

(** *** The regular expressions used by the downloader

    Only the fragment that occurs in the modelled methods: single
    characters and character classes, a greedy star over one of these,
    an optional character, the assertions [^] and [$], and the bounds
    of a capture group.
    Without the [s] flag [.] excludes the four line terminators;
    without the [m] flag [^] and [$] hold at the two ends of the input
    only ([EolM] is [$] under the [m] flag). *)

Inductive charset : Type :=
  | Chr (c : N)               (* a literal character *)
  | OneOf (cs : list N)       (* [abc]  *)
  | NoneOf (cs : list N)      (* [^abc] *)
  | Dot.                      (* .      *)

Inductive atom : Type :=
  | Single (c : charset)
  | Star (c : charset)
  | Opt (c : charset)         (* c? *)
  | Bol                       (* ^ *)
  | Eol                       (* $ *)
  | EolM                      (* $ with the m flag *)
  | Mark.                     (* an opening or closing parenthesis *)

Abbreviation regex := (list atom) (only parsing).

Definition lineTerminator (x : N) : bool :=
  N.eqb x 10 || N.eqb x 13 || N.eqb x 8232 || N.eqb x 8233.

(** The characters of the class [\s]. *)
Definition whiteSpace : list N :=
  [9; 10; 11; 12; 13; 32; 160; 5760; 8192; 8193; 8194; 8195; 8196; 8197;
   8198; 8199; 8200; 8201; 8202; 8232; 8233; 8239; 8287; 12288; 65279]%N.

Definition inSet (c : charset) (x : N) : bool :=
  match c with
  | Chr y => N.eqb x y
  | OneOf cs => existsb (N.eqb x) cs
  | NoneOf cs => negb (existsb (N.eqb x) cs)
  | Dot => negb (lineTerminator x)
  end.

(** The literal characters of [s] as a regular expression. *)
Definition chars (s : string) : regex := (λ c, Single (Chr c)) <$> lit s.

(** [matchHere r b s]: the backtracking match of [r] at the current
    position, [s] being the rest of the input and [b] telling whether
    the position is the start of the input.  The result is the input
    left at each [Mark] passed and the input left after the match
    (greedy stars give back characters one at a time, as in
    ECMAScript). *)
Fixpoint matchHere (r : regex)
  : bool → jsstring → option (list jsstring * jsstring) :=
  match r with
  | [] => λ _ s, Some ([], s)
  | a :: r' =>
      let k := matchHere r' in
      match a with
      | Single c => λ _ s,
          match s with
          | x :: s' => if inSet c x then k false s' else None
          | [] => None
          end
      | Star c =>
          fix star (b : bool) (s : jsstring) {struct s} :=
            match s with
            | x :: s' =>
                if inSet c x then
                  match star false s' with
                  | Some t => Some t
                  | None => k b s
                  end
                else k b s
            | [] => k b s
            end
      | Opt c => λ b s,
          match s with
          | x :: s' =>
              if inSet c x then
                match k false s' with
                | Some t => Some t
                | None => k b s
                end
              else k b s
          | [] => k b s
          end
      | Bol => λ b s, if b then k b s else None
      | Eol => λ b s, match s with [] => k b s | _ :: _ => None end
      | EolM => λ b s,
          match s with
          | [] => k b s
          | x :: _ => if lineTerminator x then k b s else None
          end
      | Mark => λ b s,
          match k b s with
          | Some (marks, rest) => Some (s :: marks, rest)
          | None => None
          end
      end
  end.

(** [s.replace(r, repl)] for a regular expression without the [g] flag:
    the leftmost match is replaced ([repl] never contains [$]). *)
Fixpoint replaceFrom (r : regex) (repl : jsstring) (b : bool) (s : jsstring)
  : jsstring :=
  match matchHere r b s with
  | Some (_, rest) => repl ++ rest
  | None =>
      match s with
      | [] => []
      | x :: s' => x :: replaceFrom r repl false s'
      end
  end.

Definition replace (r : regex) (repl : jsstring) (s : jsstring) : jsstring :=
  replaceFrom r repl true s.

(** [s.replace(r, repl)] with the [g] flag: every match is replaced, the
    search resuming after the match (one character further after an
    empty match).  [fuel] bounds the number of positions visited. *)
Fixpoint replaceAllFrom (fuel : nat) (r : regex) (repl : jsstring) (b : bool)
  (s : jsstring) : jsstring :=
  match fuel with
  | O => s
  | S fuel' =>
      match matchHere r b s with
      | Some (_, rest) =>
          if bool_decide (length rest < length s)
          then repl ++ replaceAllFrom fuel' r repl false rest
          else repl ++
               match s with
               | [] => []
               | x :: s' => x :: replaceAllFrom fuel' r repl false s'
               end
      | None =>
          match s with
          | [] => []
          | x :: s' => x :: replaceAllFrom fuel' r repl false s'
          end
      end
  end.

Definition replaceAll (r : regex) (repl : jsstring) (s : jsstring) : jsstring :=
  replaceAllFrom (S (length s)) r repl true s.

(** [s.match(r)] without the [g] flag, for a regular expression with
    one capture group (two marks): the text captured by the leftmost
    match. *)
Fixpoint matchGroup (r : regex) (b : bool) (s : jsstring) : option jsstring :=
  match matchHere r b s with
  | Some ([opened; closed], _) =>
      Some (take (length opened - length closed) opened)
  | Some _ => None
  | None =>
      match s with
      | [] => None
      | _ :: s' => matchGroup r false s'
      end
  end.

(** [s.match(r)] with the [g] flag: the matched texts, left to right
    ([null] is the empty list here). *)
Fixpoint matchAllFrom (fuel : nat) (r : regex) (b : bool) (s : jsstring)
  : list jsstring :=
  match fuel with
  | O => []
  | S fuel' =>
      match matchHere r b s with
      | Some (_, rest) =>
          if bool_decide (length rest < length s)
          then take (length s - length rest) s
                 :: matchAllFrom fuel' r false rest
          else [] :: match s with
                     | [] => []
                     | _ :: s' => matchAllFrom fuel' r false s'
                     end
      | None =>
          match s with
          | [] => []
          | _ :: s' => matchAllFrom fuel' r false s'
          end
      end
  end.

Definition matchAll (r : regex) (s : jsstring) : list jsstring :=
  matchAllFrom (S (length s)) r true s.

(** [String.prototype.trim] *)
Definition isSpace (x : N) : bool := existsb (N.eqb x) whiteSpace.

Fixpoint trimStart (s : jsstring) : jsstring :=
  match s with
  | x :: s' => if isSpace x then trimStart s' else s
  | [] => []
  end.

Definition trim (s : jsstring) : jsstring :=
  reverse (trimStart (reverse (trimStart s))).

(** ASCII lower case, the comparison that HTML prescribes for the
    value of a [rel] attribute in a selector. *)
Definition asciiLower (s : jsstring) : jsstring :=
  (λ x, if bool_decide (65 ≤ x ≤ 90)%N then (x + 32)%N else x) <$> s.

(** [String.prototype.replace] with a string pattern: the first
    occurrence of [p] is replaced. *)
Fixpoint replaceStr (s p repl : jsstring) : jsstring :=
  if startsWith s p then repl ++ drop (length p) s
  else match s with
       | [] => []
       | x :: s' => x :: replaceStr s' p repl
       end.

(** [s.split(sep)] for a one-character separator. *)
Fixpoint split (sep : N) (s : jsstring) : list jsstring :=
  match s with
  | [] => [[]]
  | x :: s' =>
      if N.eqb x sep then [] :: split sep s'
      else match split sep s' with
           | [] => [[x]]
           | w :: ws => (x :: w) :: ws
           end
  end.

End JS.

Import JS.

(** ** Data model shared by the downloader variants *)

(** What a stored file holds: decoded text or an [ArrayBuffer]. *)
Inductive Content : Type :=
  | Text (s : jsstring)
  | Binary (bytes : list N).

(** The object literals handed to [saveFile] / [downloadedFiles.set]. *)
Record FileData : Type := mkFileData {
  content : Content;
  size : nat;
  type : jsstring;
  url : option jsstring;            (* [None]: null or absent *)
  contentType : option jsstring;
  originalPath : option jsstring
}.

(** [this.stats] *)
Record Stats : Type := mkStats {
  totalFiles : nat;
  sourceFiles : nat;
  jsFiles : nat;
  cssFiles : nat;
  imageFiles : nat;
  totalSize : nat
}.

(** A JavaScript [Map] with string keys, in insertion order. *)
Abbreviation JSMap V := (list (jsstring * V)) (only parsing).

Fixpoint Map_get {V} (m : JSMap V) (k : jsstring) : option V :=
  match m with
  | [] => None
  | (k', v) :: m' => if JS.eqb k' k then Some v else Map_get m' k
  end.

Definition Map_has {V} (m : JSMap V) (k : jsstring) : bool :=
  match Map_get m k with Some _ => true | None => false end.

(** [Map.prototype.set]: an existing key keeps its place and takes the
    new value; a new key goes last. *)
Fixpoint Map_set {V} (m : JSMap V) (k : jsstring) (v : V) : JSMap V :=
  match m with
  | [] => [(k, v)]
  | (k', v') :: m' =>
      if JS.eqb k' k then (k', v) :: m' else (k', v') :: Map_set m' k v
  end.

Definition Map_keys {V} (m : JSMap V) : list jsstring := fst <$> m.

(** A JavaScript [Set] of strings, in insertion order. *)
Abbreviation JSSet := (list jsstring) (only parsing).

Definition Set_has (s : JSSet) (x : jsstring) : bool := bool_decide (x ∈ s).

Definition Set_add (s : JSSet) (x : jsstring) : JSSet :=
  if Set_has s x then s else s ++ [x].

(** The downloader instance.  [requests] is not a field of the class: it
    records, oldest first, the URLs passed to the platform [fetch]. *)
Record Session : Type := mkSession {
  downloadedFiles : JSMap FileData;
  downloadedUrls : JSSet;
  isDownloading : bool;
  stats : Stats;
  requests : list jsstring
}.

Definition set_files (f : JSMap FileData → JSMap FileData) (st : Session) :=
  mkSession (f (downloadedFiles st)) (downloadedUrls st) (isDownloading st)
            (stats st) (requests st).
Definition set_urls (f : JSSet → JSSet) (st : Session) :=
  mkSession (downloadedFiles st) (f (downloadedUrls st)) (isDownloading st)
            (stats st) (requests st).
Definition set_flag (b : bool) (st : Session) :=
  mkSession (downloadedFiles st) (downloadedUrls st) b (stats st) (requests st).
Definition set_stats (f : Stats → Stats) (st : Session) :=
  mkSession (downloadedFiles st) (downloadedUrls st) (isDownloading st)
            (f (stats st)) (requests st).
Definition add_request (u : jsstring) (st : Session) :=
  mkSession (downloadedFiles st) (downloadedUrls st) (isDownloading st)
            (stats st) (requests st ++ [u]).

(** *** The platform *)

(** A value, or the message of the exception thrown instead. *)
Inductive Result (A : Type) : Type :=
  | Ok (a : A)
  | Throw (message : jsstring).
Arguments Ok {A} a.
Arguments Throw {A} message.

(** What [await fetch(...)] yields: a rejection (network-level failure,
    with the message of the error) or a [Response]. *)
Record PlatformResponse : Type := mkPlatformResponse {
  p_ok : bool;
  p_status : nat;
  p_headers : list (jsstring * jsstring);  (* names in lower case *)
  p_text : Result jsstring;                (* await response.text() *)
  p_arrayBuffer : option (list N);         (* [None]: the promise rejects *)
  p_contents : Result (option jsstring)
    (* [(await response.json()).contents]: [Throw] when the body is not
       a JSON object, [Ok None] when the envelope has no string under
       [contents] *)
}.

Inductive FetchOutcome : Type :=
  | Rejected (message : jsstring)
  | Responded (r : PlatformResponse).

(** The response shape seen by the callers of [fetchWithCORS]: a platform
    response, or the object literal built from the relay's envelope. *)
Record Response : Type := mkResponse {
  ok : bool;
  status : nat;
  headers : list (jsstring * jsstring);
  text : Result (option jsstring); (* [Ok None]: null or undefined *)
  arrayBuffer : option (list N)    (* [None]: the promise rejects *)
}.

Definition Result_map {A B} (f : A → B) (r : Result A) : Result B :=
  match r with
  | Ok a => Ok (f a)
  | Throw message => Throw message
  end.

Definition ofPlatform (r : PlatformResponse) : Response :=
  mkResponse (p_ok r) (p_status r) (p_headers r) (Result_map Some (p_text r))
             (p_arrayBuffer r).

(** The fields of a [URL] object that the downloader reads. *)
Record URL : Type := mkURL {
  href : jsstring;
  protocol : jsstring;
  host : jsstring;
  pathname : jsstring;
  search : jsstring
}.

(** A parsed source map, as far as the downloader looks at it.  An
    array element is a string or [null]; a field that is absent (or
    [null]) is [None], and an array, even empty, is truthy.  The loops
    over [sources] are embedded once more in [Untyped], for elements
    of any JSON type, where they agree with the ones on this type. *)
Record SourceMap : Type := mkSourceMap {
  sources : option (list (option jsstring));
  sourcesContent : option (list (option jsstring));
  sourceRoot : option jsstring
}.

(** An element of a parsed document: its local name (lower case for
    HTML elements) and its attributes. *)
Record Element : Type := mkElement {
  tagName : jsstring;
  attributes : list (jsstring * jsstring)
}.

(** A document is the list of its elements in tree order, which is the
    order in which [querySelectorAll] reports them. *)
Abbreviation Document := (list Element) (only parsing).

(** The environment of one run: the network, the user and the clock
    (each indexed by the number of requests issued so far) and the
    platform functions. *)
Record Env : Type := mkEnv {
  fetch : nat → jsstring → FetchOutcome;
  stopClicked : nat → bool;   (* stop pressed while request [n] is pending *)
  Date_now : nat → nat;
  encodeURIComponent : jsstring → Result jsstring;  (* may throw URIError *)
  toLowerCase : jsstring → jsstring;
  TextEncoder_encode : option jsstring → list N;
  (* [new URL(url)] and [new URL(url, base)]: [None] is the TypeError *)
  URL_new : jsstring → option jsstring → option URL;
  (* [JSON.parse] of a source map; [Throw] also when the value is not
     an object *)
  JSON_parse : jsstring → Result SourceMap;
  (* [new DOMParser().parseFromString(html, 'text/html')] *)
  DOMParser_parse : jsstring → Document
}.

(** *** State and exceptions *)

Definition M (A : Type) : Type := Session → Result A * Session.

Definition ret {A} (a : A) : M A := λ st, (Ok a, st).
Definition throw {A} (msg : jsstring) : M A := λ st, (Throw msg, st).
Definition bind {A B} (m : M A) (f : A → M B) : M B :=
  λ st, match m st with
        | (Ok a, st') => f a st'
        | (Throw e, st') => (Throw e, st')
        end.
(** [try { m } catch (error) { h error.message }] *)
Definition try_catch {A} (m : M A) (h : jsstring → M A) : M A :=
  λ st, match m st with
        | (Ok a, st') => (Ok a, st')
        | (Throw e, st') => h e st'
        end.
Definition modify (f : Session → Session) : M unit := λ st, (Ok tt, f st).
Definition gets {A} (f : Session → A) : M A := λ st, (Ok (f st), st).

Notation "'do' x <- m ;; k" := (bind m (λ x, k))
  (at level 10, x name, m at level 99, k at level 200,
   format "'[v' 'do'  x  <-  m  ;;  '/' k ']'").
Notation "'run' m ;; k" := (bind m (λ _, k))
  (at level 10, m at level 99, k at level 200,
   format "'[v' 'run'  m  ;;  '/' k ']'").

Definition liftR {A} (r : Result A) : M A := λ st, (r, st).

Definition exec {A} (m : M A) (st : Session) : Session := snd (m st).
Definition eval {A} (m : M A) (st : Session) : Result A := fst (m st).

(** [for (const x of xs) { body }] where the body says whether the loop
    goes on ([true]) or breaks. *)
Fixpoint forOf {A} (xs : list A) (body : A → M bool) : M unit :=
  match xs with
  | [] => ret tt
  | x :: xs' =>
      do continue <- body x ;;
      if continue then forOf xs' body else ret tt
  end.

(** The message of the [TypeError] raised by reading a property of
    [null] or [undefined] (its wording is the engine's). *)
Definition typeErrorMessage : jsstring := lit "TypeError".

(** [await fetch(u, ...)]: the request is issued and logged; the user
    may press the stop button while it is pending, which runs the
    handler [onStop] of the class; then the request settles. *)
Definition awaitFetch (env : Env) (onStop : M unit) (u : jsstring)
  : M PlatformResponse :=
  λ st,
    let n := length (requests st) in
    let st1 := add_request u st in
    let st2 := if stopClicked env n then exec onStop st1 else st1 in
    match fetch env n u with
    | Rejected message => (Throw message, st2)
    | Responded r => (Ok r, st2)
    end.

(** [for]/[reduce]-style loops that carry an accumulator. *)
Fixpoint foldM {A B} (f : B → A → M B) (b : B) (xs : list A) : M B :=
  match xs with
  | [] => ret b
  | x :: xs' => do b' <- f b x ;; foldM f b' xs'
  end.

(** ** The refactored downloader (the class with [saveFile] and [stats]) *)

Module Downloader.

(** The regular expressions of [cleanSourcePath], in source order. *)
Definition re_leadingSlash : regex := Bol :: chars "/".
Definition re_webpackHost : regex :=
  Bol :: chars "webpack://" ++ [Star (NoneOf (lit "/"))] ++ chars "/".
Definition re_webpackBare : regex := Bol :: chars "webpack://".
Definition re_dotSlash : regex := Bol :: chars "./".
Definition re_query : regex := chars "?" ++ [Star Dot; Eol].
(** The characters of the class in the last regular expression: the
    less-than and greater-than signs, the colon, the double quote (code
    34), the bar, the question mark and the star. *)
Definition invalidChars : list N := lit "<>:" ++ [34%N] ++ lit "|?*".
Definition re_invalid : regex := [Single (OneOf invalidChars)].

Definition cleanSourcePath (sourcePath : jsstring) : jsstring :=
  replaceAll re_invalid (lit "_")
    (replace re_query []
      (replace re_dotSlash []
        (replace re_webpackBare []
          (replace re_webpackHost []
            (replace re_leadingSlash [] sourcePath))))).

Definition skipPatterns : list jsstring :=
  [ lit "webpack/"; lit "node_modules/"; lit "webpack:///"; lit "(webpack)";
    lit "webpack/bootstrap"; lit "webpack/runtime" ].

(** An array element that is [null] or out of range is falsy, and so is
    the empty string. *)
Definition shouldExtractSource (sourcePath sourceContent : option jsstring)
  : bool :=
  match sourceContent, sourcePath with
  | Some c, Some p =>
      if negb (truthy c) || negb (truthy p) then false
      else negb (existsb (λ pattern, includes p pattern) skipPatterns)
  | _, _ => false
  end.

Definition bumpStats (filename : jsstring) (fileData : FileData) (s : Stats)
  : Stats :=
  let s1 := mkStats (S (totalFiles s)) (sourceFiles s) (jsFiles s) (cssFiles s)
                    (imageFiles s) (totalSize s + size fileData) in
  if startsWith filename (lit "src/") then
    mkStats (totalFiles s1) (S (sourceFiles s1)) (jsFiles s1) (cssFiles s1)
            (imageFiles s1) (totalSize s1)
  else if endsWith filename (lit ".js") then
    mkStats (totalFiles s1) (sourceFiles s1) (S (jsFiles s1)) (cssFiles s1)
            (imageFiles s1) (totalSize s1)
  else if endsWith filename (lit ".css") then
    mkStats (totalFiles s1) (sourceFiles s1) (jsFiles s1) (S (cssFiles s1))
            (imageFiles s1) (totalSize s1)
  else if JS.eqb (type fileData) (lit "image") then
    mkStats (totalFiles s1) (sourceFiles s1) (jsFiles s1) (cssFiles s1)
            (S (imageFiles s1)) (totalSize s1)
  else s1.

Definition saveFile (filename : jsstring) (fileData : FileData) : M unit :=
  run modify (set_files (λ files, Map_set files filename fileData)) ;;
  modify (set_stats (bumpStats filename fileData)).

(** [stopDownload] (the log line and the button are the page's). *)
Definition stopDownload : M unit := modify (set_flag false).

Section Methods.

Context (env : Env).

Definition platformFetch (u : jsstring) : M PlatformResponse :=
  awaitFetch env stopDownload u.

Definition relayResponse (contents : option jsstring) : Response :=
  mkResponse true 200 [(lit "content-type", lit "text/plain")] (Ok contents)
             (Some (TextEncoder_encode env contents)).

Definition fetchWithCORS (url : jsstring) : M Response :=
  (* Try direct fetch first *)
  do direct <- try_catch
                 (do response <- platformFetch url ;;
                  ret (if p_ok response then Some response else None))
                 (λ _, ret None) ;;
  match direct with
  | Some response => ret (ofPlatform response)
  | None =>
      (* Fallback to CORS proxy *)
      try_catch
        (do encoded <- liftR (encodeURIComponent env url) ;;
         let proxyUrl := lit "https://api.allorigins.win/get?url=" ++ encoded in
         do response <- platformFetch proxyUrl ;;
         if negb (p_ok response) then
           throw (lit "Proxy returned " ++ ofNat (p_status response))
         else
           do contents <- liftR (p_contents response) ;;
           ret (relayResponse contents))
        (λ message,
           throw (lit "Both direct fetch and CORS proxy failed: " ++ message))
  end.

Definition getContentType (response : Response) : jsstring :=
  match Map_get (headers response) (lit "content-type") with
  | Some v => if truthy v then v else lit "application/octet-stream"
  | None => lit "application/octet-stream"
  end.

(** The value is [None] when the text of the response is [null]. *)
Definition getResponseContent (response : Response) (contentType : jsstring)
  : Result (option Content) :=
  if includes contentType (lit "text") || includes contentType (lit "javascript")
     || includes contentType (lit "json") || includes contentType (lit "css")
  then Result_map (fmap Text) (text response)
  else match arrayBuffer response with
       | Some bytes => Ok (Some (Binary bytes))
       | None => Result_map (fmap Text) (text response)
       end.

(** [content.length || content.byteLength || 0]; reading [length] of
    [null] throws. *)
Definition getContentSize (content : option Content) : Result nat :=
  match content with
  | None => Throw typeErrorMessage
  | Some (Text s) => Ok (length s)
  | Some (Binary bytes) => Ok (length bytes)
  end.

(** One turn of the loop over the indices of [sources]. *)
Definition extractEntry (srcs conts : list (option jsstring))
  (extractedCount i : nat) : M nat :=
  let sourcePath := mjoin (srcs !! i) in
  let sourceContent := mjoin (conts !! i) in
  if shouldExtractSource sourcePath sourceContent then
    let path := default [] sourcePath in
    let text := default [] sourceContent in
    let cleanPath := cleanSourcePath path in
    let sourceFilename := lit "src/" ++ cleanPath in
    run saveFile sourceFilename
          (mkFileData (Text text) (length text) (lit "source")
                      None None (Some path)) ;;
    ret (S extractedCount)
  else ret extractedCount.

Definition extractSourceFilesFromMap (mapContent jsFilename : jsstring)
  : M nat :=
  try_catch
    (do sourceMap <- liftR (JSON_parse env mapContent) ;;
     match sources sourceMap, sourcesContent sourceMap with
     | Some srcs, Some conts =>
         foldM (extractEntry srcs conts) 0 (seq 0 (length srcs))
     | _, _ => ret 0
     end)
    (λ _, ret 0).

(** *** Phase 1: the main page *)

Definition downloadMainPage (targetUrl : jsstring) : M jsstring :=
  try_catch
    (do response <- fetchWithCORS targetUrl ;;
     do html <- liftR (text response) ;;
     match html with
     | None => throw typeErrorMessage        (* [html.length] of [null] *)
     | Some html =>
         run saveFile (lit "index.html")
               (mkFileData (Text html) (length html) (lit "html")
                           (Some targetUrl) (Some (lit "text/html")) None) ;;
         ret html
     end)
    (λ message, throw (lit "Failed to download main page: " ++ message)).

(** *** Phase 2: static resource extraction *)

Definition getAttribute (el : Element) (name : jsstring) : option jsstring :=
  Map_get (attributes el) name.

Definition hasAttribute (el : Element) (name : jsstring) : bool :=
  bool_decide (is_Some (getAttribute el name)).

(** The compound selector [[rel="stylesheet"]] *)
Definition relIsStylesheet (el : Element) : bool :=
  match getAttribute el (lit "rel") with
  | Some v => JS.eqb (asciiLower v) (lit "stylesheet")
  | None => false
  end.

(** [doc.querySelectorAll(selector)] for the four selectors in use. *)
Definition select_script_src (doc : Document) : list Element :=
  filter (λ el, tagName el = lit "script" ∧ hasAttribute el (lit "src")) doc.
Definition select_link_stylesheet (doc : Document) : list Element :=
  filter (λ el, tagName el = lit "link" ∧ relIsStylesheet el) doc.
Definition select_img_src (doc : Document) : list Element :=
  filter (λ el, tagName el = lit "img" ∧ hasAttribute el (lit "src")) doc.
Definition select_link_href_other (doc : Document) : list Element :=
  filter (λ el, tagName el = lit "link" ∧ hasAttribute el (lit "href")
                ∧ ¬ relIsStylesheet el) doc.

(** The reference is [null] when the attribute is absent.  The value
    added to the set, if any, is [new URL(url, base).href]. *)
Definition addResourceUrl (url : option jsstring) (base : URL)
  (resourceUrls : JSSet) (type : jsstring) : JSSet :=
  match url with
  | None => resourceUrls
  | Some url =>
      if negb (truthy url) || startsWith url (lit "data:")
         || startsWith url (lit "#") || startsWith url (lit "mailto:")
         || startsWith url (lit "tel:")
      then resourceUrls
      else
        match URL_new env url (Some (href base)) with
        | Some full =>
            let fullUrl := href full in
            if startsWith fullUrl (lit "http") then Set_add resourceUrls fullUrl
            else resourceUrls
        | None => resourceUrls               (* Invalid URL: logged *)
        end
  end.

Definition extractScripts (doc : Document) (base : URL) (resourceUrls : JSSet)
  : JSSet :=
  foldl (λ acc script,
           addResourceUrl (getAttribute script (lit "src")) base acc (lit "script"))
        resourceUrls (select_script_src doc).

Definition extractStylesheets (doc : Document) (base : URL)
  (resourceUrls : JSSet) : JSSet :=
  foldl (λ acc link,
           addResourceUrl (getAttribute link (lit "href")) base acc
                          (lit "stylesheet"))
        resourceUrls (select_link_stylesheet doc).

Definition extractImages (doc : Document) (base : URL) (resourceUrls : JSSet)
  : JSSet :=
  foldl (λ acc img,
           addResourceUrl (getAttribute img (lit "src")) base acc (lit "image"))
        resourceUrls (select_img_src doc).

Definition extractOtherResources (doc : Document) (base : URL)
  (resourceUrls : JSSet) : JSSet :=
  foldl (λ acc link,
           addResourceUrl (getAttribute link (lit "href")) base acc (lit "other"))
        resourceUrls (select_link_href_other doc).

(** [new URL(baseUrl)] stands outside the [try] block; nothing inside
    it throws, the parser of [text/html] being total. *)
Definition extractStaticResources (html baseUrl : jsstring)
  : M (list jsstring) :=
  match URL_new env baseUrl None with
  | None => throw typeErrorMessage
  | Some base =>
      let doc := DOMParser_parse env html in
      let resourceUrls := extractScripts doc base [] in
      let resourceUrls := extractStylesheets doc base resourceUrls in
      let resourceUrls := extractImages doc base resourceUrls in
      let resourceUrls := extractOtherResources doc base resourceUrls in
      ret resourceUrls
  end.

(** *** File names and types *)

Definition getDefaultFilename (contentType : jsstring) : jsstring :=
  if includes contentType (lit "html") then lit "index.html"
  else if includes contentType (lit "css") then lit "index.css"
  else if includes contentType (lit "javascript") then lit "index.js"
  else lit "index.bin".

(** The entries of [extensions], each with [mimeType.split('/')[1]]. *)
Definition extensions : list (jsstring * jsstring) :=
  [ (lit "html", lit ".html"); (lit "css", lit ".css");
    (lit "javascript", lit ".js"); (lit "javascript", lit ".js");
    (lit "json", lit ".json"); (lit "png", lit ".png");
    (lit "jpeg", lit ".jpg"); (lit "gif", lit ".gif");
    (lit "svg+xml", lit ".svg") ].

Definition getExtensionFromContentType (contentType : jsstring) : jsstring :=
  match filter (λ e, includes contentType e.1 = true) extensions with
  | (_, ext) :: _ => ext
  | [] => lit ".bin"
  end.

Definition typeMap : list (jsstring * jsstring) :=
  [ (lit "js", lit "script"); (lit "jsx", lit "script");
    (lit "ts", lit "script"); (lit "tsx", lit "script");
    (lit "css", lit "stylesheet"); (lit "scss", lit "stylesheet");
    (lit "png", lit "image"); (lit "jpg", lit "image");
    (lit "jpeg", lit "image"); (lit "gif", lit "image");
    (lit "svg", lit "image"); (lit "html", lit "html");
    (lit "htm", lit "html"); (lit "map", lit "sourcemap") ].

(** [typeMap[ext] || 'other'], for the own properties of [typeMap]. *)
Definition determineFileType (filename contentType : jsstring) : jsstring :=
  if includes contentType (lit "javascript") then lit "script"
  else if includes contentType (lit "css") then lit "stylesheet"
  else if includes contentType (lit "image") then lit "image"
  else if includes contentType (lit "html") then lit "html"
  else
    let ext := toLowerCase env (default [] (last (split 46 filename))) in
    default (lit "other") (Map_get typeMap ext).

Definition re_eqAmp : regex := [Single (OneOf (lit "=&"))].

(** [`resource_${Date.now()}.bin`] *)
Definition resourceBin : M jsstring :=
  gets (λ st, lit "resource_" ++ ofNat (Date_now env (length (requests st)))
              ++ lit ".bin").

Definition generateFilename (url contentType : jsstring) : M jsstring :=
  match URL_new env url None with
  | None => resourceBin
  | Some urlObj =>
      let pathname := pathname urlObj in
      (* Handle root paths *)
      if negb (truthy pathname) || JS.eqb pathname (lit "/")
         || endsWith pathname (lit "/")
      then ret (getDefaultFilename contentType)
      else
        let filename := default [] (last (split 47 pathname)) in
        (* Handle query parameters *)
        let hasExtension := includes filename (lit ".") in
        let filename :=
          if truthy (search urlObj) && negb hasExtension
          then filename ++ lit "_"
                 ++ take 20 (replaceAll re_eqAmp (lit "_") (drop 1 (search urlObj)))
          else filename in
        let filename := default [] (head (split 63 filename)) in
        (* Add extension if missing *)
        let filename :=
          if negb hasExtension
          then filename ++ getExtensionFromContentType contentType
          else filename in
        (* Clean filename *)
        let cleaned := replaceAll re_invalid (lit "_") filename in
        if truthy cleaned then ret cleaned else resourceBin
  end.

(** *** Phase 3: static resource download *)

Definition downloadSingleResource (url : jsstring) : M unit :=
  do seen <- gets (λ st, Set_has (downloadedUrls st) url) ;;
  if seen then ret tt                     (* Already downloaded *)
  else
    try_catch
      (do response <- fetchWithCORS url ;;
       let contentType := getContentType response in
       do content <- liftR (getResponseContent response contentType) ;;
       do filename <- generateFilename url contentType ;;
       let fileType := determineFileType filename contentType in
       do size <- liftR (getContentSize content) ;;
       match content with
       | None => throw typeErrorMessage
       | Some content =>
           run saveFile filename
                 (mkFileData content size fileType (Some url)
                             (Some contentType) None) ;;
           modify (set_urls (λ urls, Set_add urls url))
       end)
      (λ message,
         throw (lit "Failed to download " ++ url ++ lit ": " ++ message)).

(** The counter [downloaded] only feeds the progress bar. *)
Definition downloadStaticResources (resourceUrls : list jsstring) : M unit :=
  forOf resourceUrls
    (λ resourceUrl,
       do active <- gets isDownloading ;;
       if negb active then ret false      (* break *)
       else
         run try_catch (downloadSingleResource resourceUrl) (λ _, ret tt) ;;
         ret true).

(** *** Phase 4: source maps *)

Definition isText (c : Content) : bool :=
  match c with Text _ => true | Binary _ => false end.

Definition isJavaScriptFile (filename : jsstring) (file : FileData) : bool :=
  (endsWith filename (lit ".js") || JS.eqb (type file) (lit "script")
   || match contentType file with
      | Some ct => includes ct (lit "javascript")
      | None => false
      end)
  && isText (content file).

Definition getJavaScriptFiles : M (list (jsstring * FileData)) :=
  gets (λ st, filter (λ e, isJavaScriptFile e.1 e.2 = true) (downloadedFiles st)).

(** The regular expression of [findSourceMapUrl], with the [m] flag. *)
Definition re_sourceMappingURL : regex :=
  chars "//" ++ [Single (OneOf (lit "@#")); Star (OneOf whiteSpace)]
  ++ chars "sourceMappingURL=" ++ [Mark; Single Dot; Star Dot; Mark; EolM].

Definition contentText (c : Content) : option jsstring :=
  match c with Text s => Some s | Binary _ => None end.

(** [file.content.match] throws when the content is a buffer, and the
    handler returns [null]; a [null] base reads as the string of that
    name. *)
Definition findSourceMapUrl (file : FileData) : option jsstring :=
  match contentText (content file) with
  | None => None
  | Some text =>
      match matchGroup re_sourceMappingURL true text with
      | None => None
      | Some captured =>
          let mapPath := trim captured in
          if startsWith mapPath (lit "http") then Some mapPath
          else href <$> URL_new env mapPath
                          (Some (default (lit "null") (url file)))
      end
  end.

Definition processSourceMap (sourceMapUrl jsFilename : jsstring) : M nat :=
  try_catch
    (do mapResponse <- fetchWithCORS sourceMapUrl ;;
     do mapContent <- liftR (text mapResponse) ;;
     do mapFilename <- generateFilename sourceMapUrl (lit "application/json") ;;
     match mapContent with
     | None => throw typeErrorMessage
     | Some mapContent =>
         run saveFile mapFilename
               (mkFileData (Text mapContent) (length mapContent)
                           (lit "sourcemap") (Some sourceMapUrl)
                           (Some (lit "application/json")) None) ;;
         extractSourceFilesFromMap mapContent jsFilename
     end)
    (λ _, ret 0).

Definition processSourceMaps : M unit :=
  do jsFiles <- getJavaScriptFiles ;;
  forOf jsFiles
    (λ entry,
       do active <- gets isDownloading ;;
       if negb active then ret false      (* break *)
       else
         run try_catch
               (match findSourceMapUrl entry.2 with
                | Some sourceMapUrl =>
                    if truthy sourceMapUrl then
                      run processSourceMap sourceMapUrl entry.1 ;; ret tt
                    else ret tt
                | None => ret tt
                end)
               (λ _, ret tt) ;;
         ret true).

(** *** Phase 5: dynamic resources *)

(** The three quote characters: 39, 34 and 96. *)
Definition quotes : list N := [39; 34; 96]%N.

Definition re_apiEndpoint : regex :=
  [Single (OneOf quotes)] ++ chars "/api/"
  ++ [Single (NoneOf (quotes ++ whiteSpace)); Star (NoneOf (quotes ++ whiteSpace));
      Single (OneOf quotes)].

Definition re_resourceUrl : regex :=
  [Single (OneOf quotes)] ++ chars "http" ++ [Opt (Chr 115)] ++ chars "://"
  ++ [Single (NoneOf (quotes ++ whiteSpace)); Star (NoneOf (quotes ++ whiteSpace));
      Single (OneOf quotes)].

(** [match.slice(1, -1)] *)
Definition unquote (m : jsstring) : jsstring := take (length m - 2) (drop 1 m).

Definition extractApiEndpoints (content baseUrl : jsstring) (endpoints : JSSet)
  : JSSet :=
  foldl (λ acc m,
           match URL_new env (unquote m) (Some baseUrl) with
           | Some full => Set_add acc (href full)
           | None => acc
           end)
        endpoints (matchAll re_apiEndpoint content).

Definition extractResourceUrls (content : jsstring) (visited : JSSet)
  (endpoints : JSSet) : JSSet :=
  foldl (λ acc m,
           let url := unquote m in
           if negb (Set_has visited url) then Set_add acc url else acc)
        endpoints (matchAll re_resourceUrl content).

Definition extractEndpointsFromCode : M JSSet :=
  gets (λ st,
    match Map_get (downloadedFiles st) (lit "index.html") ≫= url with
    | None => []
    | Some baseUrl =>
        if negb (truthy baseUrl) then []
        else
          foldl (λ endpoints entry,
                   let file : FileData := entry.2 in
                   match content file with
                   | Text content =>
                       if JS.eqb (type file) (lit "script") then
                         extractResourceUrls content (downloadedUrls st)
                           (extractApiEndpoints content baseUrl endpoints)
                       else endpoints
                   | Binary _ => endpoints
                   end)
                [] (downloadedFiles st)
    end).

Definition findDynamicResources : M unit :=
  do endpoints <- extractEndpointsFromCode ;;
  forOf endpoints
    (λ endpoint,
       do active <- gets isDownloading ;;
       if negb active then ret false      (* break *)
       else
         run try_catch (downloadSingleResource endpoint) (λ _, ret tt) ;;
         ret true).

(** *** Orchestration (progress, logging and the report are the page's) *)

Definition executeDownloadProcess (targetUrl : jsstring) : M unit :=
  do html <- downloadMainPage targetUrl ;;
  do resourceUrls <- extractStaticResources html targetUrl ;;
  run downloadStaticResources resourceUrls ;;
  run processSourceMaps ;;
  findDynamicResources.

(** *** The entry point and its guards *)

Definition isValidUrl (string : jsstring) : bool :=
  match URL_new env string None with
  | Some url =>
      JS.eqb (protocol url) (lit "http:") || JS.eqb (protocol url) (lit "https:")
  | None => false
  end.

(** [validateInput] (the error banners are the page's). *)
Definition validateInput (targetUrl : jsstring) : bool :=
  if negb (truthy targetUrl) then false
  else if negb (isValidUrl targetUrl) then false
  else true.

Definition resetStats : M unit := modify (set_stats (λ _, mkStats 0 0 0 0 0 0)).

(** [initializeDownload]; the start time only feeds the results panel. *)
Definition initializeDownload (targetUrl : jsstring) : M unit :=
  run modify (set_flag true) ;;
  run modify (set_files (λ _, [])) ;;
  run modify (set_urls (λ _, [])) ;;
  resetStats.

Definition finalizeDownload : M unit := modify (set_flag false).

(** [startDownload], [value] being the text of the input field.  The
    handler of the [catch] block logs and shows the error. *)
Definition startDownload (value : jsstring) : M unit :=
  let targetUrl := trim value in
  if negb (validateInput targetUrl) then ret tt
  else
    run initializeDownload targetUrl ;;
    run try_catch (executeDownloadProcess targetUrl) (λ _, ret tt) ;;
    finalizeDownload.

Definition resetDownload : M unit :=
  run modify (set_files (λ _, [])) ;;
  run modify (set_urls (λ _, [])) ;;
  run modify (set_flag false) ;;
  resetStats.

End Methods.

End Downloader.

(** ** The older variant (the class with [extractSourceFilesAdvanced])

    In the source the text of [extractSourceFilesAdvanced], of its
    [fetchWithCORS] and of [getFileExtension] follows the closing brace
    of the class, so that no caller of the repository reaches them;
    they are embedded as they read. *)

Module Advanced.

Definition stopDownload : M unit := modify (set_flag false).

Definition getFileExtension (filename : jsstring) : jsstring :=
  let parts := split 46 filename in
  if bool_decide (1 < length parts)
  then lit "." ++ default [] (last parts)
  else [].

(** The chain of [replace] calls that both branches of
    [extractSourceFilesAdvanced] apply to a source path; the regular
    expressions are those of [cleanSourcePath]. *)
Definition cleanPathOf (sourcePath : jsstring) : jsstring :=
  replaceAll Downloader.re_invalid (lit "_")
    (replace Downloader.re_query []
      (replace Downloader.re_dotSlash []
        (replace Downloader.re_webpackBare []
          (replace Downloader.re_webpackHost []
            (replace Downloader.re_leadingSlash [] sourcePath))))).

(** The condition of the first [continue] of the embedded branch:
    webpack internals and node_modules. *)
Definition isNoise (cleanPath : jsstring) : bool :=
  includes cleanPath (lit "webpack/")
  || includes cleanPath (lit "node_modules/")
  || includes cleanPath (lit "webpack:///")
  || startsWith cleanPath (lit "(webpack)")
  || includes cleanPath (lit "webpack/bootstrap")
  || includes cleanPath (lit "webpack/runtime")
  || includes cleanPath (lit "webpack-dev-server")
  || includes cleanPath (lit "webpack-hot-middleware")
  || includes cleanPath (lit "__webpack")
  || startsWith cleanPath (lit "(webpack")
  || includes cleanPath (lit "webpack-internal://").

(** The condition of the second [continue]: empty or invalid paths. *)
Definition isInvalidPath (cleanPath : jsstring) : bool :=
  negb (truthy cleanPath) || JS.eqb cleanPath (lit ".")
  || JS.eqb cleanPath (lit "..") || bool_decide (length cleanPath < 2).

(** The [while] loop that looks for a name not yet in the map:
    [finalSourceFilename] is the candidate and [counter] the next
    suffix.  [None] when [fuel] iterations do not reach a free name. *)
Fixpoint findFreeName (fuel : nat) (files : JSMap FileData)
  (sourceFilename finalSourceFilename : jsstring) (counter : nat)
  : option jsstring :=
  if negb (Map_has files finalSourceFilename) then Some finalSourceFilename
  else
    match fuel with
    | O => None
    | S fuel' =>
        let ext := getFileExtension sourceFilename in
        let base := replaceStr sourceFilename ext [] in
        findFreeName fuel' files sourceFilename
          (base ++ lit "_" ++ ofNat counter ++ ext) (S counter)
    end.

(** The loop started as in the source.  One iteration more than the
    map has entries always suffices ([findFreeName_terminates] below),
    so the default is never taken. *)
Definition finalSourceFilename (files : JSMap FileData)
  (sourceFilename : jsstring) : jsstring :=
  default sourceFilename
    (findFreeName (S (length files)) files sourceFilename sourceFilename 1).

(** The condition under which the fallback branch keeps a file. *)
Definition keepFetched (cleanPath : jsstring) : bool :=
  negb (includes cleanPath (lit "webpack/"))
  && negb (includes cleanPath (lit "node_modules/"))
  && negb (startsWith cleanPath (lit "(webpack)")).

Section Methods.

Context (env : Env).

Definition platformFetch (u : jsstring) : M PlatformResponse :=
  awaitFetch env stopDownload u.

(** This variant neither checks the status of the relay's answer nor
    wraps its failures. *)
Definition fetchWithCORS (url : jsstring) : M Response :=
  do direct <- try_catch
                 (do response <- platformFetch url ;;
                  ret (if p_ok response then Some response else None))
                 (λ _, ret None) ;;
  match direct with
  | Some response => ret (ofPlatform response)
  | None =>
      do encoded <- liftR (encodeURIComponent env url) ;;
      let proxyUrl := lit "https://api.allorigins.win/get?url=" ++ encoded in
      do response <- platformFetch proxyUrl ;;
      do contents <- liftR (p_contents response) ;;
      ret (mkResponse true 200 [(lit "content-type", lit "text/plain")]
                      (Ok contents) (Some (TextEncoder_encode env contents)))
  end.

(** One turn of the loop over the indices of [sources], when both
    arrays are present. *)
Definition extractEmbedded (srcs conts : list (option jsstring))
  (extractedCount i : nat) : M nat :=
  match mjoin (conts !! i), mjoin (srcs !! i) with
  | Some sourceContent, Some sourcePath =>
      if truthy sourceContent && truthy sourcePath then
        let cleanPath := cleanPathOf sourcePath in
        if isNoise cleanPath then ret extractedCount           (* continue *)
        else if isInvalidPath cleanPath then ret extractedCount (* continue *)
        else
          let sourceFilename := lit "sources/" ++ cleanPath in
          (* Ensure we don't overwrite existing files *)
          do files <- gets downloadedFiles ;;
          let final := finalSourceFilename files sourceFilename in
          run modify (set_files (λ files,
                Map_set files final
                  (mkFileData (Text sourceContent) (length sourceContent)
                              (lit "source") None None (Some sourcePath)))) ;;
          ret (S extractedCount)
      else ret extractedCount
  | _, _ => ret extractedCount
  end.

(** The URL the fallback branch fetches for a source path, if any:
    [Throw] when [new URL] throws. *)
Definition sourceUrlOf (sourceMap : SourceMap) (jsFilename sourcePath : jsstring)
  (files : JSMap FileData) : Result (option jsstring) :=
  if startsWith sourcePath (lit "http") then Ok (Some sourcePath)
  else
    let baseUrl :=
      match sourceRoot sourceMap with
      | Some root => if truthy root then Some root
                     else Map_get files jsFilename ≫= url
      | None => Map_get files jsFilename ≫= url
      end in
    match baseUrl with
    | Some baseUrl =>
        if truthy baseUrl then
          match URL_new env sourcePath (Some baseUrl) with
          | Some full => Ok (Some (href full))
          | None => Throw typeErrorMessage
          end
        else Ok None
    | None => Ok None
    end.

(** One turn of the loop over [sources], when [sourcesContent] is
    absent. *)
Definition extractFetched (sourceMap : SourceMap) (jsFilename : jsstring)
  (extractedCount : nat) (entry : option jsstring) : M nat :=
  match entry with
  | None => ret extractedCount
  | Some sourcePath =>
      if negb (truthy sourcePath) then ret extractedCount      (* continue *)
      else
        try_catch
          (do files <- gets downloadedFiles ;;
           do sourceUrl <- liftR (sourceUrlOf sourceMap jsFilename sourcePath files) ;;
           match sourceUrl with
           | None => ret extractedCount
           | Some sourceUrl =>
               if negb (truthy sourceUrl) then ret extractedCount
               else
                 do response <- fetchWithCORS sourceUrl ;;
                 do content <- liftR (text response) ;;
                 let cleanPath := cleanPathOf sourcePath in
                 if keepFetched cleanPath then
                   match content with
                   | None => throw typeErrorMessage
                   | Some content =>
                       let sourceFilename := lit "sources/" ++ cleanPath in
                       run modify (set_files (λ files,
                             Map_set files sourceFilename
                               (mkFileData (Text content) (length content)
                                           (lit "source") (Some sourceUrl) None
                                           (Some sourcePath)))) ;;
                       ret (S extractedCount)
                   end
                 else ret extractedCount
           end)
          (* Failed to download individual source file, continue *)
          (λ _, ret extractedCount)
  end.

Definition extractSourceFilesAdvanced (mapContent jsFilename : jsstring)
  : M nat :=
  try_catch
    (do sourceMap <- liftR (JSON_parse env mapContent) ;;
     match sources sourceMap, sourcesContent sourceMap with
     | Some srcs, Some conts =>
         foldM (extractEmbedded srcs conts) 0 (seq 0 (length srcs))
     | Some srcs, None =>
         foldM (extractFetched sourceMap jsFilename) 0 srcs
     | None, _ => ret 0
     end)
    (λ _, ret 0).

End Methods.

End Advanced.

(** * Properties *)

(** ** Strings and regular expressions *)

Section StringFacts.

Implicit Types s p t : jsstring.

Lemma startsWith_spec s p : startsWith s p = true ↔ ∃ t, s = p ++ t.
Proof.
  revert s. induction p as [|c p IH]; intros s; simpl.
  - split; [eauto|done].
  - destruct s as [|d s].
    { split; [done|]. by intros [t Ht]. }
    destruct (N.eqb_spec c d) as [->|Hne].
    + rewrite IH. split.
      * intros [t ->]. eauto.
      * intros [t [= ->]]. eauto.
    + split; [done|]. intros [t [= -> _]]. done.
Qed.

Lemma startsWith_app s t : startsWith (s ++ t) s = true.
Proof. apply startsWith_spec. eauto. Qed.

Lemma startsWith_false s p :
  startsWith s p = false ↔ ∀ t, s ≠ p ++ t.
Proof.
  rewrite <- not_true_iff_false, startsWith_spec. split.
  - intros Hn t Ht. apply Hn. eauto.
  - intros Hn [t Ht]. by apply (Hn t).
Qed.

Lemma includes_spec s p : includes s p = true ↔ ∃ a b, s = a ++ p ++ b.
Proof.
  induction s as [|x s IH].
  - cbn [includes]. rewrite orb_false_r, startsWith_spec. split.
    + intros [t ->]. by exists [], t.
    + intros (a & b & H). symmetry in H.
      apply app_eq_nil in H as [-> H]. eauto.
  - cbn [includes]. rewrite orb_true_iff, startsWith_spec, IH. split.
    + intros [[t ->]|(a & b & ->)].
      * by exists [], t.
      * by exists (x :: a), b.
    + intros (a & b & H). destruct a as [|y a]; simpl in H.
      * left. eauto.
      * right. injection H as -> ->. eauto.
Qed.

Lemma includes_app_l s t p : includes s p = true → includes (t ++ s) p = true.
Proof.
  rewrite !includes_spec. intros (a & b & ->).
  exists (t ++ a), b. by rewrite <- !app_assoc.
Qed.

Lemma includes_app_r s t p : includes s p = true → includes (s ++ t) p = true.
Proof.
  rewrite !includes_spec. intros (a & b & ->).
  exists a, (b ++ t). by rewrite <- !app_assoc.
Qed.

(** A pattern that discriminates is carried through longer patterns. *)
Lemma includes_trans s p q :
  includes s p = true → includes p q = true → includes s q = true.
Proof.
  rewrite !includes_spec. intros (a & b & ->) (c & d & ->).
  exists (a ++ c), (d ++ b). by rewrite <- !app_assoc.
Qed.

Lemma N_of_ascii_inj (x y : ascii) : N_of_ascii x = N_of_ascii y → x = y.
Proof.
  intros H. rewrite <- (ascii_N_embedding x), <- (ascii_N_embedding y).
  by f_equal.
Qed.

Lemma lit_inj (a b : string) : lit a = lit b → a = b.
Proof.
  unfold lit. revert b. induction a as [|x a IH]; intros [|y b]; simpl;
    intros H; try done.
  injection H as Hxy Hab. f_equal; [by apply N_of_ascii_inj | by apply IH].
Qed.

Lemma ofNat_inj (n m : nat) : ofNat n = ofNat m → n = m.
Proof. unfold ofNat. intros H%lit_inj. by apply (inj pretty). Qed.

End StringFacts.

(** ** Path cleaning in the words of the specification

    The six steps as the specification lists them, to be compared with
    the chain of regular-expression replacements of the source. *)

Module Spec.

(** strip one leading [/] *)
Definition stripLeadingSlash (s : jsstring) : jsstring :=
  match s with
  | x :: r => if N.eqb x 47 then r else s
  | [] => s
  end.

Definition stripPrefix (p s : jsstring) : jsstring :=
  if startsWith s p then drop (length p) s else s.

(** The text after the first occurrence of [c]. *)
Fixpoint afterFirst (c : N) (s : jsstring) : option jsstring :=
  match s with
  | [] => None
  | x :: r => if N.eqb x c then Some r else afterFirst c r
  end.

(** strip a [webpack://<anything>/] prefix: through the first [/] that
    follows [webpack://] *)
Definition stripWebpackHost (s : jsstring) : jsstring :=
  if startsWith s (lit "webpack://")
  then default s (afterFirst 47 (drop 10 s))
  else s.

(** strip everything from the first [?] onward *)
Fixpoint stripFromFirst (c : N) (s : jsstring) : jsstring :=
  match s with
  | [] => []
  | x :: r => if N.eqb x c then [] else x :: stripFromFirst c r
  end.

(** strip everything from the first [?] that no line terminator
    follows *)
Fixpoint stripQuery (s : jsstring) : jsstring :=
  match s with
  | [] => []
  | x :: r =>
      if N.eqb x 63 && forallb (λ y, negb (lineTerminator y)) r then []
      else x :: stripQuery r
  end.

(** replace each of the characters of [cs] with [c] *)
Definition replaceEach (cs : list N) (c : N) (s : jsstring) : jsstring :=
  (λ x, if existsb (N.eqb x) cs then c else x) <$> s.

(** The characters named by the specification, the double quote being
    character 34. *)
Definition named : list N := [60; 62; 58; 34; 124; 63; 42]%N.

Definition cleanPath (s : jsstring) : jsstring :=
  replaceEach named 95
    (stripFromFirst 63
      (stripPrefix (lit "./")
        (stripPrefix (lit "webpack://")
          (stripWebpackHost (stripLeadingSlash s))))).

(** The same with the fifth step read as [stripQuery]. *)
Definition cleanPathExact (s : jsstring) : jsstring :=
  replaceEach named 95
    (stripQuery
      (stripPrefix (lit "./")
        (stripPrefix (lit "webpack://")
          (stripWebpackHost (stripLeadingSlash s))))).

(** The markers of the noise filter, as the specification lists them. *)
Definition noiseMarkers : list jsstring :=
  [ lit "webpack/"; lit "node_modules/"; lit "webpack:///";
    lit "webpack/bootstrap"; lit "webpack/runtime"; lit "webpack-dev-server";
    lit "webpack-hot-middleware"; lit "__webpack"; lit "webpack-internal://" ].

Definition noise (cleanPath : jsstring) : bool :=
  existsb (includes cleanPath) noiseMarkers
  || startsWith cleanPath (lit "(webpack)")
  || bool_decide (length cleanPath < 2).

End Spec.

Section RegexFacts.

Implicit Types (s t : jsstring) (r : regex) (b : bool).

(** The regular expression of a literal text. *)
Definition litRe (cs : list N) : regex := (λ c, Single (Chr c)) <$> cs.

Lemma chars_litRe (p : string) : chars p = litRe (lit p).
Proof. reflexivity. Qed.

Lemma matchHere_litRe cs r b s :
  matchHere (litRe cs ++ r) b s =
  if startsWith s cs
  then matchHere r (match cs with [] => b | _ => false end) (drop (length cs) s)
  else None.
Proof.
  revert b s. induction cs as [|c cs IH]; intros b s; [done|].
  cbn [litRe fmap list_fmap app matchHere inSet startsWith length drop].
  destruct s as [|x s]; [done|].
  rewrite (N.eqb_sym x c). destruct (N.eqb c x); [|done].
  fold (litRe cs). rewrite IH. cbn [drop]. by destruct cs.
Qed.

Lemma replaceFrom_Bol_false r repl s : replaceFrom (Bol :: r) repl false s = s.
Proof. induction s as [|x s IH]; simpl; [done|]. by f_equal. Qed.

(** An anchored expression is tried at the start of the input only. *)
Lemma replace_Bol r repl s :
  replace (Bol :: r) repl s =
  match matchHere r true s with
  | Some (_, rest) => repl ++ rest
  | None => s
  end.
Proof.
  unfold replace. destruct s as [|x s]; cbn [replaceFrom matchHere].
  - by destruct (matchHere r true []) as [[]|].
  - destruct (matchHere r true (x :: s)) as [[]|]; [done|].
    by rewrite replaceFrom_Bol_false.
Qed.

Lemma replace_anchored_lit cs s :
  cs ≠ [] → replace (Bol :: litRe cs) [] s = Spec.stripPrefix cs s.
Proof.
  intros Hcs. rewrite replace_Bol, <- (app_nil_r (litRe cs)), matchHere_litRe.
  unfold Spec.stripPrefix. destruct (startsWith s cs); [|done].
  by destruct cs.
Qed.

Lemma replace_leadingSlash s :
  replace Downloader.re_leadingSlash [] s = Spec.stripLeadingSlash s.
Proof.
  unfold Downloader.re_leadingSlash. rewrite chars_litRe, replace_anchored_lit by done.
  unfold Spec.stripPrefix, Spec.stripLeadingSlash.
  destruct s as [|x s]; [reflexivity|].
  change (lit "/") with [47%N]. cbn [startsWith length drop].
  rewrite (N.eqb_sym x). by destruct (47 =? x)%N.
Qed.

Lemma matchHere_upToSlash b s :
  matchHere [Star (NoneOf (lit "/")); Single (Chr 47)] b s =
  (λ rest, ([], rest)) <$> Spec.afterFirst 47 s.
Proof.
  revert b. induction s as [|x s IH]; intros b; [done|].
  cbn [matchHere Spec.afterFirst inSet lit list_ascii_of_string fmap
       list_fmap existsb] in *.
  change (N_of_ascii "/") with 47%N. rewrite orb_false_r.
  destruct (N.eqb x 47) eqn:Hx; cbn [negb]; [done|].
  rewrite IH. by destruct (Spec.afterFirst 47 s).
Qed.

Lemma replace_webpackHost s :
  replace Downloader.re_webpackHost [] s = Spec.stripWebpackHost s.
Proof.
  unfold Downloader.re_webpackHost. rewrite chars_litRe, replace_Bol.
  rewrite matchHere_litRe. unfold Spec.stripWebpackHost.
  destruct (startsWith s (lit "webpack://")); [|done].
  change (litRe (lit "/")) with [Single (Chr 47)].
  change ([Star (NoneOf (lit "/"))] ++ [Single (Chr 47)])
    with [Star (NoneOf (lit "/")); Single (Chr 47)].
  rewrite matchHere_upToSlash.
  change (length (lit "webpack://")) with 10.
  by destruct (Spec.afterFirst 47 (drop 10 s)).
Qed.

Lemma replace_webpackBare s :
  replace Downloader.re_webpackBare [] s = Spec.stripPrefix (lit "webpack://") s.
Proof.
  unfold Downloader.re_webpackBare. by rewrite chars_litRe, replace_anchored_lit.
Qed.

Lemma replace_dotSlash s :
  replace Downloader.re_dotSlash [] s = Spec.stripPrefix (lit "./") s.
Proof.
  unfold Downloader.re_dotSlash. by rewrite chars_litRe, replace_anchored_lit.
Qed.

(** [.*$] succeeds exactly when no line terminator is left. *)
Lemma matchHere_dotStarEol b s :
  matchHere [Star Dot; Eol] b s =
  if forallb (λ y, negb (lineTerminator y)) s then Some ([], []) else None.
Proof.
  revert b. induction s as [|x s IH]; intros b; [done|].
  cbn [matchHere forallb inSet] in *.
  destruct (lineTerminator x); cbn [negb andb]; [done|].
  rewrite IH. by destruct (forallb _ s).
Qed.

Lemma replaceFrom_query b s :
  replaceFrom Downloader.re_query [] b s = Spec.stripQuery s.
Proof.
  revert b. induction s as [|x s IH]; intros b; [reflexivity|].
  cbn [replaceFrom Spec.stripQuery].
  change Downloader.re_query with (litRe [63%N] ++ [Star Dot; Eol]).
  rewrite matchHere_litRe. cbn [startsWith length drop]. rewrite drop_0.
  rewrite (N.eqb_sym 63). destruct (N.eqb x 63); cbn [andb].
  - rewrite matchHere_dotStarEol. destruct (forallb _ s); [reflexivity|].
    f_equal. apply IH.
  - f_equal. apply IH.
Qed.

Lemma replaceAllFrom_class cs repl fuel b s :
  length s < fuel →
  replaceAllFrom fuel [Single (OneOf cs)] repl b s =
  s ≫= λ x, if existsb (N.eqb x) cs then repl else [x].
Proof.
  revert fuel b. induction s as [|x s IH]; intros [|fuel] b Hf;
    cbn [length] in Hf; try lia; [done|].
  cbn [replaceAllFrom matchHere inSet mbind list_bind].
  destruct (existsb (N.eqb x) cs).
  - rewrite bool_decide_true by (cbn [length]; lia).
    f_equal. apply IH. lia.
  - cbn [app]. f_equal. apply IH. lia.
Qed.

Lemma replaceAll_invalid s :
  replaceAll Downloader.re_invalid (lit "_") s = Spec.replaceEach Spec.named 95 s.
Proof.
  unfold replaceAll, Downloader.re_invalid.
  rewrite replaceAllFrom_class by lia. unfold Spec.replaceEach.
  induction s as [|x s IH]; [done|]. cbn [mbind list_bind fmap list_fmap].
  rewrite IH. f_equal.
  assert (existsb (N.eqb x) Downloader.invalidChars
          = existsb (N.eqb x) Spec.named) as ->.
  { cbn. repeat (destruct (N.eqb x _); [done|]). done. }
  by destruct (existsb (N.eqb x) Spec.named).
Qed.

End RegexFacts.

(** ** Path cleaning (claim C5) *)

Lemma cleanSourcePath_exact s :
  Downloader.cleanSourcePath s = Spec.cleanPathExact s.
Proof.
  unfold Downloader.cleanSourcePath, Spec.cleanPathExact.
  rewrite replaceAll_invalid. unfold replace at 1.
  rewrite replaceFrom_query, replace_dotSlash, replace_webpackBare.
  by rewrite replace_webpackHost, replace_leadingSlash.
Qed.

Lemma cleanPathOf_cleanSourcePath s :
  Advanced.cleanPathOf s = Downloader.cleanSourcePath s.
Proof. reflexivity. Qed.

Definition singleLine (s : jsstring) : Prop :=
  Forall (λ x, lineTerminator x = false) s.

Lemma singleLine_forallb s :
  singleLine s → forallb (λ y, negb (lineTerminator y)) s = true.
Proof.
  induction 1 as [|x s Hx _ IH]; [done|]. cbn [forallb]. by rewrite Hx, IH.
Qed.

Lemma stripQuery_singleLine s :
  singleLine s → Spec.stripQuery s = Spec.stripFromFirst 63 s.
Proof.
  induction 1 as [|x s Hx Hs IH]; [done|]. cbn [Spec.stripQuery Spec.stripFromFirst].
  rewrite singleLine_forallb, andb_true_r by done.
  destruct (N.eqb x 63); [done|]. by rewrite IH.
Qed.

Lemma singleLine_drop n s : singleLine s → singleLine (drop n s).
Proof. apply Forall_drop. Qed.

Lemma afterFirst_suffix c s t : Spec.afterFirst c s = Some t → t `suffix_of` s.
Proof.
  induction s as [|x s IH]; [done|]. cbn [Spec.afterFirst].
  destruct (N.eqb x c).
  - intros [= ->]. by apply suffix_cons_r.
  - intros H. by apply suffix_cons_r, IH.
Qed.

Lemma singleLine_suffix s t : t `suffix_of` s → singleLine s → singleLine t.
Proof. intros [k ->]. unfold singleLine. rewrite Forall_app. tauto. Qed.

Lemma stripPrefix_suffix p s : Spec.stripPrefix p s `suffix_of` s.
Proof.
  unfold Spec.stripPrefix. destruct (startsWith s p); [apply suffix_drop|done].
Qed.

Lemma stripLeadingSlash_suffix s : Spec.stripLeadingSlash s `suffix_of` s.
Proof.
  destruct s as [|x s]; [done|]. cbn. destruct (N.eqb x 47); [|done].
  by apply suffix_cons_r.
Qed.

Lemma stripWebpackHost_suffix s : Spec.stripWebpackHost s `suffix_of` s.
Proof.
  unfold Spec.stripWebpackHost. destruct (startsWith s _); [|done].
  destruct (Spec.afterFirst 47 (drop 10 s)) as [t|] eqn:Ht; [|done].
  cbn [default]. etrans; [by eapply afterFirst_suffix|apply suffix_drop].
Qed.

(** The text that reaches the fifth step is a suffix of the path. *)
Lemma prefixes_suffix s :
  Spec.stripPrefix (lit "./")
    (Spec.stripPrefix (lit "webpack://")
      (Spec.stripWebpackHost (Spec.stripLeadingSlash s))) `suffix_of` s.
Proof.
  etrans; [apply stripPrefix_suffix|]. etrans; [apply stripPrefix_suffix|].
  etrans; [apply stripWebpackHost_suffix|apply stripLeadingSlash_suffix].
Qed.

Lemma cleanSourcePath_singleLine s :
  singleLine s → Downloader.cleanSourcePath s = Spec.cleanPath s.
Proof.
  intros Hs. rewrite cleanSourcePath_exact.
  unfold Spec.cleanPathExact, Spec.cleanPath.
  by rewrite stripQuery_singleLine by (by eapply singleLine_suffix, Hs; apply prefixes_suffix).
Qed.

(** The entry of the claim, as a source map carries it. *)
Definition webpackPath : jsstring := lit "webpack:///./src/app.js".

(** C5.  [cleanSourcePath] is the six steps of the claim on every path
    without a line terminator, and [cleanSourcePath] of
    [webpack:///./src/app.js] is [src/app.js], a path without any noise
    marker.  The code misses the claim twice.  The fifth step leaves
    [a?b<LF>c] uncut, where the six steps give [a]: the expression
    stops at a line terminator.  And the refactored class hands the
    filter the raw path, not the cleaned one: [shouldExtractSource]
    refuses [webpack:///./src/app.js] for the marker [webpack:///], so
    that [extractSourceFilesFromMap] stores nothing for a map made of
    that entry, where [extractSourceFilesAdvanced], which filters the
    cleaned path, stores it as [sources/src/app.js]. *)
Theorem C5_cleanSourcePath_steps :
  (∀ s, Downloader.cleanSourcePath s = Spec.cleanPathExact s)
  ∧ (∀ s, singleLine s → Downloader.cleanSourcePath s = Spec.cleanPath s)
  ∧ Downloader.cleanSourcePath webpackPath = lit "src/app.js"
  ∧ Spec.noise (lit "src/app.js") = false
  ∧ (Downloader.cleanSourcePath (lit "a?b" ++ [10%N] ++ lit "c")
       = lit "a_b" ++ [10%N] ++ lit "c"
     ∧ Spec.cleanPath (lit "a?b" ++ [10%N] ++ lit "c") = lit "a")
  ∧ (∀ c, Downloader.shouldExtractSource (Some webpackPath) c = false)
  ∧ (∀ env mapContent jsFilename st c root,
       truthy c = true →
       JSON_parse env mapContent
       = Ok (mkSourceMap (Some [Some webpackPath]) (Some [Some c]) root) →
       Downloader.extractSourceFilesFromMap env mapContent jsFilename st = (Ok 0, st)
       ∧ Advanced.extractSourceFilesAdvanced env mapContent jsFilename st
         = (Ok 1,
            set_files
              (λ files,
                 Map_set files
                   (Advanced.finalSourceFilename (downloadedFiles st)
                      (lit "sources/src/app.js"))
                   (mkFileData (Text c) (length c) (lit "source") None None
                               (Some webpackPath)))
              st)).
Proof.
  assert (∀ c, Downloader.shouldExtractSource (Some webpackPath) c = false) as Hraw.
  { intros [c|]; [|done]. unfold Downloader.shouldExtractSource.
    destruct (negb (truthy c) || negb (truthy webpackPath)); reflexivity. }
  split_and!.
  - apply cleanSourcePath_exact.
  - apply cleanSourcePath_singleLine.
  - reflexivity.
  - reflexivity.
  - reflexivity.
  - reflexivity.
  - exact Hraw.
  - intros env mapContent jsFilename st c root Hc Hp. split.
    + unfold Downloader.extractSourceFilesFromMap, try_catch, bind at 1, liftR.
      rewrite Hp. cbn [sources sourcesContent length seq foldM].
      unfold bind, Downloader.extractEntry. cbn [lookup list_lookup mjoin option_join].
      by rewrite Hraw.
    + unfold Advanced.extractSourceFilesAdvanced, try_catch, bind at 1, liftR.
      rewrite Hp. cbn [sources sourcesContent length seq foldM].
      unfold bind at 1, Advanced.extractEmbedded.
      cbn [lookup list_lookup mjoin option_join]. rewrite Hc.
      change (truthy webpackPath) with true.
      change (Advanced.cleanPathOf webpackPath) with (lit "src/app.js").
      change (Advanced.isNoise (lit "src/app.js")) with false.
      change (Advanced.isInvalidPath (lit "src/app.js")) with false.
      reflexivity.
Qed.

(** ** Extraction from embedded contents (claim C4) *)

Section Extraction.

Context (env : Env).

(** The state after [saveFile filename fileData]. *)
Definition saved (filename : jsstring) (fileData : FileData) (st : Session)
  : Session :=
  set_stats (Downloader.bumpStats filename fileData)
    (set_files (λ files, Map_set files filename fileData) st).

Lemma saveFile_run filename fileData st :
  Downloader.saveFile filename fileData st = (Ok tt, saved filename fileData st).
Proof. reflexivity. Qed.

(** What the loop of [extractSourceFilesFromMap] writes for index [i]:
    nothing, or the file name and the record built from [sources[i]]
    and [sourcesContent[i]]. *)
Definition written (srcs conts : list (option jsstring)) (i : nat)
  : option (jsstring * FileData) :=
  match mjoin (srcs !! i), mjoin (conts !! i) with
  | Some p, Some c =>
      if Downloader.shouldExtractSource (Some p) (Some c)
      then Some (lit "src/" ++ Downloader.cleanSourcePath p,
                 mkFileData (Text c) (length c) (lit "source") None None (Some p))
      else None
  | _, _ => None
  end.

Definition writes (srcs conts : list (option jsstring))
  : list (jsstring * FileData) :=
  omap (written srcs conts) (seq 0 (length srcs)).

Definition savedAll (ws : list (jsstring * FileData)) (st : Session) : Session :=
  foldl (λ st w, saved w.1 w.2 st) st ws.

Lemma shouldExtractSource_None_l c : Downloader.shouldExtractSource None c = false.
Proof. by destruct c. Qed.

Lemma shouldExtractSource_None_r p : Downloader.shouldExtractSource p None = false.
Proof. by destruct p. Qed.

Lemma extractEntry_run srcs conts n i st :
  Downloader.extractEntry srcs conts n i st =
  match written srcs conts i with
  | Some w => (Ok (S n), saved w.1 w.2 st)
  | None => (Ok n, st)
  end.
Proof.
  unfold Downloader.extractEntry, written.
  destruct (mjoin (srcs !! i)) as [p|]; cbn zeta.
  2:{ by rewrite shouldExtractSource_None_l. }
  destruct (mjoin (conts !! i)) as [c|].
  2:{ by rewrite shouldExtractSource_None_r. }
  by destruct (Downloader.shouldExtractSource (Some p) (Some c)).
Qed.

Lemma extract_loop srcs conts (idx : list nat) n st :
  foldM (Downloader.extractEntry srcs conts) n idx st
  = (Ok (n + length (omap (written srcs conts) idx)),
     savedAll (omap (written srcs conts) idx) st).
Proof.
  revert n st. induction idx as [|i idx IH]; intros n st.
  - cbn. by rewrite Nat.add_0_r.
  - cbn [foldM omap list_omap]. unfold bind. rewrite extractEntry_run.
    destruct (written srcs conts i) as [w|].
    + rewrite IH. cbn [length savedAll foldl]. f_equal. f_equal. lia.
    + apply IH.
Qed.

Lemma extractSourceFilesFromMap_run mapContent jsFilename sm srcs conts st :
  JSON_parse env mapContent = Ok sm →
  sources sm = Some srcs → sourcesContent sm = Some conts →
  Downloader.extractSourceFilesFromMap env mapContent jsFilename st
  = (Ok (length (writes srcs conts)), savedAll (writes srcs conts) st).
Proof.
  intros Hp Hs Hc. unfold Downloader.extractSourceFilesFromMap, try_catch.
  unfold bind at 1, liftR. rewrite Hp, Hs, Hc.
  by rewrite extract_loop.
Qed.

Lemma elem_of_writes srcs conts k v :
  (k, v) ∈ writes srcs conts ↔
  ∃ i p c, srcs !! i = Some (Some p) ∧ conts !! i = Some (Some c)
           ∧ Downloader.shouldExtractSource (Some p) (Some c) = true
           ∧ k = lit "src/" ++ Downloader.cleanSourcePath p
           ∧ v = mkFileData (Text c) (length c) (lit "source") None None (Some p).
Proof.
  unfold writes. rewrite list_elem_of_omap. split.
  - intros (i & _ & Hw). unfold written in Hw.
    destruct (srcs !! i) as [[p|]|] eqn:Hp; try done.
    destruct (conts !! i) as [[c|]|] eqn:Hc; try done.
    cbn [mjoin option_join] in Hw.
    destruct (Downloader.shouldExtractSource (Some p) (Some c)) eqn:Hk; [|done].
    injection Hw as <- <-. exists i, p, c. done.
  - intros (i & p & c & Hp & Hc & Hk & -> & ->). exists i. split.
    + apply elem_of_seq. apply lookup_lt_Some in Hp. lia.
    + unfold written. rewrite Hp, Hc. cbn [mjoin option_join]. by rewrite Hk.
Qed.

End Extraction.

(** C4.  When the map parses and both arrays are present,
    [extractSourceFilesFromMap] saves, in index order, one file per
    index [i] that passes [shouldExtractSource], built from [sources[i]]
    and [sourcesContent[i]] together, and returns their number.  For
    [sources = ["a.js","b.js"]] and [sourcesContent = ["X","Y"]] these
    are exactly two files: [src/a.js] with content [X], then [src/b.js]
    with content [Y]. *)
Theorem C4_positional_extraction env mapContent jsFilename sm srcs conts st :
  JSON_parse env mapContent = Ok sm →
  sources sm = Some srcs → sourcesContent sm = Some conts →
  Downloader.extractSourceFilesFromMap env mapContent jsFilename st
    = (Ok (length (writes srcs conts)), savedAll (writes srcs conts) st)
  ∧ (∀ k v, (k, v) ∈ writes srcs conts ↔
       ∃ i p c, srcs !! i = Some (Some p) ∧ conts !! i = Some (Some c)
                ∧ Downloader.shouldExtractSource (Some p) (Some c) = true
                ∧ k = lit "src/" ++ Downloader.cleanSourcePath p
                ∧ v = mkFileData (Text c) (length c) (lit "source")
                                 None None (Some p))
  ∧ writes [Some (lit "a.js"); Some (lit "b.js")] [Some (lit "X"); Some (lit "Y")]
    = [ (lit "src/a.js",
         mkFileData (Text (lit "X")) 1 (lit "source") None None (Some (lit "a.js")));
        (lit "src/b.js",
         mkFileData (Text (lit "Y")) 1 (lit "source") None None (Some (lit "b.js"))) ].
Proof.
  intros Hp Hs Hc. split_and!.
  - by eapply extractSourceFilesFromMap_run.
  - apply elem_of_writes.
  - reflexivity.
Qed.

(** ** The catalog (claim C1) *)

Section MapFacts.

Context {V : Type}.
Implicit Types (m : JSMap V) (k : jsstring) (v : V).

Lemma eqb_eq (s t : jsstring) : JS.eqb s t = true ↔ s = t.
Proof. unfold JS.eqb. apply bool_decide_eq_true. Qed.

Lemma eqb_refl (s : jsstring) : JS.eqb s s = true.
Proof. by apply eqb_eq. Qed.

Lemma eqb_ne (s t : jsstring) : s ≠ t → JS.eqb s t = false.
Proof. intros. unfold JS.eqb. by apply bool_decide_eq_false. Qed.

Lemma Map_get_set_eq m k v : Map_get (Map_set m k v) k = Some v.
Proof.
  induction m as [|[k' v'] m IH]; cbn [Map_set Map_get].
  - by rewrite eqb_refl.
  - destruct (JS.eqb k' k) eqn:E; cbn [Map_get]; rewrite E; [done|apply IH].
Qed.

Lemma Map_get_set_ne m k k' v :
  k ≠ k' → Map_get (Map_set m k v) k' = Map_get m k'.
Proof.
  intros Hne. induction m as [|[k0 v0] m IH]; cbn [Map_set Map_get].
  - by rewrite eqb_ne.
  - destruct (JS.eqb k0 k) eqn:E; cbn [Map_get]; [|by rewrite IH].
    apply eqb_eq in E as ->. by rewrite eqb_ne.
Qed.

Lemma Map_has_keys m k : Map_has m k = true ↔ k ∈ Map_keys m.
Proof.
  unfold Map_has, Map_keys. induction m as [|[k' v'] m IH]; cbn [Map_get fmap list_fmap].
  - split; [done|]. by intros ?%elem_of_nil.
  - rewrite elem_of_cons. cbn [fst]. destruct (JS.eqb k' k) eqn:E.
    + apply eqb_eq in E. split; auto.
    + rewrite IH. apply bool_decide_eq_false in E. split; [auto|].
      intros [->|]; [done|auto].
Qed.

Lemma Map_has_false_keys m k : Map_has m k = false ↔ k ∉ Map_keys m.
Proof. rewrite <- Map_has_keys. by destruct (Map_has m k). Qed.

(** Setting a key that is present replaces its value in place. *)
Lemma Map_keys_set_present m k v :
  Map_has m k = true → Map_keys (Map_set m k v) = Map_keys m.
Proof.
  unfold Map_has, Map_keys.
  induction m as [|[k' v'] m IH]; cbn [Map_get Map_set fmap list_fmap]; [done|].
  destruct (JS.eqb k' k); [done|]. intros H. cbn [fmap list_fmap]. f_equal. by apply IH.
Qed.

(** Setting a new key appends it. *)
Lemma Map_set_absent m k v :
  Map_has m k = false → Map_set m k v = m ++ [(k, v)].
Proof.
  unfold Map_has.
  induction m as [|[k' v'] m IH]; cbn [Map_get Map_set]; [done|].
  destruct (JS.eqb k' k); [done|]. intros H. cbn [app]. f_equal. by apply IH.
Qed.

Lemma NoDup_keys_set m k v : NoDup (Map_keys m) → NoDup (Map_keys (Map_set m k v)).
Proof.
  intros Hm. destruct (Map_has m k) eqn:E.
  - by rewrite Map_keys_set_present.
  - rewrite Map_set_absent by done. unfold Map_keys. rewrite fmap_app.
    apply NoDup_app. split_and!; [done| |apply NoDup_singleton].
    intros x Hx ->%list_elem_of_singleton. by apply Map_has_false_keys in E.
Qed.

End MapFacts.

(** *** The renaming loop of [extractSourceFilesAdvanced] *)

Section FreeName.

Context (files : JSMap FileData) (sourceFilename : jsstring).

(** The [counter]-th candidate of the loop. *)
Definition candidate (counter : nat) : jsstring :=
  replaceStr sourceFilename (Advanced.getFileExtension sourceFilename) []
  ++ lit "_" ++ ofNat counter ++ Advanced.getFileExtension sourceFilename.

Lemma candidate_inj k1 k2 : candidate k1 = candidate k2 → k1 = k2.
Proof.
  unfold candidate. intros H.
  apply app_inv_head, app_inv_head, app_inv_tail in H. by apply ofNat_inj.
Qed.

Lemma findFreeName_Some fuel current counter r :
  Advanced.findFreeName fuel files sourceFilename current counter = Some r →
  Map_has files r = false
  ∧ ((r = current)
     ∨ Map_has files current = true
       ∧ ∃ k, counter ≤ k < counter + fuel ∧ r = candidate k
              ∧ ∀ j, counter ≤ j < k → Map_has files (candidate j) = true).
Proof.
  revert current counter. induction fuel as [|fuel IH]; intros current counter;
    cbn [Advanced.findFreeName].
  - destruct (Map_has files current) eqn:E; cbn [negb]; [done|].
    intros [= ->]. auto.
  - destruct (Map_has files current) eqn:E; cbn [negb].
    2:{ intros [= ->]. auto. }
    intros H. apply IH in H as [Hfree Hr]. split; [done|]. right. split; [done|].
    fold (candidate counter) in Hr. destruct Hr as [->|(Hc & k & Hk & -> & Hall)].
    + exists counter. split; [lia|]. split; [reflexivity|]. intros j Hj. lia.
    + exists k. split; [lia|]. split; [reflexivity|]. intros j Hj.
      destruct (decide (j = counter)) as [->|]; [exact Hc|]. apply Hall. lia.
Qed.

Lemma findFreeName_None fuel current counter :
  Advanced.findFreeName fuel files sourceFilename current counter = None →
  ∀ k, counter ≤ k < counter + fuel → Map_has files (candidate k) = true.
Proof.
  revert current counter. induction fuel as [|fuel IH]; intros current counter;
    cbn [Advanced.findFreeName].
  - intros _ k Hk. lia.
  - destruct (Map_has files current) eqn:E; cbn [negb]; [|done].
    intros H k Hk. destruct (decide (k = counter)) as [->|].
    + destruct fuel; cbn [Advanced.findFreeName] in H;
        fold (candidate counter) in H;
        by destruct (Map_has files (candidate counter)).
    + eapply IH; [done|lia].
Qed.

(** The loop ends: the candidates are pairwise distinct, and the map
    has fewer keys than the loop has turns. *)
Lemma findFreeName_terminates current counter :
  is_Some (Advanced.findFreeName (S (length files)) files sourceFilename
                                 current counter).
Proof.
  destruct (Advanced.findFreeName _ _ _ _ _) eqn:E; [done|exfalso].
  pose proof (findFreeName_None _ _ _ E) as Hall.
  assert (candidate <$> seq counter (S (length files)) ⊆+ Map_keys files) as Hsub.
  { apply NoDup_submseteq.
    - apply NoDup_fmap_2; [intros ??; apply candidate_inj|apply NoDup_seq].
    - intros x (k & -> & Hk%elem_of_seq)%list_elem_of_fmap.
      apply Map_has_keys, Hall. lia. }
  apply submseteq_length in Hsub.
  rewrite length_fmap, length_seq in Hsub. unfold Map_keys in Hsub.
  rewrite length_fmap in Hsub. lia.
Qed.

(** The name chosen is not in the map; it is the requested name when
    that is free, and otherwise the first free candidate. *)
Lemma finalSourceFilename_spec :
  let final := Advanced.finalSourceFilename files sourceFilename in
  Map_has files final = false
  ∧ (Map_has files sourceFilename = false → final = sourceFilename)
  ∧ (Map_has files sourceFilename = true →
       ∃ k, 1 ≤ k ∧ final = candidate k
            ∧ ∀ j, 1 ≤ j < k → Map_has files (candidate j) = true).
Proof.
  unfold Advanced.finalSourceFilename.
  destruct (findFreeName_terminates sourceFilename 1) as [r Hr]. rewrite Hr.
  cbn [default]. apply findFreeName_Some in Hr as [Hfree Hr].
  split_and!; [done| |].
  - intros Hs. destruct Hr as [->|[Hc _]]; [done|congruence].
  - intros Hs. destruct Hr as [->|(_ & k & Hk & -> & Hall)]; [congruence|].
    exists k. split; [lia|]. by split.
Qed.

End FreeName.

(** The state after the renaming insertion of the embedded branch. *)
Lemma set_final_preserves files sourceFilename fileData k v :
  Map_get files k = Some v →
  Map_get (Map_set files (Advanced.finalSourceFilename files sourceFilename)
                   fileData) k = Some v.
Proof.
  intros Hk. rewrite Map_get_set_ne; [done|]. intros <-.
  pose proof (finalSourceFilename_spec files sourceFilename) as [Hfree _].
  unfold Map_has in Hfree. by rewrite Hk in Hfree.
Qed.

(** The suffix does not always go before the extension: the base is
    the name with the first occurrence of the extension removed. *)
Example finalSourceFilename_first_occurrence :
  let taken := mkFileData (Text (lit "x")) 1 (lit "source") None None None in
  Advanced.finalSourceFilename [(lit "sources/lib.js/index.js", taken)]
                               (lit "sources/lib.js/index.js")
  = lit "sources/lib/index.js_1.js".
Proof. vm_compute. reflexivity. Qed.

(** C1 fails on [saveFile], the insertion of the refactored class:
    when the key is present the incoming record replaces the stored
    one under the same key, no renamed key appears, and the counter of
    files still goes up.  (The renaming loop exists only in the
    embedded branch of [extractSourceFilesAdvanced]; see
    [finalSourceFilename_spec].) *)
Theorem C1_saveFile_overwrites filename fileData st :
  Map_has (downloadedFiles st) filename = true →
  let st' := exec (Downloader.saveFile filename fileData) st in
  Map_get (downloadedFiles st') filename = Some fileData
  ∧ Map_keys (downloadedFiles st') = Map_keys (downloadedFiles st)
  ∧ totalFiles (stats st') = S (totalFiles (stats st)).
Proof.
  intros Hhas. cbn zeta. unfold exec. rewrite saveFile_run. cbn [snd].
  unfold saved. cbn [downloadedFiles set_stats set_files stats].
  split_and!.
  - apply Map_get_set_eq.
  - by apply Map_keys_set_present.
  - unfold Downloader.bumpStats.
    repeat (match goal with |- context [if ?b then _ else _] => destruct b end);
      reflexivity.
Qed.

(** ** The network fetcher (claims C2 and C10) *)

Section Fetcher.

Context (env : Env).

(** The state once a request to [u] has settled. *)
Definition awaited (u : jsstring) (st : Session) : Session :=
  let st1 := add_request u st in
  if stopClicked env (length (requests st)) then set_flag false st1 else st1.

Lemma requests_awaited u st : requests (awaited u st) = requests st ++ [u].
Proof. unfold awaited. by destruct (stopClicked env _). Qed.

Lemma downloadedFiles_awaited u st :
  downloadedFiles (awaited u st) = downloadedFiles st.
Proof. unfold awaited. by destruct (stopClicked env _). Qed.

Lemma downloadedUrls_awaited u st :
  downloadedUrls (awaited u st) = downloadedUrls st.
Proof. unfold awaited. by destruct (stopClicked env _). Qed.

Lemma platformFetch_run u st :
  Downloader.platformFetch env u st =
  (match fetch env (length (requests st)) u with
   | Rejected message => Throw message
   | Responded r => Ok r
   end, awaited u st).
Proof.
  unfold Downloader.platformFetch, awaitFetch, awaited.
  by destruct (fetch env _ u), (stopClicked env _).
Qed.

(** The direct response, when the direct request yields one with an
    ok status. *)
Definition directOk (url : jsstring) (st : Session) : option PlatformResponse :=
  match fetch env (length (requests st)) url with
  | Responded r => if p_ok r then Some r else None
  | Rejected _ => None
  end.

Definition proxyPrefix : jsstring := lit "https://api.allorigins.win/get?url=".
Definition bothFailed : jsstring :=
  lit "Both direct fetch and CORS proxy failed: ".

(** The outcome of the fallback, from the state [st1] reached when the
    direct request has settled. *)
Definition relayOutcome (url : jsstring) (st1 : Session)
  : Result Response * Session :=
  match encodeURIComponent env url with
  | Throw m => (Throw (bothFailed ++ m), st1)
  | Ok encoded =>
      let proxyUrl := proxyPrefix ++ encoded in
      (match fetch env (length (requests st1)) proxyUrl with
       | Rejected m => Throw (bothFailed ++ m)
       | Responded r =>
           if p_ok r then
             match p_contents r with
             | Ok contents => Ok (Downloader.relayResponse env contents)
             | Throw m => Throw (bothFailed ++ m)
             end
           else Throw (bothFailed ++ lit "Proxy returned " ++ ofNat (p_status r))
       end, awaited proxyUrl st1)
  end.

Lemma fetchWithCORS_run url st :
  Downloader.fetchWithCORS env url st =
  match directOk url st with
  | Some r => (Ok (ofPlatform r), awaited url st)
  | None => relayOutcome url (awaited url st)
  end.
Proof.
  unfold Downloader.fetchWithCORS, directOk, relayOutcome.
  unfold bind at 1, try_catch at 1, bind at 1. rewrite platformFetch_run.
  destruct (fetch env (length (requests st)) url) as [m|r]; cbn [ret].
  2: destruct (p_ok r); [reflexivity|].
  all: unfold try_catch, bind at 1, liftR;
    destruct (encodeURIComponent env url) as [e|m']; [|reflexivity];
    unfold bind at 1; rewrite platformFetch_run;
    destruct (fetch env _ (_ ++ e)) as [m2|r2]; [reflexivity|];
    destruct (p_ok r2); cbn [negb]; [|reflexivity];
    unfold bind; by destruct (p_contents r2).
Qed.



(** [generateFilename] reads the clock at most, and always returns. *)
Lemma generateFilename_run url contentType st :
  ∃ filename,
    Downloader.generateFilename env url contentType st = (Ok filename, st).
Proof.
  unfold Downloader.generateFilename, Downloader.resourceBin, gets, ret.
  destruct (URL_new env url None) as [urlObj|]; [|eauto].
  repeat (match goal with |- context [if ?b then _ else _] => destruct b end);
    eauto.
Qed.

(** [downloadSingleResource] on a URL not yet visited: the outcome from
    the response that [fetchWithCORS] hands back. *)
Lemma downloadSingleResource_run url st :
  Set_has (downloadedUrls st) url = false →
  ∃ filename,
  Downloader.downloadSingleResource env url st =
  match Downloader.fetchWithCORS env url st with
  | (Throw m, st1) =>
      (Throw (lit "Failed to download " ++ url ++ lit ": " ++ m), st1)
  | (Ok response, st1) =>
      let contentType := Downloader.getContentType response in
      match Downloader.getResponseContent response contentType with
      | Throw m =>
          (Throw (lit "Failed to download " ++ url ++ lit ": " ++ m), st1)
      | Ok None =>
          (Throw (lit "Failed to download " ++ url ++ lit ": " ++ typeErrorMessage),
           st1)
      | Ok (Some content) =>
          (Ok tt,
           set_urls (λ urls, Set_add urls url)
             (saved (filename st1 contentType)
                (mkFileData content
                   (match content with Text s => length s | Binary b => length b end)
                   (Downloader.determineFileType env (filename st1 contentType)
                                                 contentType)
                   (Some url) (Some contentType) None) st1))
      end
  end.
Proof.
  intros Hnew.
  exists (λ st1 ct, match Downloader.generateFilename env url ct st1 with
                    | (Ok f, _) => f | (Throw _, _) => [] end).
  unfold Downloader.downloadSingleResource. unfold bind at 1, gets at 1.
  rewrite Hnew. unfold try_catch, bind at 1.
  destruct (Downloader.fetchWithCORS env url st) as [[response|m] st1]; [|done].
  cbn zeta. unfold bind at 1, liftR at 1.
  destruct (Downloader.getResponseContent _ _) as [content|m]; [|done].
  unfold bind at 1.
  destruct (generateFilename_run url (Downloader.getContentType response) st1)
    as [f Hf]. rewrite Hf.
  unfold bind at 1, liftR.
  destruct content as [[s|b]|]; cbn [Downloader.getContentSize]; try done.
Qed.

End Fetcher.

(** ** A small world

    A concrete platform on which the theorems that carry hypotheses
    are instantiated, and on which the counterexamples run: one site,
    [https://x.test/], with a page, a script behind a source map, and a
    path that answers 404 while the relay can reach it. *)

Module Demo.

(** [q s] is [s] between double quotes. *)
Definition q (s : string) : jsstring := [34%N] ++ lit s ++ [34%N].

Definition schemeOf (u : jsstring) : option jsstring :=
  if startsWith u (lit "https://") then Some (lit "https://")
  else if startsWith u (lit "http://") then Some (lit "http://")
  else None.

Fixpoint upTo (c : N) (s : jsstring) : jsstring :=
  match s with
  | [] => []
  | x :: r => if N.eqb x c then [] else x :: upTo c r
  end.

(** An absolute [http(s)] URL is taken as it stands. *)
Definition parseAbsolute (u : jsstring) : option URL :=
  match schemeOf u with
  | None => None
  | Some scheme =>
      let rest := drop (length scheme) u in
      let host := upTo 47 rest in
      let pathAndQuery := drop (length host) rest in
      let path := upTo 63 pathAndQuery in
      Some (mkURL u (take (length scheme - 2) scheme) host path
                  (drop (length path) pathAndQuery))
  end.

(** The path up to its last [/]. *)
Fixpoint afterSlash (s : jsstring) : jsstring :=
  match s with
  | [] => []
  | x :: r => if N.eqb x 47 then s else afterSlash r
  end.

Definition dirOf (path : jsstring) : jsstring :=
  reverse (afterSlash (reverse path)).

(** A reference that starts with [/] is resolved against the origin of
    the base, any other against the directory of the base (dot
    segments are not treated). *)
Definition URL_new (u : jsstring) (base : option jsstring) : option URL :=
  match parseAbsolute u with
  | Some r => Some r
  | None =>
      match base ≫= parseAbsolute with
      | Some b =>
          if startsWith u (lit "/")
          then parseAbsolute (protocol b ++ lit "//" ++ host b ++ u)
          else parseAbsolute (protocol b ++ lit "//" ++ host b
                                ++ dirOf (pathname b) ++ u)
      | None => None
      end
  end.

Definition root : jsstring := lit "https://x.test/".

(** The document of claim C8. *)
Definition html : jsstring :=
  lit "<script src=" ++ q "/a.js" ++ lit "></script><link rel="
  ++ q "stylesheet" ++ lit " href=" ++ q "/b.css" ++ lit ">".

(** Its tree: the parser supplies [html], [head] and [body]. *)
Definition page : Document :=
  [ mkElement (lit "html") [];
    mkElement (lit "head") [];
    mkElement (lit "script") [(lit "src", lit "/a.js")];
    mkElement (lit "link") [(lit "rel", lit "stylesheet"); (lit "href", lit "/b.css")];
    mkElement (lit "body") [] ].

Definition DOMParser_parse (text : jsstring) : Document :=
  if JS.eqb text html then page else [].

(** Two source maps: one with embedded contents, one without. *)
Definition embeddedMap : jsstring :=
  lit "{" ++ q "sources" ++ lit ":[" ++ q "a.js" ++ lit "," ++ q "b.js"
  ++ lit "]," ++ q "sourcesContent" ++ lit ":[" ++ q "X" ++ lit "," ++ q "Y"
  ++ lit "]}".

Definition bareMap : jsstring :=
  lit "{" ++ q "sources" ++ lit ":[" ++ q "b.js" ++ lit "," ++ q "a.js" ++ lit "]}".

(** A map whose two entries the specification counts as noise. *)
Definition noisyMap : jsstring :=
  lit "{" ++ q "sources" ++ lit ":[" ++ q "a" ++ lit ","
  ++ q "webpack-dev-server/client.js" ++ lit "]," ++ q "sourcesContent"
  ++ lit ":[" ++ q "X" ++ lit "," ++ q "Y" ++ lit "]}".

Definition JSON_parse (text : jsstring) : Result SourceMap :=
  if JS.eqb text noisyMap then
    Ok (mkSourceMap (Some [Some (lit "a"); Some (lit "webpack-dev-server/client.js")])
                    (Some [Some (lit "X"); Some (lit "Y")]) None)
  else if JS.eqb text embeddedMap then
    Ok (mkSourceMap (Some [Some (lit "a.js"); Some (lit "b.js")])
                    (Some [Some (lit "X"); Some (lit "Y")]) None)
  else if JS.eqb text bareMap then
    Ok (mkSourceMap (Some [Some (lit "b.js"); Some (lit "a.js")]) None None)
  else Throw (lit "SyntaxError").

Definition javascript : list (jsstring * jsstring) :=
  [(lit "content-type", lit "application/javascript")].

(** The network: [a.js] and the page [docs/] are served, [b.js]
    fails, [gone.png] answers 404 directly and is served by the
    relay. *)
Definition fetch (n : nat) (u : jsstring) : FetchOutcome :=
  if JS.eqb u (lit "https://x.test/a.js") then
    Responded (mkPlatformResponse true 200 javascript (Ok (lit "let a;"))
                 (Some [108; 101; 116; 32; 97; 59]%N) (Throw (lit "SyntaxError")))
  else if JS.eqb u (lit "https://x.test/docs/") then
    Responded (mkPlatformResponse true 200 [(lit "content-type", lit "text/html")]
                 (Ok (lit "<p>docs</p>")) None (Throw (lit "SyntaxError")))
  else if JS.eqb u (lit "https://x.test/gone.png") then
    Responded (mkPlatformResponse false 404 [(lit "content-type", lit "text/html")]
                 (Ok (lit "Not Found")) None (Throw (lit "SyntaxError")))
  else if JS.eqb u (lit "https://api.allorigins.win/get?url=https://x.test/gone.png")
  then
    Responded (mkPlatformResponse true 200
                 [(lit "content-type", lit "application/json")] (Ok []) None
                 (Ok (Some (lit "PNG"))))
  else Rejected (lit "Failed to fetch").

(** The encoder is the identity here, and the byte encoder keeps the
    code units. *)
Definition env : Env :=
  mkEnv fetch (λ _, false) (λ _, 0) Ok id (default [])
        URL_new JSON_parse DOMParser_parse.

(** The same world with the stop button pressed during request [n]. *)
Definition envStoppedAt (n : nat) : Env :=
  mkEnv fetch (λ k, bool_decide (k = n)) (λ _, 0) Ok id (default [])
        URL_new JSON_parse DOMParser_parse.

Definition noStats : Stats := mkStats 0 0 0 0 0 0.

(** A session that has just started. *)
Definition fresh : Session := mkSession [] [] true noStats [].

Definition mainPage : FileData :=
  mkFileData (Text html) (length html) (lit "html") (Some root)
             (Some (lit "text/html")) None.

Definition bundle : FileData :=
  mkFileData (Text (lit "let app;")) 8 (lit "script")
             (Some (lit "https://x.test/app.js"))
             (Some (lit "application/javascript")) None.

(** A session that holds the script [app.js]. *)
Definition withScript : Session :=
  mkSession [(lit "app.js", bundle)] [lit "https://x.test/app.js"] true
            (mkStats 1 0 1 0 0 8) [lit "https://x.test/app.js"].

(** A session that holds the main page. *)
Definition withPage : Session :=
  mkSession [(lit "index.html", mainPage)] [] true (mkStats 1 0 0 0 0 (length html))
            [root].

End Demo.

(** A second world, for the filters: a map whose one source is the
    path of claim C5, a map that names three noise paths without their
    contents, and a network that serves every URL. *)

Module Webpack.

Definition embeddedMap : jsstring :=
  lit "{" ++ Demo.q "sources" ++ lit ":[" ++ Demo.q "webpack:///./src/app.js"
  ++ lit "]," ++ Demo.q "sourcesContent" ++ lit ":[" ++ Demo.q "X" ++ lit "]}".

Definition noisePaths : list jsstring :=
  [ lit "a"; lit "webpack-dev-server/client.js"; lit "__webpack_require__.js" ].

Definition bareMap : jsstring :=
  lit "{" ++ Demo.q "sources" ++ lit ":[" ++ Demo.q "a" ++ lit ","
  ++ Demo.q "webpack-dev-server/client.js" ++ lit ","
  ++ Demo.q "__webpack_require__.js" ++ lit "]}".

Definition JSON_parse (text : jsstring) : Result SourceMap :=
  if JS.eqb text embeddedMap then
    Ok (mkSourceMap (Some [Some webpackPath]) (Some [Some (lit "X")]) None)
  else if JS.eqb text bareMap then
    Ok (mkSourceMap (Some (Some <$> noisePaths)) None None)
  else Throw (lit "SyntaxError").

Definition fetch (n : nat) (u : jsstring) : FetchOutcome :=
  Responded (mkPlatformResponse true 200 Demo.javascript (Ok (lit "S"))
               (Some (lit "S")) (Throw (lit "SyntaxError"))).

Definition env : Env :=
  mkEnv fetch (λ _, false) (λ _, 0) Ok id (default [])
        Demo.URL_new JSON_parse Demo.DOMParser_parse.

End Webpack.

(** The entry of claim C5 in both variants: the refactored class
    refuses it, the older one stores it. *)
Example webpack_source_run :
  Downloader.extractSourceFilesFromMap Webpack.env Webpack.embeddedMap (lit "app.js")
    Demo.withScript
  = (Ok 0, Demo.withScript)
  ∧ eval (Advanced.extractSourceFilesAdvanced Webpack.env Webpack.embeddedMap
            (lit "app.js")) Demo.withScript = Ok 1
  ∧ Map_keys (downloadedFiles
                (exec (Advanced.extractSourceFilesAdvanced Webpack.env
                         Webpack.embeddedMap (lit "app.js")) Demo.withScript))
    = [lit "app.js"; lit "sources/src/app.js"].
Proof. vm_compute. split_and!; reflexivity. Qed.

(** The three noise paths in the fetched branch of the older variant:
    each cleaned path is noise for the specification, each is fetched
    and stored. *)
Example fetched_noise_run :
  let st' := exec (Advanced.extractSourceFilesAdvanced Webpack.env Webpack.bareMap
                     (lit "app.js")) Demo.withScript in
  forallb (λ p, Spec.noise (Advanced.cleanPathOf p)) Webpack.noisePaths = true
  ∧ eval (Advanced.extractSourceFilesAdvanced Webpack.env Webpack.bareMap
            (lit "app.js")) Demo.withScript = Ok 3
  ∧ Map_keys (downloadedFiles st')
    = [ lit "app.js"; lit "sources/a"; lit "sources/webpack-dev-server/client.js";
        lit "sources/__webpack_require__.js" ].
Proof. vm_compute. split_and!; reflexivity. Qed.

Lemma C1_saveFile_overwrites_witness :
  let incoming := mkFileData (Text (lit "other")) 5 (lit "html")
                    (Some (lit "https://x.test/docs/")) (Some (lit "text/html")) None in
  let st' := exec (Downloader.saveFile (lit "index.html") incoming) Demo.withPage in
  Map_get (downloadedFiles st') (lit "index.html") = Some incoming
  ∧ Map_keys (downloadedFiles st') = Map_keys (downloadedFiles Demo.withPage)
  ∧ totalFiles (stats st') = S (totalFiles (stats Demo.withPage)).
Proof.
  exact (C1_saveFile_overwrites (lit "index.html") _ Demo.withPage eq_refl).
Defined.

Lemma C4_positional_extraction_witness :
  Downloader.extractSourceFilesFromMap Demo.env Demo.embeddedMap (lit "a.js") Demo.fresh
  = (Ok 2,
     savedAll
       [ (lit "src/a.js",
          mkFileData (Text (lit "X")) 1 (lit "source") None None (Some (lit "a.js")));
         (lit "src/b.js",
          mkFileData (Text (lit "Y")) 1 (lit "source") None None (Some (lit "b.js"))) ]
       Demo.fresh).
Proof.
  exact (proj1 (C4_positional_extraction Demo.env Demo.embeddedMap (lit "a.js")
                  _ _ _ Demo.fresh eq_refl eq_refl eq_refl)).
Defined.

Section FetcherClaims.

Context (env : Env).





End FetcherClaims.





(** ** Cancellation (claim C9) *)

Section Cancellation.

Context (env : Env).

Lemma stopDownload_run st : Downloader.stopDownload st = (Ok tt, set_flag false st).
Proof. reflexivity. Qed.

(** A loop that checks the flag first does nothing once the flag is
    down. *)
Lemma forOf_stopped {A} (xs : list A) (unit : A → M unit) st :
  isDownloading st = false →
  forOf xs
    (λ x, do active <- gets isDownloading ;;
          if negb active then ret false
          else run try_catch (unit x) (λ _, ret tt) ;; ret true) st
  = (Ok tt, st).
Proof.
  intros Hflag. destruct xs as [|x xs]; [done|].
  cbn [forOf]. unfold bind at 1, bind at 1, gets. by rewrite Hflag.
Qed.

(** With the flag up, the loop runs the unit for the first element and
    goes on from the state the unit leaves, whatever its outcome. *)
Lemma forOf_step {A} (x : A) (xs : list A) (unit : A → M unit) st :
  isDownloading st = true →
  forOf (x :: xs)
    (λ x, do active <- gets isDownloading ;;
          if negb active then ret false
          else run try_catch (unit x) (λ _, ret tt) ;; ret true) st
  = forOf xs
      (λ x, do active <- gets isDownloading ;;
            if negb active then ret false
            else run try_catch (unit x) (λ _, ret tt) ;; ret true)
      (exec (unit x) st).
Proof.
  intros Hflag. cbn [forOf]. unfold bind at 1, bind at 1, gets. rewrite Hflag.
  cbn [negb]. unfold bind at 1, try_catch, exec.
  by destruct (unit x st) as [[[]|m] st1].
Qed.

(** A loop whose body breaks at once leaves the state as it is. *)
Lemma forOf_break {A} (xs : list A) (body : A → M bool) st :
  (∀ x, body x st = (Ok false, st)) → forOf xs body st = (Ok tt, st).
Proof.
  intros Hbody. destruct xs as [|x xs]; [done|].
  cbn [forOf]. unfold bind. by rewrite Hbody.
Qed.

Lemma downloadStaticResources_stopped urls st :
  isDownloading st = false →
  Downloader.downloadStaticResources env urls st = (Ok tt, st).
Proof. apply forOf_stopped. Qed.

Lemma processSourceMaps_stopped st :
  isDownloading st = false → Downloader.processSourceMaps env st = (Ok tt, st).
Proof.
  intros Hflag. unfold Downloader.processSourceMaps, Downloader.getJavaScriptFiles.
  unfold bind at 1, gets at 1. apply forOf_break. intros entry.
  unfold bind at 1, gets at 1. by rewrite Hflag.
Qed.

Lemma findDynamicResources_stopped st :
  isDownloading st = false → Downloader.findDynamicResources env st = (Ok tt, st).
Proof.
  intros Hflag. unfold Downloader.findDynamicResources.
  unfold bind at 1, Downloader.extractEndpointsFromCode, gets at 1.
  by apply forOf_stopped.
Qed.

(** The stop button was pressed while a request issued between [st]
    and [st'] was pending. *)
Definition stoppedBetween (st st' : Session) : Prop :=
  ∃ n, length (requests st) ≤ n < length (requests st')
       ∧ stopClicked env n = true.

Lemma isDownloading_awaited_false u st :
  isDownloading st = false → isDownloading (awaited env u st) = false.
Proof. unfold awaited. by destruct (stopClicked env _). Qed.

Lemma isDownloading_awaited_clicked u st :
  stopClicked env (length (requests st)) = true →
  isDownloading (awaited env u st) = false.
Proof. unfold awaited. by intros ->. Qed.

(** [fetchWithCORS] leaves the catalog alone, issues one or two
    requests, and leaves the flag down when it was down or when stop
    was pressed during one of its requests. *)
Lemma fetchWithCORS_effect url st :
  let st' := (Downloader.fetchWithCORS env url st).2 in
  downloadedFiles st' = downloadedFiles st
  ∧ downloadedUrls st' = downloadedUrls st
  ∧ stats st' = stats st
  ∧ (isDownloading st = false ∨ stoppedBetween st st' →
     isDownloading st' = false).
Proof.
  cbn zeta. rewrite fetchWithCORS_run.
  assert (∀ u s, stats (awaited env u s) = stats s) as Hstats.
  { intros u s. unfold awaited. by destruct (stopClicked env _). }
  destruct (directOk env url st) as [r|]; cbn [snd].
  - rewrite downloadedFiles_awaited, downloadedUrls_awaited, Hstats.
    split_and!; try done. intros [Hf|(n & Hn & Hc)].
    + by apply isDownloading_awaited_false.
    + rewrite requests_awaited, length_app in Hn. cbn [length] in Hn.
      apply isDownloading_awaited_clicked. by replace (length (requests st)) with n by lia.
  - unfold relayOutcome. destruct (encodeURIComponent env url) as [e|m]; cbn [snd].
    + rewrite !downloadedFiles_awaited, !downloadedUrls_awaited, !Hstats.
      split_and!; try done. intros [Hf|(n & Hn & Hc)].
      * by do 2 apply isDownloading_awaited_false.
      * rewrite !requests_awaited, !length_app in Hn. cbn [length] in Hn.
        destruct (decide (n = length (requests st))) as [->|].
        -- by apply isDownloading_awaited_false, isDownloading_awaited_clicked.
        -- apply isDownloading_awaited_clicked.
           rewrite requests_awaited, length_app. cbn [length].
           by replace (length (requests st) + 1) with n by lia.
    + rewrite downloadedFiles_awaited, downloadedUrls_awaited, Hstats.
      split_and!; try done. intros [Hf|(n & Hn & Hc)].
      * by apply isDownloading_awaited_false.
      * rewrite requests_awaited, length_app in Hn. cbn [length] in Hn.
        apply isDownloading_awaited_clicked.
        by replace (length (requests st)) with n by lia.
Qed.

Lemma downloadSingleResource_seen url st :
  Set_has (downloadedUrls st) url = true →
  Downloader.downloadSingleResource env url st = (Ok tt, st).
Proof.
  intros Hseen. unfold Downloader.downloadSingleResource.
  unfold bind at 1. unfold gets at 1. by rewrite Hseen.
Qed.

(** The unit of work of the static and dynamic phases: it writes at
    most one name of the catalog, and a press of the stop button
    during it leaves the flag down. *)
Lemma downloadSingleResource_effect url st :
  let st' := exec (Downloader.downloadSingleResource env url) st in
  (∃ filename, ∀ k, k ≠ filename →
     Map_get (downloadedFiles st') k = Map_get (downloadedFiles st) k)
  ∧ (∀ k, Map_has (downloadedFiles st) k = true →
          Map_has (downloadedFiles st') k = true)
  ∧ (isDownloading st = false ∨ stoppedBetween st st' →
     isDownloading st' = false).
Proof.
  cbn zeta. unfold exec.
  destruct (Set_has (downloadedUrls st) url) eqn:Hseen.
  { rewrite downloadSingleResource_seen by done. cbn [snd].
    split_and!; [by exists []|done|].
    intros [?|(n & Hn & _)]; [done|lia]. }
  destruct (downloadSingleResource_run env url st Hseen) as [f ->].
  pose proof (fetchWithCORS_effect url st) as (Hfiles & _ & _ & Hflag).
  destruct (Downloader.fetchWithCORS env url st) as [[response|m] st1];
    cbn [snd] in *.
  2:{ rewrite Hfiles. split_and!; [by exists []|done|done]. }
  cbn zeta.
  destruct (Downloader.getResponseContent _ _) as [[content|]|]; cbn [snd].
  2,3: rewrite Hfiles; split_and!; [by exists []|done|done].
  cbn [downloadedFiles set_urls saved set_stats set_files isDownloading requests].
  rewrite Hfiles. split_and!.
  - eexists. intros k Hk. by apply Map_get_set_ne.
  - intros k Hk. unfold Map_has in *.
    destruct (decide (k = f st1 (Downloader.getContentType response))) as [->|Hne].
    + by rewrite Map_get_set_eq.
    + by rewrite Map_get_set_ne.
  - done.
Qed.

(** What cancellation does guarantee.  [stopDownload] lowers the flag
    and touches nothing else; every loop of the three phases, entered
    or resumed with the flag down, issues no request and changes
    nothing; and when stop is pressed during a unit of the static
    phase, the loop ends with that unit: the later URLs are never
    requested. *)
Lemma cancellation_is_cooperative :
  (∀ st, exec Downloader.stopDownload st = set_flag false st)
  ∧ (∀ st, isDownloading st = false →
       (∀ urls, Downloader.downloadStaticResources env urls st = (Ok tt, st))
       ∧ Downloader.processSourceMaps env st = (Ok tt, st)
       ∧ Downloader.findDynamicResources env st = (Ok tt, st))
  ∧ (∀ st url urls,
       isDownloading st = true →
       stoppedBetween st (exec (Downloader.downloadSingleResource env url) st) →
       Downloader.downloadStaticResources env (url :: urls) st
       = (Ok tt, exec (Downloader.downloadSingleResource env url) st)).
Proof.
  split_and!.
  - done.
  - intros st Hflag. split_and!.
    + intros urls. by apply downloadStaticResources_stopped.
    + by apply processSourceMaps_stopped.
    + by apply findDynamicResources_stopped.
  - intros st url urls Hflag Hstop.
    unfold Downloader.downloadStaticResources. rewrite forOf_step by done.
    apply forOf_stopped.
    by apply (downloadSingleResource_effect url st); right.
Qed.

End Cancellation.

(** C9 holds for the loops and fails for the catalog, through the
    insertion of C1.  In general: when stop is pressed during a unit of
    the static phase, the loop ends with that unit, the flag is down,
    every name of the catalog is still present, and every record is
    unchanged except possibly the one under the single name the unit
    in flight writes.  That exception is real: the session holds the
    main page under [index.html]; the static phase is at work on
    [https://x.test/docs/] when stop is pressed.  The loop does end
    there ([a.js] is never requested), but the unit in flight completes
    and saves its page under [index.html] as well: the record that was
    in the catalog at the moment of cancellation is replaced. *)
Theorem C9_stop_midflight_overwrites :
  (∀ env st url urls,
     isDownloading st = true →
     let st1 := exec (Downloader.downloadSingleResource env url) st in
     stoppedBetween env st st1 →
     Downloader.downloadStaticResources env (url :: urls) st = (Ok tt, st1)
     ∧ isDownloading st1 = false
     ∧ (∀ k, Map_has (downloadedFiles st) k = true →
             Map_has (downloadedFiles st1) k = true)
     ∧ (∃ filename, ∀ k, k ≠ filename →
          Map_get (downloadedFiles st1) k = Map_get (downloadedFiles st) k))
  ∧ let docs := lit "https://x.test/docs/" in
    let st' := exec (Downloader.downloadStaticResources (Demo.envStoppedAt 1)
                       [docs; lit "https://x.test/a.js"]) Demo.withPage in
    isDownloading Demo.withPage = true
    ∧ stopClicked (Demo.envStoppedAt 1) (length (requests Demo.withPage)) = true
    ∧ isDownloading st' = false
    ∧ requests st' = [Demo.root; docs]
    ∧ Map_get (downloadedFiles Demo.withPage) (lit "index.html")
      = Some Demo.mainPage
    ∧ Map_get (downloadedFiles st') (lit "index.html")
      = Some (mkFileData (Text (lit "<p>docs</p>")) 11 (lit "html") (Some docs)
                         (Some (lit "text/html")) None)
    ∧ Map_keys (downloadedFiles st') = [lit "index.html"].
Proof.
  split.
  - intros env st url urls Hflag st1 Hstop.
    destruct (downloadSingleResource_effect env url st) as (Hone & Hkeep & Hdown).
    destruct (cancellation_is_cooperative env) as (_ & _ & Hloop).
    split_and!; [by apply Hloop|apply Hdown; by right|exact Hkeep|exact Hone].
  - vm_compute. split_and!; reflexivity.
Qed.

(** ** URL resolution and markup extraction (claims C7 and C8) *)

(** The resolver of the specification: [resolve reference base] is the
    URL that [addResourceUrl] adds to the set for [reference], if it
    adds one. *)
Definition resolve (env : Env) (reference : jsstring) (base : URL)
  : option jsstring :=
  head (Downloader.addResourceUrl env (Some reference) base [] (lit "other")).

Section Resolver.

Context (env : Env).

(** The platform's serializer is stable: a serialized URL parses, against
    the same base, to the URL it came from. *)
Hypothesis URL_href_stable :
  ∀ u b r, URL_new env u (Some b) = Some r →
           URL_new env (href r) (Some b) = Some r.

Lemma Set_add_empty x : Set_add [] x = [x].
Proof. reflexivity. Qed.


Lemma resolve_Some reference base r :
  resolve env reference base = Some r ↔
  (negb (truthy reference) || startsWith reference (lit "data:")
   || startsWith reference (lit "#") || startsWith reference (lit "mailto:")
   || startsWith reference (lit "tel:")) = false
  ∧ ∃ full, URL_new env reference (Some (href base)) = Some full
            ∧ href full = r ∧ startsWith r (lit "http") = true.
Proof.
  unfold resolve, Downloader.addResourceUrl.
  destruct (_ || startsWith reference (lit "tel:")).
  { split; [done|]. by intros [? _]. }
  destruct (URL_new env reference _) as [full|].
  2:{ split; [done|]. by intros (_ & full & ? & _). }
  destruct (startsWith (href full) (lit "http")) eqn:E.
  - rewrite Set_add_empty. cbn [head]. split.
    + intros [= <-]. split; [done|]. by exists full.
    + intros (_ & full' & [= <-] & <- & _). done.
  - split; [done|]. intros (_ & full' & [= <-] & <- & ?). congruence.
Qed.

(** A text that starts with [http] passes the guards on the
    reference. *)
Lemma guards_http r :
  startsWith r (lit "http") = true →
  (negb (truthy r) || startsWith r (lit "data:") || startsWith r (lit "#")
   || startsWith r (lit "mailto:") || startsWith r (lit "tel:")) = false.
Proof.
  intros [t ->]%startsWith_spec. cbn. reflexivity.
Qed.

(** C7.  Whenever [resolve reference base] succeeds (its result then
    starts with [http]), resolving the result again against the same
    base returns the same URL string. *)
Theorem C7_resolve_idempotent reference base r :
  resolve env reference base = Some r → resolve env r base = Some r.
Proof using URL_href_stable.
  intros (_ & full & Hfull & <- & Hhttp)%resolve_Some.
  apply resolve_Some. split; [by apply guards_http|].
  exists full. split_and!; [|done|done]. by eapply URL_href_stable.
Qed.

End Resolver.

Lemma Demo_parseAbsolute_href x r : Demo.parseAbsolute x = Some r → href r = x.
Proof.
  unfold Demo.parseAbsolute. destruct (Demo.schemeOf x); [|done].
  by intros [= <-].
Qed.

Lemma Demo_URL_href_stable u b r :
  Demo.URL_new u (Some b) = Some r → Demo.URL_new (href r) (Some b) = Some r.
Proof.
  unfold Demo.URL_new at 1.
  assert (∀ x, Demo.parseAbsolute x = Some r → Demo.URL_new (href r) (Some b) = Some r)
    as Hx.
  { intros x Hx. rewrite (Demo_parseAbsolute_href _ _ Hx).
    unfold Demo.URL_new. by rewrite Hx. }
  destruct (Demo.parseAbsolute u) as [r0|] eqn:Hu.
  { intros [= <-]. eauto. }
  destruct (Some b ≫= Demo.parseAbsolute) as [b0|]; [|done].
  destruct (startsWith u (lit "/")); eauto.
Qed.

Lemma C7_resolve_idempotent_witness :
  let base := mkURL Demo.root (lit "https:") (lit "x.test") (lit "/") [] in
  resolve Demo.env (lit "/a.js") base = Some (lit "https://x.test/a.js")
  ∧ resolve Demo.env (lit "https://x.test/a.js") base
    = Some (lit "https://x.test/a.js").
Proof.
  split; [reflexivity|].
  exact (C7_resolve_idempotent Demo.env Demo_URL_href_stable (lit "/a.js")
           (mkURL Demo.root (lit "https:") (lit "x.test") (lit "/") [])
           (lit "https://x.test/a.js") eq_refl).
Defined.

Section Markup.

Context (env : Env).

Lemma Set_add_NoDup s x : NoDup s → NoDup (Set_add s x).
Proof.
  intros Hs. unfold Set_add, Set_has. case_bool_decide; [done|].
  apply NoDup_app. split_and!; [done| |apply NoDup_singleton].
  by intros y Hy ->%list_elem_of_singleton.
Qed.

Lemma addResourceUrl_NoDup url base s type :
  NoDup s → NoDup (Downloader.addResourceUrl env url base s type).
Proof.
  intros Hs. unfold Downloader.addResourceUrl. destruct url as [url|]; [|done].
  destruct (_ || startsWith url (lit "tel:")); [done|].
  destruct (URL_new env url _) as [full|]; [|done].
  destruct (startsWith (href full) (lit "http")); [|done]. by apply Set_add_NoDup.
Qed.

Lemma foldl_addResourceUrl_NoDup (attr type : jsstring) base (els : list Element) s :
  NoDup s →
  NoDup (foldl (λ acc el,
                  Downloader.addResourceUrl env (Downloader.getAttribute el attr)
                                            base acc type) s els).
Proof.
  revert s. induction els as [|el els IH]; intros s Hs; [done|].
  cbn [foldl]. by apply IH, addResourceUrl_NoDup.
Qed.

(** Duplicates are collapsed: the array returned holds no URL twice. *)
Lemma extractStaticResources_NoDup html baseUrl st urls st' :
  Downloader.extractStaticResources env html baseUrl st = (Ok urls, st') →
  NoDup urls.
Proof.
  unfold Downloader.extractStaticResources.
  destruct (URL_new env baseUrl None) as [base|]; [|done].
  intros [= <- _].
  unfold Downloader.extractOtherResources, Downloader.extractImages,
    Downloader.extractStylesheets, Downloader.extractScripts.
  do 4 apply foldl_addResourceUrl_NoDup. apply NoDup_nil_2.
Qed.

End Markup.

(** C8.  On a platform that parses the document of the claim into its
    tree and resolves [/a.js] and [/b.css] against [https://x.test/] as
    the URL standard says, [extractStaticResources] returns the two
    URLs [https://x.test/a.js] and [https://x.test/b.css], each once,
    and nothing else. *)
Theorem C8_markup_extraction env base st :
  DOMParser_parse env Demo.html = Demo.page →
  URL_new env Demo.root None = Some base →
  href base = Demo.root →
  href <$> URL_new env (lit "/a.js") (Some Demo.root)
    = Some (lit "https://x.test/a.js") →
  href <$> URL_new env (lit "/b.css") (Some Demo.root)
    = Some (lit "https://x.test/b.css") →
  Downloader.extractStaticResources env Demo.html Demo.root st
  = (Ok [lit "https://x.test/a.js"; lit "https://x.test/b.css"], st).
Proof.
  intros Hdoc Hbase Hhref Ha Hb.
  unfold Downloader.extractStaticResources. rewrite Hbase, Hdoc.
  cbn zeta. unfold ret. do 2 f_equal.
  unfold Downloader.extractOtherResources, Downloader.extractImages,
    Downloader.extractStylesheets, Downloader.extractScripts.
  change (Downloader.select_script_src Demo.page)
    with [mkElement (lit "script") [(lit "src", lit "/a.js")]].
  change (Downloader.select_link_stylesheet Demo.page)
    with [mkElement (lit "link")
            [(lit "rel", lit "stylesheet"); (lit "href", lit "/b.css")]].
  change (Downloader.select_img_src Demo.page) with (@nil Element).
  change (Downloader.select_link_href_other Demo.page) with (@nil Element).
  cbn [foldl].
  change (Downloader.getAttribute _ (lit "src")) with (Some (lit "/a.js")).
  change (Downloader.getAttribute _ (lit "href")) with (Some (lit "/b.css")).
  unfold Downloader.addResourceUrl. rewrite Hhref.
  change (negb (truthy (lit "/a.js")) || _ || _ || _ || _) with false.
  change (negb (truthy (lit "/b.css")) || _ || _ || _ || _) with false.
  destruct (URL_new env (lit "/a.js") _) as [fa|]; [|done].
  destruct (URL_new env (lit "/b.css") _) as [fb|]; [|done].
  injection Ha as ->. injection Hb as ->. reflexivity.
Qed.

Lemma C8_markup_extraction_witness :
  Downloader.extractStaticResources Demo.env Demo.html Demo.root Demo.fresh
  = (Ok [lit "https://x.test/a.js"; lit "https://x.test/b.css"], Demo.fresh).
Proof.
  exact (C8_markup_extraction Demo.env
           (mkURL Demo.root (lit "https:") (lit "x.test") (lit "/") [])
           Demo.fresh eq_refl eq_refl eq_refl eq_refl eq_refl).
Defined.

(** ** The noise filter (claim C6) *)

(** Membership and non-membership in an explicit list. *)
Ltac in_list :=
  repeat first [apply list_elem_of_here | apply list_elem_of_further].
Ltac not_in_list :=
  vm_compute;
  let H := fresh in
  intros H; repeat (apply elem_of_cons in H as [H|H]; [discriminate H|]);
  by apply elem_of_nil in H.

Section Noise.

Implicit Types (s p m : jsstring).

Lemma stripQuery_prefix s : Spec.stripQuery s `prefix_of` s.
Proof.
  induction s as [|x s IH]; [done|]. cbn [Spec.stripQuery].
  destruct (_ && _); [apply prefix_nil|]. by apply prefix_cons.
Qed.

Lemma includes_prefix s t m :
  t `prefix_of` s → includes t m = true → includes s m = true.
Proof. intros [k ->]. apply includes_app_r. Qed.

Lemma includes_suffix s t m :
  t `suffix_of` s → includes t m = true → includes s m = true.
Proof. intros [k ->]. apply includes_app_l. Qed.

(** A marker without an underscore that occurs after the characters
    have been replaced occurred before. *)
Lemma includes_replaceEach cs s m :
  (95%N ∉ m) →
  includes (Spec.replaceEach cs 95 s) m = true → includes s m = true.
Proof.
  intros Hm. rewrite !includes_spec. unfold Spec.replaceEach.
  intros (a & b & H).
  apply fmap_app_inv in H as (a' & r & -> & Hr & ->). symmetry in Hr.
  apply fmap_app_inv in Hr as (m' & b' & Hm' & -> & ->).
  exists a', b'. do 2 f_equal.
  clear -Hm Hm'. revert m Hm Hm'. induction m' as [|x m' IH]; intros m Hm Hm'.
  - by destruct m.
  - destruct m as [|y m]; [done|]. cbn [fmap list_fmap] in Hm'.
    injection Hm' as Hy Hm'. apply not_elem_of_cons in Hm as [Hy95 Hm].
    f_equal; [|by apply IH].
    destruct (existsb (N.eqb x) cs); [congruence|done].
Qed.

(** A marker without an underscore that the cleaned path contains is
    in the raw path already. *)
Lemma includes_cleanSourcePath p m :
  (95%N ∉ m) →
  includes (Downloader.cleanSourcePath p) m = true → includes p m = true.
Proof.
  intros Hm. rewrite cleanSourcePath_exact. unfold Spec.cleanPathExact.
  intros H%includes_replaceEach; [|done].
  eapply includes_suffix; [apply prefixes_suffix|].
  eapply includes_prefix; [apply stripQuery_prefix|done].
Qed.

Lemma startsWith_includes s m : startsWith s m = true → includes s m = true.
Proof.
  intros [t ->]%startsWith_spec. apply includes_spec. by exists [], t.
Qed.

(** The cleaned path holds no colon. *)
Lemma cleanSourcePath_no_colon p : 58%N ∉ Downloader.cleanSourcePath p.
Proof.
  rewrite cleanSourcePath_exact. unfold Spec.cleanPathExact, Spec.replaceEach.
  intros (x & Hx & _)%list_elem_of_fmap.
  destruct (existsb (N.eqb x) Spec.named) eqn:E; [done|].
  subst x. done.
Qed.

Lemma includes_elem s m x : includes s m = true → x ∈ m → x ∈ s.
Proof.
  intros (a & b & ->)%includes_spec Hx. rewrite !elem_of_app. auto.
Qed.

(** The filter of the refactored class, on the raw path. *)
Lemma shouldExtractSource_false p c m :
  m ∈ Downloader.skipPatterns → includes p m = true →
  Downloader.shouldExtractSource (Some p) c = false.
Proof.
  intros Hm Hp. unfold Downloader.shouldExtractSource.
  destruct c as [c|]; [|done]. destruct (negb (truthy c) || negb (truthy p)); [done|].
  apply negb_false_iff, existsb_exists. exists m. split; [|done].
  by apply list_elem_of_In.
Qed.

(** The conditions of the specification are among those of the older
    variant. *)
Lemma noise_isNoise p :
  Spec.noise p = true → Advanced.isNoise p || Advanced.isInvalidPath p = true.
Proof.
  unfold Spec.noise, Spec.noiseMarkers, Advanced.isNoise, Advanced.isInvalidPath.
  cbn [existsb]. intros H.
  repeat match type of H with
         | context [includes p ?m] =>
             destruct (includes p m);
             [by rewrite ?orb_true_r, ?orb_true_l | cbn [orb] in H |- *]
         end.
  destruct (startsWith p (lit "(webpack)"));
    [by rewrite ?orb_true_r, ?orb_true_l | cbn [orb] in H |- *].
  rewrite H. by rewrite ?orb_true_r.
Qed.

End Noise.

Lemma extractEmbedded_discards srcs conts n i st p :
  srcs !! i = Some (Some p) →
  Advanced.isNoise (Advanced.cleanPathOf p)
  || Advanced.isInvalidPath (Advanced.cleanPathOf p) = true →
  Advanced.extractEmbedded srcs conts n i st = (Ok n, st).
Proof.
  intros Hp Hn. unfold Advanced.extractEmbedded. rewrite Hp.
  destruct (mjoin (conts !! i)) as [c|]; [|done].
  cbn [mjoin option_join]. destruct (truthy c && truthy p); [|done].
  cbn zeta. destruct (Advanced.isNoise _); [done|].
  cbn [orb] in Hn. by rewrite Hn.
Qed.

(** C6, as stated, fails on [extractSourceFilesFromMap]: its filter
    reads the raw path, knows six markers and has no length check.
    The two entries of this map clean to [a] (one character) and to a
    path that contains [webpack-dev-server]; both are extracted.
    Conversely the raw path [webpack:///./src/app.js] is refused there
    although its cleaned form carries no marker. *)
Lemma C6_raw_path_filter_counterexample :
  Spec.noise (Downloader.cleanSourcePath (lit "a")) = true
  ∧ Spec.noise (Downloader.cleanSourcePath (lit "webpack-dev-server/client.js"))
    = true
  ∧ Downloader.extractSourceFilesFromMap Demo.env Demo.noisyMap (lit "a.js") Demo.fresh
    = (Ok 2,
       savedAll
         [ (lit "src/a",
            mkFileData (Text (lit "X")) 1 (lit "source") None None (Some (lit "a")));
           (lit "src/webpack-dev-server/client.js",
            mkFileData (Text (lit "Y")) 1 (lit "source") None None
                       (Some (lit "webpack-dev-server/client.js"))) ]
         Demo.fresh)
  ∧ Spec.noise (Downloader.cleanSourcePath (lit "webpack:///./src/app.js")) = false
  ∧ Downloader.shouldExtractSource (Some (lit "webpack:///./src/app.js"))
                                   (Some (lit "X")) = false.
Proof. split_and!; reflexivity. Qed.

(** ** Sources without embedded contents (claim C3) *)

Section Fallback.

Context (env : Env).

(** The fallback of the older [fetchWithCORS], from the state reached
    when the direct request has settled. *)
Definition relayOutcomeAdvanced (url : jsstring) (st1 : Session)
  : Result Response * Session :=
  match encodeURIComponent env url with
  | Throw m => (Throw m, st1)
  | Ok encoded =>
      let proxyUrl := proxyPrefix ++ encoded in
      (match fetch env (length (requests st1)) proxyUrl with
       | Rejected m => Throw m
       | Responded r =>
           match p_contents r with
           | Ok contents =>
               Ok (mkResponse true 200 [(lit "content-type", lit "text/plain")]
                              (Ok contents)
                              (Some (TextEncoder_encode env contents)))
           | Throw m => Throw m
           end
       end, awaited env proxyUrl st1)
  end.

Lemma Advanced_fetchWithCORS_run url st :
  Advanced.fetchWithCORS env url st =
  match directOk env url st with
  | Some r => (Ok (ofPlatform r), awaited env url st)
  | None => relayOutcomeAdvanced url (awaited env url st)
  end.
Proof.
  unfold Advanced.fetchWithCORS, directOk, relayOutcomeAdvanced.
  unfold bind at 1, try_catch at 1, bind at 1.
  change (Advanced.platformFetch env url st) with (Downloader.platformFetch env url st).
  rewrite platformFetch_run.
  destruct (fetch env (length (requests st)) url) as [m|r]; cbn [ret].
  2: destruct (p_ok r); [reflexivity|].
  all: unfold bind at 1, liftR;
    destruct (encodeURIComponent env url) as [e|m']; [|reflexivity];
    unfold bind at 1;
    change (Advanced.platformFetch env ?u ?s) with (Downloader.platformFetch env u s);
    rewrite platformFetch_run;
    destruct (fetch env _ (_ ++ e)) as [m2|r2]; [reflexivity|];
    unfold bind; by destruct (p_contents r2).
Qed.

(** One or two requests, the first of them to [url]; the catalog is
    not touched. *)
Lemma Advanced_fetchWithCORS_effect url st :
  let st' := (Advanced.fetchWithCORS env url st).2 in
  downloadedFiles st' = downloadedFiles st
  ∧ ∃ rest, requests st' = requests st ++ url :: rest ∧ length rest ≤ 1.
Proof.
  cbn zeta. rewrite Advanced_fetchWithCORS_run.
  destruct (directOk env url st) as [r|]; cbn [snd].
  - rewrite downloadedFiles_awaited, requests_awaited. split; [done|].
    exists []. split; [done|]. cbn. lia.
  - unfold relayOutcomeAdvanced.
    destruct (encodeURIComponent env url) as [e|m]; cbn [snd].
    + rewrite !downloadedFiles_awaited, !requests_awaited. split; [done|].
      exists [proxyPrefix ++ e]. rewrite <- app_assoc. split; [done|]. cbn. lia.
    + rewrite downloadedFiles_awaited, requests_awaited. split; [done|].
      exists []. split; [done|]. cbn. lia.
Qed.

(** The base of the resolution: the source root of the map when it is
    a non-empty string, or else the URL recorded for the script. *)
Definition baseOf (sourceMap : SourceMap) (jsFilename : jsstring)
  (files : JSMap FileData) : option jsstring :=
  match sourceRoot sourceMap with
  | Some root => if truthy root then Some root else Map_get files jsFilename ≫= url
  | None => Map_get files jsFilename ≫= url
  end.

(** The URL that a turn of the fallback loop requests for an entry of
    [sources], given the catalog, spelled out: none for [null] and for
    the empty string; the path itself when it starts with [http];
    otherwise the non-empty text of [new URL(path, base)], and none
    when there is no base, when the base is empty or when the
    resolution fails. *)
Definition fetchTarget (sourceMap : SourceMap) (jsFilename : jsstring)
  (files : JSMap FileData) (entry : option jsstring) : option jsstring :=
  match entry with
  | None => None
  | Some sourcePath =>
      if negb (truthy sourcePath) then None
      else if startsWith sourcePath (lit "http") then Some sourcePath
      else
        match baseOf sourceMap jsFilename files with
        | Some baseUrl =>
            if truthy baseUrl then
              match URL_new env sourcePath (Some baseUrl) with
              | Some full => if truthy (href full) then Some (href full) else None
              | None => None
              end
            else None
        | None => None
        end
  end.

(** [sourceUrlOf] yields that URL: a resolution that throws and a URL
    that is empty both leave the turn without a request. *)
Lemma sourceUrlOf_fetchTarget sourceMap jsFilename files sourcePath :
  truthy sourcePath = true →
  match Advanced.sourceUrlOf env sourceMap jsFilename sourcePath files with
  | Ok (Some sourceUrl) => if truthy sourceUrl then Some sourceUrl else None
  | _ => None
  end
  = fetchTarget sourceMap jsFilename files (Some sourcePath).
Proof.
  intros Hp. unfold fetchTarget, Advanced.sourceUrlOf, baseOf. rewrite Hp.
  cbn [negb].
  destruct (startsWith sourcePath (lit "http")); [by rewrite Hp|].
  destruct (sourceRoot sourceMap) as [root|].
  - destruct (truthy root) eqn:Hr.
    + rewrite Hr. by destruct (URL_new env sourcePath (Some root)).
    + destruct (Map_get files jsFilename ≫= url) as [b|]; [|done].
      destruct (truthy b); [|done]. by destruct (URL_new env sourcePath (Some b)).
  - destruct (Map_get files jsFilename ≫= url) as [b|]; [|done].
    destruct (truthy b); [|done]. by destruct (URL_new env sourcePath (Some b)).
Qed.

(** One turn of the fallback loop, evaluated. *)
Lemma extractFetched_run sourceMap jsFilename n entry st :
  Advanced.extractFetched env sourceMap jsFilename n entry st =
  match fetchTarget sourceMap jsFilename (downloadedFiles st) entry, entry with
  | Some sourceUrl, Some sourcePath =>
      match Advanced.fetchWithCORS env sourceUrl st with
      | (Throw _, st1) => (Ok n, st1)
      | (Ok response, st1) =>
          if Advanced.keepFetched (Advanced.cleanPathOf sourcePath) then
            match text response with
            | Ok (Some content) =>
                (Ok (S n),
                 set_files
                   (λ files,
                      Map_set files
                        (lit "sources/" ++ Advanced.cleanPathOf sourcePath)
                        (mkFileData (Text content) (length content)
                                    (lit "source") (Some sourceUrl) None
                                    (Some sourcePath))) st1)
            | _ => (Ok n, st1)
            end
          else (Ok n, st1)
      end
  | _, _ => (Ok n, st)
  end.
Proof.
  destruct entry as [sourcePath|]; [|done].
  destruct (truthy sourcePath) eqn:Hp.
  2:{ unfold Advanced.extractFetched, fetchTarget. by rewrite Hp. }
  rewrite <- sourceUrlOf_fetchTarget by done.
  unfold Advanced.extractFetched. rewrite Hp. cbn [negb].
  unfold try_catch, bind at 1, gets at 1, bind at 1, liftR.
  destruct (Advanced.sourceUrlOf env sourceMap jsFilename sourcePath _)
    as [[sourceUrl|]|m]; [|done|done].
  destruct (truthy sourceUrl); cbn [negb]; [|done].
  unfold bind at 1.
  destruct (Advanced.fetchWithCORS env sourceUrl st) as [[response|m] st1]; [|done].
  unfold bind at 1, liftR.
  destruct (text response) as [[content|]|m];
    by destruct (Advanced.keepFetched _).
Qed.

(** One turn of the fallback loop: it never throws; it issues the
    request for the target of the entry, followed at most by the relay
    request of the same fetch; without a target it does nothing. *)
Lemma extractFetched_effect sourceMap jsFilename n entry st :
  ∃ n',
    Advanced.extractFetched env sourceMap jsFilename n entry st
    = (Ok n', exec (Advanced.extractFetched env sourceMap jsFilename n entry) st)
    ∧ (n' = n ∨ n' = S n)
    ∧ match fetchTarget sourceMap jsFilename (downloadedFiles st) entry with
      | Some sourceUrl =>
          ∃ rest,
            requests (exec (Advanced.extractFetched env sourceMap jsFilename n entry) st)
            = requests st ++ sourceUrl :: rest
            ∧ length rest ≤ 1
      | None =>
          exec (Advanced.extractFetched env sourceMap jsFilename n entry) st = st
      end.
Proof.
  unfold exec. rewrite extractFetched_run.
  destruct (fetchTarget sourceMap jsFilename (downloadedFiles st) entry)
    as [sourceUrl|] eqn:Ht; [|by exists n; auto].
  destruct entry as [sourcePath|]; [|done].
  pose proof (Advanced_fetchWithCORS_effect sourceUrl st) as [_ Hreq].
  destruct (Advanced.fetchWithCORS env sourceUrl st) as [[response|m] st1];
    cbn [snd] in Hreq; [|by exists n; auto].
  destruct (Advanced.keepFetched _); [|by exists n; auto].
  destruct (text response) as [[content|]|m']; [|by exists n; auto..].
  exists (S n). split_and!; [done|by right|done].
Qed.

(** A failed turn does not end the loop: the turns of the other
    entries follow, from the state the failed turn leaves. *)
Lemma fallback_loop_continues sourceMap jsFilename n entry entries st :
  ∃ n',
    (n' = n ∨ n' = S n)
    ∧ foldM (Advanced.extractFetched env sourceMap jsFilename) n (entry :: entries) st
      = foldM (Advanced.extractFetched env sourceMap jsFilename) n' entries
          (exec (Advanced.extractFetched env sourceMap jsFilename n entry) st).
Proof.
  destruct (extractFetched_effect sourceMap jsFilename n entry st)
    as (n' & Hrun & Hn & _).
  exists n'. split; [done|]. cbn [foldM]. unfold bind. by rewrite Hrun.
Qed.

Lemma fallback_loop_returns sourceMap jsFilename entries n st :
  ∃ count,
    eval (foldM (Advanced.extractFetched env sourceMap jsFilename) n entries) st
    = Ok count.
Proof.
  revert n st. induction entries as [|entry entries IH]; intros n st.
  - by exists n.
  - destruct (fallback_loop_continues sourceMap jsFilename n entry entries st)
      as (n' & _ & Hstep). unfold eval. rewrite Hstep. apply IH.
Qed.

(** A turn whose direct request is answered with an ok status stores
    the text under [sources/] and the cleaned path, unless that path is
    filtered. *)
Lemma extractFetched_stores sourceMap jsFilename n sourcePath sourceUrl r body st :
  fetchTarget sourceMap jsFilename (downloadedFiles st) (Some sourcePath)
    = Some sourceUrl →
  directOk env sourceUrl st = Some r →
  p_text r = Ok body →
  Advanced.keepFetched (Advanced.cleanPathOf sourcePath) = true →
  Advanced.extractFetched env sourceMap jsFilename n (Some sourcePath) st
  = (Ok (S n),
     set_files
       (λ files,
          Map_set files (lit "sources/" ++ Advanced.cleanPathOf sourcePath)
            (mkFileData (Text body) (length body) (lit "source")
                        (Some sourceUrl) None (Some sourcePath)))
       (awaited env sourceUrl st)).
Proof.
  intros Ht Hd Hb Hk. rewrite extractFetched_run, Ht.
  rewrite Advanced_fetchWithCORS_run, Hd, Hk. cbn [text ofPlatform].
  by rewrite Hb.
Qed.

End Fallback.

(** A turn of the fetched branch whose cleaned path fails the three
    tests of that branch stores nothing and counts nothing. *)
Lemma extractFetched_discards env sm jsFilename n p st :
  Advanced.keepFetched (Advanced.cleanPathOf p) = false →
  eval (Advanced.extractFetched env sm jsFilename n (Some p)) st = Ok n
  ∧ downloadedFiles (exec (Advanced.extractFetched env sm jsFilename n (Some p)) st)
    = downloadedFiles st.
Proof.
  intros Hk. unfold eval, exec. rewrite extractFetched_run.
  destruct (fetchTarget env sm jsFilename (downloadedFiles st) (Some p))
    as [sourceUrl|]; [|done].
  pose proof (Advanced_fetchWithCORS_effect env sourceUrl st) as [Hfiles _].
  destruct (Advanced.fetchWithCORS env sourceUrl st) as [[response|m] st1];
    cbn [fst snd] in *; [|done].
  by rewrite Hk.
Qed.

(** C6, amended.  In the embedded branch of
    [extractSourceFilesAdvanced] (a map that carries [sourcesContent])
    the filter is applied to the cleaned path and discards the entry
    under every condition of the claim.  The fetched branch of that
    method (a map without [sourcesContent]) discards an entry whose
    cleaned path contains [webpack/] or [node_modules/] or starts with
    [(webpack)]: it stores nothing and counts nothing for it.
    [extractSourceFilesFromMap] discards an entry whose cleaned path
    contains [webpack/] (hence also [webpack/bootstrap] and
    [webpack/runtime]) or starts with [(webpack)].  No cleaned path
    contains a colon, hence neither [webpack:///] nor
    [webpack-internal://].  Nothing is promised for the other markers
    and for the length check outside the embedded branch.  In all
    three loops a path that cleans to [webpack/bootstrap] is excluded
    from extraction. *)
Theorem C6_noise_filter :
  (∀ srcs conts n i st p,
     srcs !! i = Some (Some p) →
     Spec.noise (Advanced.cleanPathOf p) = true →
     Advanced.extractEmbedded srcs conts n i st = (Ok n, st))
  ∧ (∀ env sm jsFilename n st p,
       includes (Advanced.cleanPathOf p) (lit "webpack/") = true
       ∨ includes (Advanced.cleanPathOf p) (lit "node_modules/") = true
       ∨ startsWith (Advanced.cleanPathOf p) (lit "(webpack)") = true →
       eval (Advanced.extractFetched env sm jsFilename n (Some p)) st = Ok n
       ∧ downloadedFiles (exec (Advanced.extractFetched env sm jsFilename n (Some p)) st)
         = downloadedFiles st)
  ∧ (∀ srcs conts n i st p,
       srcs !! i = Some (Some p) →
       includes (Downloader.cleanSourcePath p) (lit "webpack/") = true
       ∨ startsWith (Downloader.cleanSourcePath p) (lit "(webpack)") = true →
       Downloader.extractEntry srcs conts n i st = (Ok n, st))
  ∧ (∀ p, 58%N ∉ Downloader.cleanSourcePath p)
  ∧ (∀ srcs conts n i st p,
       srcs !! i = Some (Some p) →
       Downloader.cleanSourcePath p = lit "webpack/bootstrap" →
       Advanced.extractEmbedded srcs conts n i st = (Ok n, st)
       ∧ Downloader.extractEntry srcs conts n i st = (Ok n, st)
       ∧ ∀ env sm jsFilename st1,
           eval (Advanced.extractFetched env sm jsFilename n (Some p)) st1 = Ok n
           ∧ downloadedFiles
               (exec (Advanced.extractFetched env sm jsFilename n (Some p)) st1)
             = downloadedFiles st1).
Proof.
  assert (∀ srcs conts n i st p m,
            srcs !! i = Some (Some p) → m ∈ Downloader.skipPatterns →
            includes p m = true →
            Downloader.extractEntry srcs conts n i st = (Ok n, st)) as Hraw.
  { intros srcs conts n i st p m Hp Hm Hinc. unfold Downloader.extractEntry.
    rewrite Hp. cbn [mjoin option_join]. by erewrite shouldExtractSource_false. }
  split_and!.
  - intros srcs conts n i st p Hp Hn.
    eapply extractEmbedded_discards; [done|by apply noise_isNoise].
  - intros env sm jsFilename n st p H. apply extractFetched_discards.
    unfold Advanced.keepFetched.
    destruct H as [->|[->| ->]]; by rewrite ?andb_false_r.
  - intros srcs conts n i st p Hp [H|H].
    + apply (Hraw _ _ _ _ _ p (lit "webpack/")); [done|in_list|].
      apply includes_cleanSourcePath; [not_in_list|done].
    + apply (Hraw _ _ _ _ _ p (lit "(webpack)")); [done|in_list|].
      apply includes_cleanSourcePath; [not_in_list|by apply startsWith_includes].
  - apply cleanSourcePath_no_colon.
  - intros srcs conts n i st p Hp Hclean. split_and!.
    + eapply extractEmbedded_discards; [done|].
      rewrite cleanPathOf_cleanSourcePath, Hclean. reflexivity.
    + apply (Hraw _ _ _ _ _ p (lit "webpack/")); [done|in_list|].
      apply includes_cleanSourcePath; [not_in_list|].
      rewrite Hclean. reflexivity.
    + intros env sm jsFilename st1. apply extractFetched_discards.
      rewrite cleanPathOf_cleanSourcePath, Hclean. reflexivity.
Qed.

(** C3, as stated, fails on [extractSourceFilesFromMap]: for a map
    with [sources] and without [sourcesContent] it returns 0 at once;
    no request is issued and nothing is extracted. *)
Lemma C3_no_fallback_counterexample :
  (∃ sm srcs, JSON_parse Demo.env Demo.bareMap = Ok sm
              ∧ sources sm = Some srcs ∧ srcs ≠ [] ∧ sourcesContent sm = None)
  ∧ Downloader.extractSourceFilesFromMap Demo.env Demo.bareMap (lit "app.js")
      Demo.withScript
    = (Ok 0, Demo.withScript).
Proof.
  split; [|reflexivity]. eexists _, _. split_and!; [reflexivity..|done|reflexivity].
Qed.

(** C3, amended.  For a map that parses, has [sources] and lacks
    [sourcesContent]: [extractSourceFilesFromMap] of the refactored
    class returns 0 at its guard, requesting and storing nothing.  The
    fallback is in [extractSourceFilesAdvanced] only, where the loop
    takes one turn per entry of [sources].  A turn requests
    [fetchTarget] of its entry, followed at most by the relay request
    of the same [fetchWithCORS]: the path itself when it starts with
    [http], or else its resolution against the source root of the map
    when that is a non-empty string, or else against the URL recorded
    for the script; an entry that is [null] or empty, that has no base
    or that does not resolve leaves the session as it is.  No turn
    throws, so a failure for one path leaves the turns of the remaining
    paths to run, and the method returns; a turn whose fetch succeeds
    stores the text unless the path is filtered. *)
Theorem C3_fallback_fetch env mapContent jsFilename sm srcs st :
  JSON_parse env mapContent = Ok sm →
  sources sm = Some srcs → sourcesContent sm = None →
  Downloader.extractSourceFilesFromMap env mapContent jsFilename st = (Ok 0, st)
  ∧ Advanced.extractSourceFilesAdvanced env mapContent jsFilename st
    = foldM (Advanced.extractFetched env sm jsFilename) 0 srcs st
  ∧ (∃ count,
       eval (Advanced.extractSourceFilesAdvanced env mapContent jsFilename) st
       = Ok count)
  ∧ (∀ n entry entries st1,
       ∃ n', (n' = n ∨ n' = S n)
         ∧ foldM (Advanced.extractFetched env sm jsFilename) n (entry :: entries) st1
           = foldM (Advanced.extractFetched env sm jsFilename) n' entries
               (exec (Advanced.extractFetched env sm jsFilename n entry) st1))
  ∧ (∀ n entry st1,
       match fetchTarget env sm jsFilename (downloadedFiles st1) entry with
       | Some sourceUrl =>
           ∃ rest,
             requests (exec (Advanced.extractFetched env sm jsFilename n entry) st1)
             = requests st1 ++ sourceUrl :: rest
             ∧ length rest ≤ 1
       | None => exec (Advanced.extractFetched env sm jsFilename n entry) st1 = st1
       end)
  ∧ (∀ n sourcePath sourceUrl r body st1,
       fetchTarget env sm jsFilename (downloadedFiles st1) (Some sourcePath)
         = Some sourceUrl →
       directOk env sourceUrl st1 = Some r →
       p_text r = Ok body →
       Advanced.keepFetched (Advanced.cleanPathOf sourcePath) = true →
       Advanced.extractFetched env sm jsFilename n (Some sourcePath) st1
       = (Ok (S n),
          set_files
            (λ files,
               Map_set files (lit "sources/" ++ Advanced.cleanPathOf sourcePath)
                 (mkFileData (Text body) (length body) (lit "source")
                             (Some sourceUrl) None (Some sourcePath)))
            (awaited env sourceUrl st1))).
Proof.
  intros Hp Hs Hc.
  assert (Advanced.extractSourceFilesAdvanced env mapContent jsFilename st
          = foldM (Advanced.extractFetched env sm jsFilename) 0 srcs st) as Hrun.
  { unfold Advanced.extractSourceFilesAdvanced, try_catch, bind at 1, liftR.
    rewrite Hp, Hs, Hc.
    destruct (fallback_loop_returns env sm jsFilename srcs 0 st) as [count Hcount].
    unfold eval in Hcount.
    by destruct (foldM _ 0 srcs st) as [[]]. }
  split_and!.
  - unfold Downloader.extractSourceFilesFromMap, try_catch, bind, liftR.
    by rewrite Hp, Hs, Hc.
  - done.
  - unfold eval. rewrite Hrun. apply fallback_loop_returns.
  - intros. apply fallback_loop_continues.
  - intros n entry st1.
    by destruct (extractFetched_effect env sm jsFilename n entry st1) as (_ & _ & _ & H).
  - intros. by eapply extractFetched_stores.
Qed.

Lemma C3_fallback_fetch_witness :
  Advanced.extractSourceFilesAdvanced Demo.env Demo.bareMap (lit "app.js")
    Demo.withScript
  = foldM (Advanced.extractFetched Demo.env
             (mkSourceMap (Some [Some (lit "b.js"); Some (lit "a.js")]) None None)
             (lit "app.js"))
          0 [Some (lit "b.js"); Some (lit "a.js")] Demo.withScript.
Proof.
  exact (proj1 (proj2 (C3_fallback_fetch Demo.env Demo.bareMap (lit "app.js") _ _
                         Demo.withScript eq_refl eq_refl eq_refl))).
Defined.

(** The run of the small world: [b.js] fails directly and through the
    relay, and [a.js] is fetched and stored all the same. *)
Example fallback_run :
  let st' := exec (Advanced.extractSourceFilesAdvanced Demo.env Demo.bareMap
                     (lit "app.js")) Demo.withScript in
  eval (Advanced.extractSourceFilesAdvanced Demo.env Demo.bareMap (lit "app.js"))
       Demo.withScript = Ok 1
  ∧ requests st'
    = [ lit "https://x.test/app.js"; lit "https://x.test/b.js";
        lit "https://api.allorigins.win/get?url=https://x.test/b.js";
        lit "https://x.test/a.js" ]
  ∧ Map_keys (downloadedFiles st') = [lit "app.js"; lit "sources/a.js"]
  ∧ content <$> Map_get (downloadedFiles st') (lit "sources/a.js")
    = Some (Text (lit "let a;")).
Proof. vm_compute. split_and!; reflexivity. Qed.

(** ** The catalog never holds a name twice *)

(** Every insertion goes through [Map.prototype.set], so the keys stay
    pairwise distinct, whichever variant inserts; and the embedded
    branch of [extractSourceFilesAdvanced], the one insertion that
    renames, keeps every record that was there. *)
Lemma catalog_names_unique filename fileData st :
  NoDup (Map_keys (downloadedFiles st)) →
  NoDup (Map_keys (downloadedFiles (exec (Downloader.saveFile filename fileData) st))).
Proof. intros H. cbn. by apply NoDup_keys_set. Qed.

Lemma extractEmbedded_keeps_records srcs conts n i st k v :
  Map_get (downloadedFiles st) k = Some v →
  Map_get (downloadedFiles (exec (Advanced.extractEmbedded srcs conts n i) st)) k
  = Some v.
Proof.
  intros Hk. unfold exec, Advanced.extractEmbedded.
  destruct (mjoin (conts !! i)) as [c|]; [|done].
  destruct (mjoin (srcs !! i)) as [p|]; [|done].
  destruct (truthy c && truthy p); [|done]. cbn zeta.
  destruct (Advanced.isNoise _); [done|].
  destruct (Advanced.isInvalidPath _); [done|].
  cbn. by apply set_final_preserves.
Qed.

(** * Further properties of the refactored downloader *)

(** A site on which a whole run succeeds: the page of [Demo], its
    script with a source-map comment, its style sheet and the map with
    embedded contents. *)

Module Site.

Definition script : jsstring :=
  lit "let a;" ++ [10%N] ++ lit "//# sourceMappingURL=a.js.map".

Definition served (headers : list (jsstring * jsstring)) (body : jsstring)
  : FetchOutcome :=
  Responded (mkPlatformResponse true 200 headers (Ok body) (Some body)
               (Throw (lit "SyntaxError"))).

Definition fetch (n : nat) (u : jsstring) : FetchOutcome :=
  if JS.eqb u Demo.root then
    served [(lit "content-type", lit "text/html")] Demo.html
  else if JS.eqb u (lit "https://x.test/a.js") then
    served [(lit "content-type", lit "application/javascript")] script
  else if JS.eqb u (lit "https://x.test/b.css") then
    served [(lit "content-type", lit "text/css")] (lit "p{}")
  else if JS.eqb u (lit "https://x.test/a.js.map") then
    served [(lit "content-type", lit "application/json")] Demo.embeddedMap
  else Rejected (lit "Failed to fetch").

Definition env : Env :=
  mkEnv fetch (λ _, false) (λ _, 0) Ok id (default [])
        Demo.URL_new Demo.JSON_parse Demo.DOMParser_parse.

(** The same site with the stop button pressed during request [n]. *)
Definition envStoppedAt (n : nat) : Env :=
  mkEnv fetch (λ k, bool_decide (k = n)) (λ _, 0) Ok id (default [])
        Demo.URL_new Demo.JSON_parse Demo.DOMParser_parse.

End Site.

(** The run on that site: six records, two of them sources. *)
Example site_run :
  let st := exec (Downloader.startDownload Site.env Demo.root) Demo.fresh in
  Map_keys (downloadedFiles st)
  = [lit "index.html"; lit "a.js"; lit "b.css"; lit "a.js.map"; lit "src/a.js";
     lit "src/b.js"]
  ∧ requests st
    = [Demo.root; lit "https://x.test/a.js"; lit "https://x.test/b.css";
       lit "https://x.test/a.js.map"]
  ∧ stats st = mkStats 6 2 1 1 0 161.
Proof. vm_compute. split_and!; reflexivity. Qed.


(** ** Running the monad *)

Section MonadFacts.

Context {A B : Type}.

Lemma exec_bind (m : M A) (f : A → M B) st :
  exec (bind m f) st
  = match m st with
    | (Ok a, st1) => exec (f a) st1
    | (Throw _, st1) => st1
    end.
Proof. unfold exec, bind. by destruct (m st) as [[a|e] st1]. Qed.

Lemma eval_bind (m : M A) (f : A → M B) st :
  eval (bind m f) st
  = match m st with
    | (Ok a, st1) => eval (f a) st1
    | (Throw e, _) => Throw e
    end.
Proof. unfold eval, bind. by destruct (m st) as [[a|e] st1]. Qed.

Lemma exec_try_catch (m : M A) (h : jsstring → M A) st :
  exec (try_catch m h) st
  = match m st with
    | (Ok _, st1) => st1
    | (Throw e, st1) => exec (h e) st1
    end.
Proof. unfold exec, try_catch. by destruct (m st) as [[a|e] st1]. Qed.

End MonadFacts.

(** A loop of the three later phases: the flag is read before each
    unit, and an exception of the unit is logged and dropped. *)
Definition guardedLoop {A} (work : A → M unit) (xs : list A) : M unit :=
  forOf xs
    (λ x, do active <- gets isDownloading ;;
          if negb active then ret false
          else run try_catch (work x) (λ _, ret tt) ;; ret true).

Lemma guardedLoop_nil {A} (work : A → M unit) st :
  guardedLoop work [] st = (Ok tt, st).
Proof. reflexivity. Qed.

Lemma guardedLoop_cons {A} (work : A → M unit) x xs st :
  guardedLoop work (x :: xs) st
  = if isDownloading st then guardedLoop work xs (exec (work x) st)
    else (Ok tt, st).
Proof.
  destruct (isDownloading st) eqn:Hflag.
  - by apply forOf_step.
  - by apply forOf_stopped.
Qed.

(** Such a loop never throws. *)
Lemma guardedLoop_returns {A} (work : A → M unit) xs st :
  eval (guardedLoop work xs) st = Ok tt.
Proof.
  revert st. induction xs as [|x xs IH]; intros st; [done|].
  unfold eval. rewrite guardedLoop_cons. destruct (isDownloading st); [|done].
  apply IH.
Qed.

Lemma downloadStaticResources_loop env urls :
  Downloader.downloadStaticResources env urls
  = guardedLoop (Downloader.downloadSingleResource env) urls.
Proof. reflexivity. Qed.

(** The unit of the fourth phase. *)
Definition mapUnit (env : Env) (entry : jsstring * FileData) : M unit :=
  match Downloader.findSourceMapUrl env entry.2 with
  | Some sourceMapUrl =>
      if truthy sourceMapUrl then
        run Downloader.processSourceMap env sourceMapUrl entry.1 ;; ret tt
      else ret tt
  | None => ret tt
  end.

Lemma processSourceMaps_loop env st :
  Downloader.processSourceMaps env st
  = guardedLoop (mapUnit env)
      (filter (λ e, Downloader.isJavaScriptFile e.1 e.2 = true) (downloadedFiles st))
      st.
Proof. reflexivity. Qed.

(** The endpoints that [extractEndpointsFromCode] reports in [st]. *)
Definition endpointsOf (env : Env) (st : Session) : JSSet :=
  match eval (Downloader.extractEndpointsFromCode env) st with
  | Ok endpoints => endpoints
  | Throw _ => []
  end.

Lemma findDynamicResources_loop env st :
  Downloader.findDynamicResources env st
  = guardedLoop (Downloader.downloadSingleResource env) (endpointsOf env st) st.
Proof. reflexivity. Qed.

(** ** What a run can change

    Every change of the session during [executeDownloadProcess] is one
    of three steps: a request settles, [saveFile] stores a record whose
    URL (if it has one) has been requested, or a requested URL is
    marked as downloaded.  A preorder that these three steps respect
    therefore relates the session before each method to the session
    after it. *)

Section Frame.

Context (env : Env) (R : relation Session) `{HPre : !PreOrder R}.

Hypothesis R_awaited : ∀ u st, R st (awaited env u st).
Hypothesis R_saved : ∀ filename fileData st,
  (∀ u, url fileData = Some u → u ∈ requests st) →
  R st (saved filename fileData st).
Hypothesis R_marked : ∀ u st,
  u ∈ requests st → R st (set_urls (λ urls, Set_add urls u) st).

Lemma frame_guardedLoop {A} (work : A → M unit) xs st :
  (∀ x st1, R st1 (exec (work x) st1)) → R st (exec (guardedLoop work xs) st).
Proof using HPre.
  intros Hwork. revert st. induction xs as [|x xs IH]; intros st; [done|].
  unfold exec. rewrite guardedLoop_cons. destruct (isDownloading st); [|done].
  etrans; [apply (Hwork x)|apply IH].
Qed.

Lemma frame_fetchWithCORS url st :
  R st (exec (Downloader.fetchWithCORS env url) st)
  ∧ url ∈ requests (exec (Downloader.fetchWithCORS env url) st).
Proof using R_awaited HPre.
  unfold exec. rewrite fetchWithCORS_run.
  destruct (directOk env url st) as [r|]; cbn [snd].
  - split; [apply R_awaited|]. rewrite requests_awaited. apply elem_of_app. right.
    apply list_elem_of_here.
  - unfold relayOutcome. destruct (encodeURIComponent env url) as [e|m]; cbn [snd].
    + split; [etrans; apply R_awaited|]. rewrite !requests_awaited.
      apply elem_of_app. left. apply elem_of_app. right. apply list_elem_of_here.
    + split; [apply R_awaited|]. rewrite requests_awaited. apply elem_of_app.
      right. apply list_elem_of_here.
Qed.

Lemma frame_generateFilename url contentType st :
  exec (Downloader.generateFilename env url contentType) st = st.
Proof.
  destruct (generateFilename_run env url contentType st) as [f Hf].
  unfold exec. by rewrite Hf.
Qed.

Lemma frame_downloadMainPage targetUrl st :
  R st (exec (Downloader.downloadMainPage env targetUrl) st).
Proof using R_awaited R_saved HPre.
  unfold Downloader.downloadMainPage. rewrite exec_try_catch.
  unfold bind at 1.
  destruct (frame_fetchWithCORS targetUrl st) as [HR Hreq]. unfold exec in HR, Hreq.
  destruct (Downloader.fetchWithCORS env targetUrl st) as [[response|m] st1];
    cbn [snd] in *; [|done].
  unfold bind at 1, liftR. destruct (text response) as [[html|]|m]; try done.
  cbn. etrans; [exact HR|]. apply R_saved. by intros u [= <-].
Qed.

Lemma frame_downloadSingleResource url st :
  R st (exec (Downloader.downloadSingleResource env url) st).
Proof using R_awaited R_saved R_marked HPre.
  destruct (Set_has (downloadedUrls st) url) eqn:Hseen.
  { unfold exec. by rewrite downloadSingleResource_seen. }
  destruct (downloadSingleResource_run env url st Hseen) as [f Hrun].
  unfold exec. rewrite Hrun.
  destruct (frame_fetchWithCORS url st) as [HR Hreq]. unfold exec in HR, Hreq.
  destruct (Downloader.fetchWithCORS env url st) as [[response|m] st1];
    cbn [snd] in *; [|done].
  cbn zeta. destruct (Downloader.getResponseContent _ _) as [[content|]|m]; try done.
  cbn [snd]. etrans; [exact HR|]. etrans; [|apply R_marked; exact Hreq].
  apply R_saved. intros u Hu. cbn in Hu. by injection Hu as <-.
Qed.

Lemma frame_savedAll ws st :
  (∀ w, w ∈ ws → url w.2 = None) → R st (savedAll ws st).
Proof using R_saved HPre.
  revert st. induction ws as [|w ws IH]; intros st Hws; [done|].
  cbn [savedAll foldl]. etrans.
  - apply (R_saved w.1 w.2). rewrite (Hws w) by apply list_elem_of_here. done.
  - apply IH. intros w' Hw'. apply Hws. by apply list_elem_of_further.
Qed.

Lemma frame_extractSourceFilesFromMap mapContent jsFilename st :
  R st (exec (Downloader.extractSourceFilesFromMap env mapContent jsFilename) st).
Proof using R_saved HPre.
  destruct (JSON_parse env mapContent) as [sm|m] eqn:Hp.
  2:{ unfold exec, Downloader.extractSourceFilesFromMap, try_catch, bind, liftR.
      by rewrite Hp. }
  destruct (sources sm) as [srcs|] eqn:Hs.
  2:{ unfold exec, Downloader.extractSourceFilesFromMap, try_catch, bind, liftR.
      by rewrite Hp, Hs. }
  destruct (sourcesContent sm) as [conts|] eqn:Hc.
  2:{ unfold exec, Downloader.extractSourceFilesFromMap, try_catch, bind, liftR.
      by rewrite Hp, Hs, Hc. }
  unfold exec. rewrite (extractSourceFilesFromMap_run env _ _ sm srcs conts) by done.
  apply frame_savedAll. intros [k v] Hw.
  apply elem_of_writes in Hw as (i & p & c & _ & _ & _ & _ & ->). done.
Qed.

Lemma frame_processSourceMap sourceMapUrl jsFilename st :
  R st (exec (Downloader.processSourceMap env sourceMapUrl jsFilename) st).
Proof using R_awaited R_saved HPre.
  unfold Downloader.processSourceMap. rewrite exec_try_catch.
  unfold bind at 1.
  destruct (frame_fetchWithCORS sourceMapUrl st) as [HR Hreq]. unfold exec in HR, Hreq.
  destruct (Downloader.fetchWithCORS env sourceMapUrl st) as [[response|m] st1];
    cbn [snd] in *; [|done].
  unfold bind at 1, liftR. destruct (text response) as [[mapContent|]|m]; try done.
  - unfold bind at 1.
    destruct (generateFilename_run env sourceMapUrl (lit "application/json") st1)
      as [f ->].
    unfold bind at 1. rewrite saveFile_run.
    pose proof (frame_extractSourceFilesFromMap mapContent jsFilename
                  (saved f (mkFileData (Text mapContent) (length mapContent)
                              (lit "sourcemap") (Some sourceMapUrl)
                              (Some (lit "application/json")) None) st1)) as Hx.
    unfold exec in Hx.
    destruct (Downloader.extractSourceFilesFromMap _ _ _ _) as [[n|m] st2];
      cbn [snd] in *; (etrans; [exact HR|]); (etrans; [|exact Hx]);
      apply R_saved; intros u Hu; cbn in Hu; by injection Hu as <-.
  - unfold bind at 1.
    destruct (generateFilename_run env sourceMapUrl (lit "application/json") st1)
      as [f ->]. done.
Qed.

Lemma frame_mapUnit entry st : R st (exec (mapUnit env entry) st).
Proof using R_awaited R_saved HPre.
  unfold mapUnit. destruct (Downloader.findSourceMapUrl env entry.2) as [u|]; [|done].
  destruct (truthy u); [|done]. rewrite exec_bind.
  pose proof (frame_processSourceMap u entry.1 st) as Hx. unfold exec in Hx.
  by destruct (Downloader.processSourceMap env u entry.1 st) as [[n|m] st1].
Qed.

Lemma frame_extractStaticResources html baseUrl st :
  exec (Downloader.extractStaticResources env html baseUrl) st = st.
Proof.
  unfold exec, Downloader.extractStaticResources.
  by destruct (URL_new env baseUrl None).
Qed.

(** The whole process. *)
Lemma frame_executeDownloadProcess targetUrl st :
  R st (exec (Downloader.executeDownloadProcess env targetUrl) st).
Proof using R_awaited R_saved R_marked HPre.
  unfold Downloader.executeDownloadProcess. rewrite exec_bind.
  pose proof (frame_downloadMainPage targetUrl st) as H1. unfold exec in H1.
  destruct (Downloader.downloadMainPage env targetUrl st) as [[html|m] st1];
    cbn [snd] in H1; [|done].
  rewrite exec_bind.
  pose proof (frame_extractStaticResources html targetUrl st1) as H2.
  unfold exec in H2.
  destruct (Downloader.extractStaticResources env html targetUrl st1)
    as [[urls|m] st2]; cbn [snd] in H2; subst st2; [|done].
  etrans; [exact H1|]. rewrite exec_bind.
  pose proof (frame_guardedLoop (Downloader.downloadSingleResource env) urls st1
                frame_downloadSingleResource) as H3.
  pose proof (guardedLoop_returns (Downloader.downloadSingleResource env) urls st1)
    as E3.
  rewrite <- downloadStaticResources_loop in H3, E3. unfold exec, eval in H3, E3.
  destruct (Downloader.downloadStaticResources env urls st1) as [[[]|m] st3];
    cbn [fst snd] in *; [|done].
  etrans; [exact H3|]. rewrite exec_bind, processSourceMaps_loop.
  pose proof (frame_guardedLoop (mapUnit env)
                (filter (λ e, Downloader.isJavaScriptFile e.1 e.2 = true)
                        (downloadedFiles st3)) st3 frame_mapUnit) as H4.
  unfold exec in H4.
  destruct (guardedLoop (mapUnit env) _ st3) as [[[]|m] st4]; cbn [snd] in *;
    [|done].
  etrans; [exact H4|]. unfold exec. rewrite findDynamicResources_loop.
  apply frame_guardedLoop, frame_downloadSingleResource.
Qed.

End Frame.

(** ** The counters of [saveFile] cover the catalog *)

(** The sum of the [size] fields of the records. *)
Definition catalogSize (files : JSMap FileData) : nat :=
  foldr (λ e n, size e.2 + n) 0 files.

(** The counters are never below what the catalog holds. *)
Definition statsCover (st : Session) : Prop :=
  length (downloadedFiles st) ≤ totalFiles (stats st)
  ∧ sourceFiles (stats st) + jsFiles (stats st) + cssFiles (stats st)
    + imageFiles (stats st) ≤ totalFiles (stats st)
  ∧ catalogSize (downloadedFiles st) ≤ totalSize (stats st).

Lemma Map_set_length {V} (m : JSMap V) k v :
  length (Map_set m k v) ≤ S (length m).
Proof.
  induction m as [|[k' v'] m IH]; cbn [Map_set length]; [lia|].
  destruct (JS.eqb k' k); cbn [length]; lia.
Qed.





#[local] Instance statsCover_preorder :
  PreOrder (λ st st', statsCover st → statsCover st').
Proof. split; [by intros st|intros st1 st2 st3 H1 H2 H; auto]. Qed.


(** What [startDownload] does with an input that passes
    [validateInput]. *)
Lemma startDownload_run env value st :
  Downloader.validateInput env (trim value) = true →
  Downloader.startDownload env value st
  = (Ok tt,
     set_flag false
       (exec (Downloader.executeDownloadProcess env (trim value))
             (exec (Downloader.initializeDownload (trim value)) st))).
Proof.
  intros Hv. unfold Downloader.startDownload. cbn zeta. rewrite Hv. cbn [negb].
  unfold bind at 1.
  change (Downloader.initializeDownload (trim value) st)
    with (Ok tt, exec (Downloader.initializeDownload (trim value)) st).
  cbn iota beta. unfold bind at 1, try_catch, exec.
  by destruct (Downloader.executeDownloadProcess env (trim value) _) as [[[]|m] st1].
Qed.



(** ** A run only adds *)

(** Nothing is taken away between [st] and [st']: every name of the
    catalog is still there, every URL marked as downloaded is still
    marked, the requests issued so far are still the first ones issued,
    a lowered flag is still down, and the counters of files and of
    bytes have not decreased. *)
Definition grows (st st' : Session) : Prop :=
  (∀ k, Map_has (downloadedFiles st) k = true →
        Map_has (downloadedFiles st') k = true)
  ∧ (∀ u, u ∈ downloadedUrls st → u ∈ downloadedUrls st')
  ∧ requests st `prefix_of` requests st'
  ∧ (isDownloading st = false → isDownloading st' = false)
  ∧ totalFiles (stats st) ≤ totalFiles (stats st')
  ∧ totalSize (stats st) ≤ totalSize (stats st').

#[local] Instance grows_preorder : PreOrder grows.
Proof.
  split.
  - intros st. unfold grows. split_and!; auto.
  - intros st1 st2 st3 (Hf & Hu & Hr & Hd & Hn & Hs) (Hf' & Hu' & Hr' & Hd' & Hn' & Hs').
    unfold grows. split_and!; auto; [by etrans|lia|lia].
Qed.

Lemma elem_of_Set_add (s : JSSet) (x u : jsstring) :
  u ∈ Set_add s x ↔ u ∈ s ∨ u = x.
Proof.
  unfold Set_add, Set_has. case_bool_decide as Hx.
  - split; [auto|]. by intros [?| ->].
  - rewrite elem_of_app, list_elem_of_singleton. done.
Qed.






(** ** Every recorded URL has been requested *)

Definition requested (st : Session) : Prop :=
  (∀ u, u ∈ downloadedUrls st → u ∈ requests st)
  ∧ (∀ k v u, Map_get (downloadedFiles st) k = Some v → url v = Some u →
              u ∈ requests st).

#[local] Instance requested_preorder :
  PreOrder (λ st st', requested st → requested st').
Proof. split; [by intros st|intros st1 st2 st3 H1 H2 H; auto]. Qed.

Lemma requested_awaited env u st : requested st → requested (awaited env u st).
Proof.
  intros [Hu Hf].
  assert (∀ x, x ∈ requests st → x ∈ requests (awaited env u st)) as Hmono.
  { intros x Hx. rewrite requests_awaited. apply elem_of_app. by left. }
  split.
  - intros x Hx. rewrite downloadedUrls_awaited in Hx. auto.
  - intros k v x Hk Hx. rewrite downloadedFiles_awaited in Hk. eauto.
Qed.

Lemma requested_saved filename fileData st :
  (∀ u, url fileData = Some u → u ∈ requests st) →
  requested st → requested (saved filename fileData st).
Proof.
  intros Hd [Hu Hf]. split; [exact Hu|].
  intros k v x Hk Hx. unfold saved in Hk. cbn in Hk.
  destruct (decide (k = filename)) as [->|Hne].
  - rewrite Map_get_set_eq in Hk. injection Hk as <-. by apply Hd.
  - rewrite Map_get_set_ne in Hk by done. by eapply Hf.
Qed.

Lemma requested_marked u st :
  u ∈ requests st → requested st →
  requested (set_urls (λ urls, Set_add urls u) st).
Proof.
  intros Hreq [Hu Hf]. split; [|exact Hf].
  intros x [Hx| ->]%elem_of_Set_add; [by apply Hu|exact Hreq].
Qed.

Lemma requested_executeDownloadProcess env targetUrl st :
  requested st →
  requested (exec (Downloader.executeDownloadProcess env targetUrl) st).
Proof.
  apply (frame_executeDownloadProcess env (λ st st', requested st → requested st')).
  - apply requested_awaited.
  - apply requested_saved.
  - apply requested_marked.
Qed.

(** X3.  When [startDownload] has run on a valid input, every URL marked as
    downloaded and the URL of every record of the catalog is a URL that
    has been passed to [fetch]. *)
Theorem startDownload_records_requested env value st :
  Downloader.validateInput env (trim value) = true →
  requested (exec (Downloader.startDownload env value) st).
Proof.
  intros Hv. unfold exec at 1. rewrite startDownload_run by done. cbn [snd].
  assert (∀ s, requested s → requested (set_flag false s)) as Hflag by done.
  apply Hflag, requested_executeDownloadProcess.
  split; [by intros u Hu%elem_of_nil|by intros k v u Hk].
Qed.

Lemma startDownload_records_requested_witness :
  requested (exec (Downloader.startDownload Site.env Demo.root) Demo.withScript).
Proof.
  apply (startDownload_records_requested Site.env Demo.root Demo.withScript).
  vm_compute. reflexivity.
Defined.

(** ** How far a run goes after the stop button *)

Section StopBound.

Context (env : Env).

(** A unit of work issues at most two requests, and leaves the flag
    down when it found it down or when stop was pressed during one of
    its requests. *)
Definition unitBound {A} (m : M A) : Prop :=
  ∀ st,
    length (requests (exec m st)) ≤ length (requests st) + 2
    ∧ (isDownloading st = false ∨ stoppedBetween env st (exec m st) →
       isDownloading (exec m st) = false).

(** The same requests and the same flag. *)
Definition quiet (st st' : Session) : Prop :=
  requests st' = requests st ∧ isDownloading st' = isDownloading st.

#[local] Instance quiet_preorder : PreOrder quiet.
Proof.
  split; [by intros st|].
  intros st1 st2 st3 [H1 H2] [H3 H4]. split; congruence.
Qed.

Lemma quiet_extractSourceFilesFromMap mapContent jsFilename st :
  quiet st (exec (Downloader.extractSourceFilesFromMap env mapContent jsFilename) st).
Proof. apply (frame_extractSourceFilesFromMap env quiet). by intros. Qed.

Lemma unitBound_quiet {A} (m : M A) st st' :
  quiet (exec m st) st' →
  length (requests (exec m st)) ≤ length (requests st) + 2
  ∧ (isDownloading st = false ∨ stoppedBetween env st (exec m st) →
     isDownloading (exec m st) = false) →
  length (requests st') ≤ length (requests st) + 2
  ∧ (isDownloading st = false ∨ stoppedBetween env st st' →
     isDownloading st' = false).
Proof.
  intros [Hr Hf] [Hlen Hflag]. rewrite Hr, Hf. split; [done|].
  intros [?|(n & Hn & Hc)]; apply Hflag; [by left|right].
  exists n. by rewrite <- Hr.
Qed.

Lemma unitBound_fetchWithCORS url : unitBound (Downloader.fetchWithCORS env url).
Proof.
  intros st. split; [|apply (fetchWithCORS_effect env url st)].
  unfold exec. rewrite fetchWithCORS_run.
  destruct (directOk env url st) as [r|]; cbn [snd].
  - rewrite requests_awaited, length_app. cbn [length]. lia.
  - unfold relayOutcome. destruct (encodeURIComponent env url); cbn [snd];
      rewrite !requests_awaited, !length_app; cbn [length]; lia.
Qed.

Lemma unitBound_downloadMainPage targetUrl :
  unitBound (Downloader.downloadMainPage env targetUrl).
Proof.
  intros st. eapply unitBound_quiet; [|apply (unitBound_fetchWithCORS targetUrl st)].
  unfold Downloader.downloadMainPage. rewrite exec_try_catch. unfold bind at 1, exec.
  destruct (Downloader.fetchWithCORS env targetUrl st) as [[response|m] st1];
    cbn [snd]; [|done].
  unfold bind at 1, liftR. by destruct (text response) as [[html|]|m].
Qed.

Lemma unitBound_downloadSingleResource url :
  unitBound (Downloader.downloadSingleResource env url).
Proof.
  intros st. destruct (Set_has (downloadedUrls st) url) eqn:Hseen.
  { unfold exec. rewrite downloadSingleResource_seen by done. cbn [snd].
    split; [lia|]. intros [?|(n & Hn & _)]; [done|lia]. }
  eapply unitBound_quiet; [|apply (unitBound_fetchWithCORS url st)].
  destruct (downloadSingleResource_run env url st Hseen) as [f Hrun].
  unfold exec. rewrite Hrun.
  destruct (Downloader.fetchWithCORS env url st) as [[response|m] st1];
    cbn [snd]; [|done].
  cbn zeta. by destruct (Downloader.getResponseContent _ _) as [[content|]|m].
Qed.

Lemma unitBound_processSourceMap sourceMapUrl jsFilename :
  unitBound (Downloader.processSourceMap env sourceMapUrl jsFilename).
Proof.
  intros st.
  eapply unitBound_quiet; [|apply (unitBound_fetchWithCORS sourceMapUrl st)].
  unfold Downloader.processSourceMap. rewrite exec_try_catch. unfold bind at 1, exec.
  destruct (Downloader.fetchWithCORS env sourceMapUrl st) as [[response|m] st1];
    cbn [snd]; [|done].
  unfold bind at 1, liftR. destruct (text response) as [[mapContent|]|m]; try done.
  - unfold bind at 1.
    destruct (generateFilename_run env sourceMapUrl (lit "application/json") st1)
      as [f ->].
    unfold bind at 1. rewrite saveFile_run.
    pose proof (quiet_extractSourceFilesFromMap mapContent jsFilename
                  (saved f (mkFileData (Text mapContent) (length mapContent)
                              (lit "sourcemap") (Some sourceMapUrl)
                              (Some (lit "application/json")) None) st1)) as Hx.
    unfold exec in Hx.
    by destruct (Downloader.extractSourceFilesFromMap _ _ _ _) as [[n|m] st2].
  - unfold bind at 1.
    by destruct (generateFilename_run env sourceMapUrl (lit "application/json") st1)
      as [f ->].
Qed.

Lemma unitBound_mapUnit entry : unitBound (mapUnit env entry).
Proof.
  intros st. unfold mapUnit.
  destruct (Downloader.findSourceMapUrl env entry.2) as [u|].
  2:{ split; [cbn; lia|]. intros [?|(n & Hn & _)]; [done|cbn in Hn; lia]. }
  destruct (truthy u).
  2:{ split; [cbn; lia|]. intros [?|(n & Hn & _)]; [done|cbn in Hn; lia]. }
  pose proof (unitBound_processSourceMap u entry.1 st) as Hx.
  rewrite exec_bind. unfold exec in Hx.
  by destruct (Downloader.processSourceMap env u entry.1 st) as [[n|m] st1].
Qed.

Context (n : nat) (Hclick : stopClicked env n = true).

(** At most one request has been issued after request [n], and if
    request [n] has been issued the flag is down. *)
Definition stopped (st : Session) : Prop :=
  length (requests st) ≤ n + 2
  ∧ (n < length (requests st) → isDownloading st = false).

Lemma stopped_unit {A} (m : M A) st :
  unitBound m → length (requests st) ≤ n → stopped (exec m st).
Proof using Hclick.
  intros Hm Hlen. destruct (Hm st) as [Hb Hflag]. split; [lia|].
  intros Hn. apply Hflag. right. exists n. split; [lia|done].
Qed.

Lemma stopped_guardedLoop {A} (work : A → M unit) xs st :
  (∀ x, unitBound (work x)) → stopped st → stopped (exec (guardedLoop work xs) st).
Proof using Hclick.
  intros Hwork. revert st. induction xs as [|x xs IH]; intros st Hst; [done|].
  unfold exec. rewrite guardedLoop_cons.
  destruct (isDownloading st) eqn:Hflag; [|done].
  apply IH, stopped_unit; [done|]. destruct Hst as [_ Hdown].
  destruct (decide (n < length (requests st))) as [Hn|]; [|lia].
  apply Hdown in Hn. congruence.
Qed.

Lemma stopped_executeDownloadProcess targetUrl st :
  length (requests st) ≤ n →
  stopped (exec (Downloader.executeDownloadProcess env targetUrl) st).
Proof using Hclick.
  intros Hlen. unfold Downloader.executeDownloadProcess. rewrite exec_bind.
  pose proof (stopped_unit _ st (unitBound_downloadMainPage targetUrl) Hlen) as H1.
  unfold exec in H1.
  destruct (Downloader.downloadMainPage env targetUrl st) as [[html|m] st1];
    cbn [snd] in H1; [|done].
  rewrite exec_bind.
  pose proof (frame_extractStaticResources env html targetUrl st1) as H2.
  unfold exec in H2.
  destruct (Downloader.extractStaticResources env html targetUrl st1)
    as [[urls|m] st2]; cbn [snd] in H2; subst st2; [|done].
  rewrite exec_bind.
  pose proof (stopped_guardedLoop (Downloader.downloadSingleResource env) urls st1
                unitBound_downloadSingleResource H1) as H3.
  rewrite <- downloadStaticResources_loop in H3. unfold exec in H3.
  destruct (Downloader.downloadStaticResources env urls st1) as [[[]|m] st3];
    cbn [snd] in *; [|done].
  rewrite exec_bind, processSourceMaps_loop.
  pose proof (stopped_guardedLoop (mapUnit env)
                (filter (λ e, Downloader.isJavaScriptFile e.1 e.2 = true)
                        (downloadedFiles st3)) st3 unitBound_mapUnit H3) as H4.
  unfold exec in H4.
  destruct (guardedLoop (mapUnit env) _ st3) as [[[]|m] st4]; cbn [snd] in *;
    [|done].
  unfold exec. rewrite findDynamicResources_loop.
  by apply stopped_guardedLoop; [apply unitBound_downloadSingleResource|].
Qed.

End StopBound.

(** X4.  If the stop button is pressed while request number [n] of the
    session is pending, the whole of [executeDownloadProcess] issues at
    most one request after that one (the relay retry of the unit in
    flight), and once request [n] has been issued the flag is down
    when the process ends. *)
Theorem stop_bounds_requests env targetUrl n st :
  stopClicked env n = true →
  length (requests st) ≤ n →
  let st' := exec (Downloader.executeDownloadProcess env targetUrl) st in
  length (requests st') ≤ n + 2
  ∧ (n < length (requests st') → isDownloading st' = false).
Proof. intros Hclick Hlen. by apply stopped_executeDownloadProcess. Qed.

Lemma stop_bounds_requests_witness :
  let st' := exec (Downloader.executeDownloadProcess (Site.envStoppedAt 1) Demo.root)
                  Demo.fresh in
  length (requests st') ≤ 1 + 2
  ∧ (1 < length (requests st') → isDownloading st' = false).
Proof.
  apply (stop_bounds_requests (Site.envStoppedAt 1) Demo.root 1 Demo.fresh).
  - reflexivity.
  - cbn. lia.
Defined.

(** ** What makes a run fail *)

Lemma downloadMainPage_failure env targetUrl st m st' :
  Downloader.downloadMainPage env targetUrl st = (Throw m, st') →
  (∃ m', m = lit "Failed to download main page: " ++ m')
  ∧ downloadedFiles st' = downloadedFiles st
  ∧ stats st' = stats st.
Proof.
  unfold Downloader.downloadMainPage, try_catch, bind at 1.
  pose proof (fetchWithCORS_effect env targetUrl st) as (Hf & _ & Hs & _).
  destruct (Downloader.fetchWithCORS env targetUrl st) as [[response|e] st1];
    cbn [snd] in *.
  2:{ intros [= <- <-]. eauto. }
  unfold bind at 1, liftR.
  destruct (text response) as [[html|]|e]; cbn; intros [= <- <-]; eauto.
Qed.

(** X5.  A failure in a resource, a source map or a dynamic endpoint never
    aborts the run.  For a target that [isValidUrl] accepts,
    [executeDownloadProcess] returns whenever the main page has been
    downloaded, and otherwise throws the error of [downloadMainPage],
    whose message starts with "Failed to download main page: ", having
    stored nothing. *)
Theorem executeDownloadProcess_outcome env targetUrl st :
  Downloader.isValidUrl env targetUrl = true →
  match eval (Downloader.downloadMainPage env targetUrl) st with
  | Ok _ => eval (Downloader.executeDownloadProcess env targetUrl) st = Ok tt
  | Throw m =>
      eval (Downloader.executeDownloadProcess env targetUrl) st = Throw m
      ∧ (∃ m', m = lit "Failed to download main page: " ++ m')
      ∧ downloadedFiles (exec (Downloader.executeDownloadProcess env targetUrl) st)
        = downloadedFiles st
      ∧ stats (exec (Downloader.executeDownloadProcess env targetUrl) st) = stats st
  end.
Proof.
  intros Hvalid. unfold Downloader.executeDownloadProcess.
  rewrite eval_bind, exec_bind.
  pose proof (downloadMainPage_failure env targetUrl st) as H1. unfold eval at 1.
  destruct (Downloader.downloadMainPage env targetUrl st) as [[html|m] st1];
    cbn [fst snd]; [clear H1|exact (conj eq_refl (H1 m st1 eq_refl))].
  rewrite eval_bind. unfold Downloader.extractStaticResources.
  unfold Downloader.isValidUrl in Hvalid.
  destruct (URL_new env targetUrl None) as [base|]; [|done].
  cbn iota beta zeta. unfold ret at 1. cbn iota beta. rewrite eval_bind.
  pose proof (guardedLoop_returns (Downloader.downloadSingleResource env)) as H3.
  unfold eval in H3. rewrite downloadStaticResources_loop.
  match goal with
  | |- context [guardedLoop ?w ?xs ?s] =>
      specialize (H3 xs s); destruct (guardedLoop w xs s) as [[[]|m] st3]
  end; cbn [fst] in H3; [|done].
  rewrite eval_bind, processSourceMaps_loop.
  pose proof (guardedLoop_returns (mapUnit env)) as H4. unfold eval in H4.
  match goal with
  | |- context [guardedLoop ?w ?xs ?s] =>
      specialize (H4 xs s); destruct (guardedLoop w xs s) as [[[]|m] st4]
  end; cbn [fst] in H4; [|done].
  unfold eval. rewrite findDynamicResources_loop. apply guardedLoop_returns.
Qed.

Lemma executeDownloadProcess_outcome_witness :
  eval (Downloader.executeDownloadProcess Site.env Demo.root) Demo.fresh = Ok tt.
Proof.
  exact (executeDownloadProcess_outcome Site.env Demo.root Demo.fresh eq_refl).
Defined.

(** ** Downloading a resource once *)


(** ** Which references of a page become resource URLs *)


Section References.

Context (env : Env).





End References.


(** ** File names *)

(** A character that is none of the seven that the last replacement
    of [generateFilename] and [cleanSourcePath] removes. *)
Definition safeb (c : N) : bool :=
  negb (existsb (N.eqb c) Downloader.invalidChars).

Definition allSafe (s : jsstring) : Prop := forallb safeb s = true.

Lemma allSafe_app s t : allSafe (s ++ t) ↔ allSafe s ∧ allSafe t.
Proof. unfold allSafe. rewrite forallb_app. apply andb_true_iff. Qed.

Lemma allSafe_Forall s :
  allSafe s → Forall (λ c, c ∉ Downloader.invalidChars) s.
Proof.
  unfold allSafe. rewrite forallb_forall, Forall_forall.
  intros H c Hc Hin. apply list_elem_of_In, H, negb_true_iff in Hc.
  assert (existsb (N.eqb c) Downloader.invalidChars = true); [|congruence].
  apply existsb_exists. exists c. split; [by apply list_elem_of_In|apply N.eqb_refl].
Qed.

Lemma invalid_named x :
  existsb (N.eqb x) Spec.named = existsb (N.eqb x) Downloader.invalidChars.
Proof. cbn. repeat (destruct (N.eqb x _); [done|]). done. Qed.

Lemma allSafe_replaceEach s : allSafe (Spec.replaceEach Spec.named 95 s).
Proof.
  unfold allSafe, Spec.replaceEach. induction s as [|x s IH]; [done|].
  cbn [fmap list_fmap forallb]. rewrite IH, andb_true_r.
  destruct (existsb (N.eqb x) Spec.named) eqn:E; [done|].
  unfold safeb. by rewrite <- invalid_named, E.
Qed.

Lemma replaceEach_safe s : allSafe s → Spec.replaceEach Spec.named 95 s = s.
Proof.
  unfold allSafe, Spec.replaceEach. induction s as [|x s IH]; [done|].
  cbn [fmap list_fmap forallb]. intros [Hx Hs]%andb_true_iff.
  rewrite IH by done. unfold safeb in Hx. apply negb_true_iff in Hx.
  by rewrite invalid_named, Hx.
Qed.

Lemma replaceEach_app cs c s t :
  Spec.replaceEach cs c (s ++ t) = Spec.replaceEach cs c s ++ Spec.replaceEach cs c t.
Proof. apply fmap_app. Qed.

Lemma pretty_N_go_safe x s : allSafe (lit s) → allSafe (lit (pretty_N_go x s)).
Proof.
  revert s. induction (N.lt_wf_0 x) as [x _ IH]; intros s Hs.
  destruct (decide (0 < x)%N) as [Hx|Hx].
  - rewrite pretty_N_go_step by done. apply IH; [by apply N.div_lt|].
    change (lit (String ?a ?s)) with ([N_of_ascii a] ++ lit s).
    apply allSafe_app. split; [|done].
    unfold pretty_N_char. by repeat case_match.
  - replace x with 0%N by lia. by rewrite pretty_N_go_0.
Qed.

Lemma ofNat_safe n : allSafe (ofNat n).
Proof.
  unfold ofNat, pretty, pretty_nat, pretty, pretty_N.
  case_decide; [done|]. by apply pretty_N_go_safe.
Qed.

Section FileNames.

Context (env : Env).

Lemma resourceBin_run st :
  ∃ filename,
    Downloader.resourceBin env st = (Ok filename, st)
    ∧ filename ≠ [] ∧ allSafe filename ∧ includes filename (lit ".") = true.
Proof.
  eexists. split; [reflexivity|]. split_and!.
  - done.
  - apply allSafe_app. split; [done|]. apply allSafe_app. split; [|done].
    apply ofNat_safe.
  - apply includes_app_l, includes_app_l. done.
Qed.

Lemma getExtensionFromContentType_cases contentType :
  Downloader.getExtensionFromContentType contentType
  ∈ [lit ".html"; lit ".css"; lit ".js"; lit ".json"; lit ".png"; lit ".jpg";
     lit ".gif"; lit ".svg"; lit ".bin"].
Proof.
  unfold Downloader.getExtensionFromContentType, Downloader.extensions.
  rewrite !filter_cons, filter_nil. cbn [fst].
  repeat case_decide; cbn [snd]; in_list.
Qed.

Lemma getExtensionFromContentType_dot contentType :
  ∃ ext, Downloader.getExtensionFromContentType contentType = lit "." ++ ext
         ∧ allSafe ext.
Proof.
  pose proof (getExtensionFromContentType_cases contentType) as H.
  repeat (apply elem_of_cons in H as [->|H]; [by eexists|]).
  by apply elem_of_nil in H.
Qed.

(** The pieces of a split hold the characters of the text only. *)
Lemma split_elem sep s w x : w ∈ split sep s → x ∈ w → x ∈ s.
Proof.
  revert w. induction s as [|y s IH]; intros w; cbn [split].
  - intros ->%list_elem_of_singleton []%elem_of_nil.
  - destruct (N.eqb y sep).
    + intros [->|Hw]%elem_of_cons Hx; [by apply elem_of_nil in Hx|].
      apply list_elem_of_further. by eapply IH.
    + destruct (split sep s) as [|w0 ws] eqn:E.
      * intros ->%list_elem_of_singleton Hx. apply list_elem_of_singleton in Hx.
        subst. apply list_elem_of_here.
      * intros [->|Hw]%elem_of_cons Hx.
        -- apply elem_of_cons in Hx as [->|Hx]; [apply list_elem_of_here|].
           apply list_elem_of_further. eapply IH; [apply list_elem_of_here|done].
        -- apply list_elem_of_further. eapply IH; [|done].
           by apply list_elem_of_further.
Qed.

(** A text without the separator is its own single piece. *)
Lemma split_none sep s : sep ∉ s → split sep s = [s].
Proof.
  induction s as [|y s IH]; [done|]. intros [Hy Hs]%not_elem_of_cons.
  cbn [split]. rewrite IH by done.
  destruct (N.eqb_spec y sep) as [->|]; [done|]. done.
Qed.

(** X8.  [generateFilename] always returns, without touching the session.
    The name is never empty and holds none of the seven characters
    of [invalidChars]; and when the path of the URL holds no question
    mark (as the path of a parsed URL never does), the name contains a
    dot: a name without an extension is given one. *)
Theorem generateFilename_safe url contentType st :
  ∃ filename,
    Downloader.generateFilename env url contentType st = (Ok filename, st)
    ∧ filename ≠ []
    ∧ Forall (λ c, c ∉ Downloader.invalidChars) filename
    ∧ (∀ urlObj, URL_new env url None = Some urlObj →
                 63%N ∉ pathname urlObj →
                 includes filename (lit ".") = true).
Proof.
  assert (∀ s, ∃ filename,
            Downloader.resourceBin env s = (Ok filename, s)
            ∧ filename ≠ []
            ∧ Forall (λ c, c ∉ Downloader.invalidChars) filename
            ∧ includes filename (lit ".") = true) as Hbin.
  { intros s. destruct (resourceBin_run s) as (f & ? & ? & ?%allSafe_Forall & ?).
    eauto 6. }
  unfold Downloader.generateFilename.
  destruct (URL_new env url None) as [urlObj|].
  2:{ destruct (Hbin st) as (f & ? & ? & ? & ?). exists f. split_and!; try done. }
  cbn zeta. destruct (_ || endsWith (pathname urlObj) (lit "/")).
  { unfold Downloader.getDefaultFilename.
    repeat case_match; eexists; (split; [reflexivity|]);
      (split_and!; [done|by apply allSafe_Forall|done]). }
  rewrite replaceAll_invalid.
  set (name := default [] (last (split 47 (pathname urlObj)))).
  set (hasExtension := includes name (lit ".")).
  match goal with
  | |- context [Spec.replaceEach Spec.named 95 ?f] => set (full := f)
  end.
  destruct (truthy (Spec.replaceEach Spec.named 95 full)) eqn:Hfull.
  2:{ destruct (Hbin st) as (f & ? & ? & ? & ?). exists f. split_and!; try done. }
  eexists. split; [reflexivity|]. split_and!.
  - intros E. by rewrite E in Hfull.
  - apply allSafe_Forall, allSafe_replaceEach.
  - intros ? [= <-] Hpath.
    assert (∀ x, x ∈ name → x ∈ pathname urlObj) as Hname.
    { intros x Hx. unfold name in Hx.
      destruct (last (split 47 (pathname urlObj))) as [w|] eqn:Hw;
        [|by apply elem_of_nil in Hx].
      eapply split_elem; [|exact Hx]. by eapply last_Some_elem_of. }
    subst full. destruct hasExtension eqn:Hext; cbn [negb andb].
    + rewrite andb_false_r. rewrite split_none.
      2:{ intros H. by apply Hpath, Hname. }
      cbn [head default]. unfold hasExtension in Hext.
      apply includes_spec in Hext as (a & b & ->).
      unfold id. rewrite !replaceEach_app. by apply includes_app_l, includes_app_r.
    + destruct (getExtensionFromContentType_dot contentType) as (ext & -> & Hsafe).
      rewrite !replaceEach_app. apply includes_app_l, includes_app_r. done.
Qed.

End FileNames.

(** ** What [cleanSourcePath] guarantees *)

Lemma Forall_allSafe s :
  Forall (λ c, c ∉ Downloader.invalidChars) s → allSafe s.
Proof.
  unfold allSafe. rewrite Forall_forall, forallb_forall.
  intros H c Hc%list_elem_of_In. apply negb_true_iff, not_true_iff_false.
  intros (x & Hx & Heq)%existsb_exists. apply N.eqb_eq in Heq. subst x.
  apply (H c Hc). by apply list_elem_of_In.
Qed.

Lemma startsWith_allSafe s (p : jsstring) :
  allSafe s → ¬ allSafe p → startsWith s p = false.
Proof.
  intros Hs Hp. apply not_true_iff_false. intros [t ->]%startsWith_spec.
  by apply allSafe_app in Hs as [? _].
Qed.

Lemma stripQuery_safe s : allSafe s → Spec.stripQuery s = s.
Proof.
  unfold allSafe. induction s as [|x s IH]; [done|]. cbn [forallb Spec.stripQuery].
  intros [Hx Hs]%andb_true_iff. rewrite IH by done.
  destruct (N.eqb_spec x 63) as [->|]; [done|]. done.
Qed.

(** X9.  The path that [cleanSourcePath] returns holds none of the seven
    characters of [invalidChars] and is never longer than the path it
    was given.  A path that holds none of them and starts neither with
    a slash nor with a dot and a slash is returned as it stands: dot-dot
    segments, backslashes and inner slashes all pass through. *)
Theorem cleanSourcePath_safe :
  (∀ p, Forall (λ c, c ∉ Downloader.invalidChars) (Downloader.cleanSourcePath p))
  ∧ (∀ p, length (Downloader.cleanSourcePath p) ≤ length p)
  ∧ (∀ p, Forall (λ c, c ∉ Downloader.invalidChars) p →
          startsWith p (lit "/") = false → startsWith p (lit "./") = false →
          Downloader.cleanSourcePath p = p)
  ∧ Downloader.cleanSourcePath (lit "../../etc/passwd") = lit "../../etc/passwd".
Proof.
  split_and!.
  - intros p. rewrite cleanSourcePath_exact. apply allSafe_Forall, allSafe_replaceEach.
  - intros p. rewrite cleanSourcePath_exact. unfold Spec.cleanPathExact, Spec.replaceEach.
    rewrite length_fmap.
    etrans; [apply prefix_length, stripQuery_prefix|].
    apply suffix_length, prefixes_suffix.
  - intros p Hp%Forall_allSafe Hslash Hdot. rewrite cleanSourcePath_exact.
    unfold Spec.cleanPathExact.
    assert (Spec.stripLeadingSlash p = p) as ->.
    { destruct p as [|x p]; [done|]. cbn [Spec.stripLeadingSlash].
      change (lit "/") with [47%N] in Hslash. cbn [startsWith] in Hslash.
      rewrite N.eqb_sym. by destruct (47 =? x)%N. }
    assert (startsWith p (lit "webpack://") = false) as Hw.
    { by apply startsWith_allSafe. }
    assert (Spec.stripWebpackHost p = p) as ->.
    { unfold Spec.stripWebpackHost. by rewrite Hw. }
    assert (Spec.stripPrefix (lit "webpack://") p = p) as ->.
    { unfold Spec.stripPrefix. by rewrite Hw. }
    assert (Spec.stripPrefix (lit "./") p = p) as ->.
    { unfold Spec.stripPrefix. by rewrite Hdot. }
    by rewrite stripQuery_safe, replaceEach_safe.
  - reflexivity.
Qed.

(** ** Scripts without a source-map comment *)

Section SourceMapComment.

Implicit Types (s t : jsstring) (r : regex) (b : bool).

Lemma matchHere_Star_suffix c r b s res :
  matchHere (Star c :: r) b s = Some res →
  ∃ b' s', s' `suffix_of` s ∧ matchHere r b' s' = Some res.
Proof.
  revert b res. induction s as [|x s IH]; intros b res; cbn [matchHere].
  - intros H. by exists b, [].
  - destruct (inSet c x).
    + change ((fix star (b0 : bool) (s0 : jsstring) {struct s0} := _) false s)
        with (matchHere (Star c :: r) false s).
      destruct (matchHere (Star c :: r) false s) as [res'|] eqn:E.
      * intros [= <-]. destruct (IH false _ E) as (b' & s' & Hs' & Hm).
        exists b', s'. split; [by apply suffix_cons_r|done].
      * intros H. by exists b, (x :: s).
    + intros H. by exists b, (x :: s).
Qed.

Lemma matchGroup_suffix r b s captured :
  matchGroup r b s = Some captured →
  ∃ b' s' res, s' `suffix_of` s ∧ matchHere r b' s' = Some res.
Proof.
  revert b. induction s as [|x s IH]; intros b; cbn [matchGroup].
  - destruct (matchHere r b []) as [res|] eqn:E; [|done]. intros _.
    by exists b, [], res.
  - destruct (matchHere r b (x :: s)) as [res|] eqn:E.
    + intros _. by exists b, (x :: s), res.
    + intros (b' & s' & res & Hs' & Hm)%IH.
      exists b', s', res. split; [by apply suffix_cons_r|done].
Qed.

(** A match of the expression of [findSourceMapUrl] holds the text
    [sourceMappingURL=]. *)
Lemma sourceMappingURL_includes b s res :
  matchHere Downloader.re_sourceMappingURL b s = Some res →
  includes s (lit "sourceMappingURL=") = true.
Proof.
  unfold Downloader.re_sourceMappingURL. rewrite chars_litRe, matchHere_litRe.
  destruct (startsWith s (lit "//")) eqn:Hs; [|done]. cbn [app].
  destruct (drop (length (lit "//")) s) as [|x s1] eqn:Hd; [done|].
  cbn [matchHere]. destruct (inSet _ x); [|done].
  change ((fix star (b0 : bool) (s0 : jsstring) {struct s0} := _) false s1)
    with (matchHere (Star (OneOf whiteSpace)
                       :: chars "sourceMappingURL="
                          ++ [Mark; Single Dot; Star Dot; Mark; EolM]) false s1).
  intros (b' & s2 & Hsuf & Hm)%matchHere_Star_suffix.
  rewrite chars_litRe, matchHere_litRe in Hm.
  destruct (startsWith s2 (lit "sourceMappingURL=")) eqn:H2; [|done].
  apply startsWith_includes in H2.
  eapply includes_suffix; [|exact H2].
  etrans; [exact Hsuf|]. etrans; [by apply suffix_cons_r|].
  rewrite <- Hd. apply suffix_drop.
Qed.

Lemma findSourceMapUrl_None env file :
  (∀ text, content file = Text text →
           includes text (lit "sourceMappingURL=") = false) →
  Downloader.findSourceMapUrl env file = None.
Proof.
  intros Hfile. unfold Downloader.findSourceMapUrl.
  destruct (content file) as [text|bytes]; [|done]. cbn [Downloader.contentText].
  destruct (matchGroup _ true text) as [captured|] eqn:E; [|done].
  apply matchGroup_suffix in E as (b' & s' & res & Hsuf & Hm).
  apply sourceMappingURL_includes in Hm.
  specialize (Hfile text eq_refl).
  by rewrite (includes_suffix _ _ _ Hsuf Hm) in Hfile.
Qed.

Lemma guardedLoop_idle {A} (work : A → M unit) xs st :
  (∀ x st1, x ∈ xs → work x st1 = (Ok tt, st1)) →
  guardedLoop work xs st = (Ok tt, st).
Proof.
  induction xs as [|x xs IH]; intros Hwork; [done|].
  rewrite guardedLoop_cons. destruct (isDownloading st); [|done].
  unfold exec. rewrite Hwork by apply list_elem_of_here. cbn [snd].
  apply IH. intros y st1 Hy. apply Hwork. by apply list_elem_of_further.
Qed.

End SourceMapComment.

(** X10.  When no script of the catalog holds the text [sourceMappingURL=],
    the fourth phase issues no request and leaves the session as it
    is. *)
Theorem processSourceMaps_without_comment env st :
  (∀ filename file text,
     (filename, file) ∈ downloadedFiles st →
     Downloader.isJavaScriptFile filename file = true →
     content file = Text text →
     includes text (lit "sourceMappingURL=") = false) →
  Downloader.processSourceMaps env st = (Ok tt, st).
Proof.
  intros Hfiles. rewrite processSourceMaps_loop. apply guardedLoop_idle.
  intros [filename file] s [Hjs Hin]%list_elem_of_filter. unfold mapUnit.
  rewrite findSourceMapUrl_None; [done|]. intros text Htext. by eapply Hfiles.
Qed.

Lemma processSourceMaps_without_comment_witness :
  Downloader.processSourceMaps Demo.env Demo.withScript = (Ok tt, Demo.withScript).
Proof.
  apply (processSourceMaps_without_comment Demo.env Demo.withScript).
  intros filename file text Hin _ Htext.
  apply list_elem_of_singleton in Hin. injection Hin as -> ->.
  injection Htext as <-. reflexivity.
Defined.

(** ** Source maps whose [sources] hold values that are not strings

    [JSON.parse] hands back whatever the text holds: an element of
    [sources] may be a number, a boolean, an array or an object.
    [SourceMap] types the elements as strings or [null], which is what
    a source map holds.  Here the three loops over [sources] are
    embedded once more, for elements of any type, with the TypeError
    that a string method raises on a value that has none.  The
    elements of [sourcesContent] stay strings or [null], and both
    fields stay arrays when they are present. *)

(** A parsed JSON value, as far as the loops look at it: of a number
    they only test whether it is zero ([nonzero] is [false] for 0). *)
#[local] Unset Elimination Schemes.
Inductive Json : Type :=
  | JNull
  | JBool (b : bool)
  | JNumber (nonzero : bool)
  | JString (s : jsstring)
  | JArray (elements : list Json)
  | JObject (members : list (jsstring * Json)).
#[local] Set Elimination Schemes.

Module Untyped.

Record ParsedMap : Type := mkParsedMap {
  sources : option (list Json);
  sourcesContent : option (list (option jsstring));
  sourceRoot : option jsstring
}.

(** [!!v] *)
Definition truthyJ (v : Json) : bool :=
  match v with
  | JNull => false
  | JBool b => b
  | JNumber nonzero => nonzero
  | JString s => truthy s
  | JArray _ | JObject _ => true
  end.

Definition isString (v : Json) : bool :=
  match v with
  | JString _ => true
  | _ => false
  end.

Definition isArray (v : Json) : bool :=
  match v with
  | JArray _ => true
  | _ => false
  end.

(** [v.includes(pattern)]: [String.prototype.includes] on a string,
    [Array.prototype.includes] on an array, which looks for an element
    that is this very string; no other value has a callable
    [includes]. *)
Definition includesJ (v : Json) (pattern : jsstring) : Result bool :=
  match v with
  | JString s => Ok (includes s pattern)
  | JArray elements =>
      Ok (existsb (λ e, match e with
                        | JString t => JS.eqb t pattern
                        | _ => false
                        end) elements)
  | _ => Throw typeErrorMessage
  end.

(** [xs.some(f)], where [f] may throw: the calls stop at the first
    [true] and at the first exception. *)
Fixpoint some {A} (f : A → Result bool) (xs : list A) : Result bool :=
  match xs with
  | [] => Ok false
  | x :: xs' =>
      match f x with
      | Throw m => Throw m
      | Ok true => Ok true
      | Ok false => some f xs'
      end
  end.

(** [shouldExtractSource] of the refactored class. *)
Definition shouldExtractSource (sourcePath : Json) (sourceContent : option jsstring)
  : Result bool :=
  match sourceContent with
  | Some c =>
      if negb (truthy c) || negb (truthyJ sourcePath) then Ok false
      else Result_map negb (some (includesJ sourcePath) Downloader.skipPatterns)
  | None => Ok false
  end.

Section Methods.

Context (env : Env) (parse : jsstring → Result ParsedMap).

(** One turn of the loop of [extractSourceFilesFromMap]:
    [cleanSourcePath] calls [sourcePath.replace], which only a string
    has. *)
Definition extractEntry (srcs : list Json) (conts : list (option jsstring))
  (extractedCount i : nat) : M nat :=
  let sourcePath := default JNull (srcs !! i) in
  let sourceContent := mjoin (conts !! i) in
  do keep <- liftR (shouldExtractSource sourcePath sourceContent) ;;
  if keep then
    match sourcePath with
    | JString path =>
        let text := default [] sourceContent in
        let cleanPath := Downloader.cleanSourcePath path in
        let sourceFilename := lit "src/" ++ cleanPath in
        run Downloader.saveFile sourceFilename
              (mkFileData (Text text) (length text) (lit "source")
                          None None (Some path)) ;;
        ret (S extractedCount)
    | _ => throw typeErrorMessage
    end
  else ret extractedCount.

Definition extractSourceFilesFromMap (mapContent jsFilename : jsstring)
  : M nat :=
  try_catch
    (do sourceMap <- liftR (parse mapContent) ;;
     match sources sourceMap, sourcesContent sourceMap with
     | Some srcs, Some conts =>
         foldM (extractEntry srcs conts) 0 (seq 0 (length srcs))
     | _, _ => ret 0
     end)
    (λ _, ret 0).

(** One turn of the embedded branch of [extractSourceFilesAdvanced]:
    the cleaning starts with [sourcePath.replace]. *)
Definition extractEmbedded (srcs : list Json) (conts : list (option jsstring))
  (extractedCount i : nat) : M nat :=
  match mjoin (conts !! i), srcs !! i with
  | Some sourceContent, Some sourcePath =>
      if truthy sourceContent && truthyJ sourcePath then
        match sourcePath with
        | JString path =>
            let cleanPath := Advanced.cleanPathOf path in
            if Advanced.isNoise cleanPath then ret extractedCount
            else if Advanced.isInvalidPath cleanPath then ret extractedCount
            else
              let sourceFilename := lit "sources/" ++ cleanPath in
              do files <- gets downloadedFiles ;;
              let final := Advanced.finalSourceFilename files sourceFilename in
              run modify (set_files (λ files,
                    Map_set files final
                      (mkFileData (Text sourceContent) (length sourceContent)
                                  (lit "source") None None (Some path)))) ;;
              ret (S extractedCount)
        | _ => throw typeErrorMessage
        end
      else ret extractedCount
  | _, _ => ret extractedCount
  end.

(** The typed part of a map, for the turn of the fetched branch, which
    reads [sourceRoot] only. *)
Definition typedOf (sourceMap : ParsedMap) : SourceMap :=
  mkSourceMap
    (fmap (M:=list) (λ v, match v with JString s => Some s | _ => None end)
       <$> sources sourceMap)
    (sourcesContent sourceMap) (sourceRoot sourceMap).

(** One turn of the fetched branch: a falsy entry is skipped; on a
    string the turn is [Advanced.extractFetched]; on any other value
    [sourcePath.startsWith] is no function, and the [catch] of the
    turn goes on with the next entry. *)
Definition extractFetched (sourceMap : ParsedMap) (jsFilename : jsstring)
  (extractedCount : nat) (sourcePath : Json) : M nat :=
  if negb (truthyJ sourcePath) then ret extractedCount
  else
    match sourcePath with
    | JString path =>
        Advanced.extractFetched env (typedOf sourceMap) jsFilename extractedCount
          (Some path)
    | _ => try_catch (throw typeErrorMessage) (λ _, ret extractedCount)
    end.

Definition extractSourceFilesAdvanced (mapContent jsFilename : jsstring)
  : M nat :=
  try_catch
    (do sourceMap <- liftR (parse mapContent) ;;
     match sources sourceMap, sourcesContent sourceMap with
     | Some srcs, Some conts =>
         foldM (extractEmbedded srcs conts) 0 (seq 0 (length srcs))
     | Some srcs, None =>
         foldM (extractFetched sourceMap jsFilename) 0 srcs
     | None, _ => ret 0
     end)
    (λ _, ret 0).

End Methods.

End Untyped.

(** A typed map as a parsed one. *)
Definition ofEntry (entry : option jsstring) : Json :=
  match entry with
  | Some s => JString s
  | None => JNull
  end.

Definition ofTyped (sourceMap : SourceMap) : Untyped.ParsedMap :=
  Untyped.mkParsedMap (fmap (M:=list) ofEntry <$> sources sourceMap)
                      (sourcesContent sourceMap) (sourceRoot sourceMap).

Section UntypedAgreement.

Lemma some_total {A} (f : A → Result bool) (g : A → bool) xs :
  (∀ x, f x = Ok (g x)) → Untyped.some f xs = Ok (existsb g xs).
Proof.
  intros Hf. induction xs as [|x xs IH]; [done|].
  cbn [Untyped.some existsb]. rewrite Hf. by destruct (g x).
Qed.

Lemma shouldExtractSource_typed p c :
  Untyped.shouldExtractSource (ofEntry p) c = Ok (Downloader.shouldExtractSource p c).
Proof.
  unfold Untyped.shouldExtractSource, Downloader.shouldExtractSource.
  destruct c as [c|]; [|done].
  destruct p as [p|]; cbn [ofEntry Untyped.truthyJ negb].
  - destruct (negb (truthy c) || negb (truthy p)); [done|].
    by rewrite (some_total _ (λ pattern, includes p pattern)).
  - by rewrite orb_true_r.
Qed.

(** On a map whose elements are strings or [null], the turns and the
    methods are those of the typed embedding. *)
Lemma extractEntry_typed srcs conts n i st :
  Untyped.extractEntry (ofEntry <$> srcs) conts n i st
  = Downloader.extractEntry srcs conts n i st.
Proof.
  unfold Untyped.extractEntry, Downloader.extractEntry. cbn zeta.
  rewrite list_lookup_fmap.
  assert (default JNull (ofEntry <$> srcs !! i) = ofEntry (mjoin (srcs !! i))) as ->.
  { by destruct (srcs !! i) as [[p|]|]. }
  unfold bind at 1, liftR. rewrite shouldExtractSource_typed.
  destruct (Downloader.shouldExtractSource _ _) eqn:Hk; [|done].
  destruct (mjoin (srcs !! i)) as [p|]; [done|].
  by rewrite shouldExtractSource_None_l in Hk.
Qed.

Lemma foldM_ext {A B} (f g : B → A → M B) b xs st :
  (∀ b x st, f b x st = g b x st) → foldM f b xs st = foldM g b xs st.
Proof.
  intros Hfg. revert b st. induction xs as [|x xs IH]; intros b st; [done|].
  cbn [foldM]. unfold bind. rewrite Hfg.
  by destruct (g b x st) as [[b'|m] st1].
Qed.

Lemma extractSourceFilesFromMap_typed env mapContent jsFilename st :
  Untyped.extractSourceFilesFromMap
    (λ text, Result_map ofTyped (JSON_parse env text)) mapContent jsFilename st
  = Downloader.extractSourceFilesFromMap env mapContent jsFilename st.
Proof.
  unfold Untyped.extractSourceFilesFromMap, Downloader.extractSourceFilesFromMap.
  unfold try_catch, bind, liftR.
  destruct (JSON_parse env mapContent) as [sm|m]; [|done]. cbn [Result_map].
  cbn [ofTyped Untyped.sources Untyped.sourcesContent].
  destruct (sources sm) as [srcs|]; [|done].
  destruct (sourcesContent sm) as [conts|]; [|done]. cbn [fmap option_fmap option_map].
  rewrite length_fmap.
  by rewrite (foldM_ext _ (Downloader.extractEntry srcs conts))
    by apply extractEntry_typed.
Qed.

Lemma extractEmbedded_typed srcs conts n i st :
  Untyped.extractEmbedded (ofEntry <$> srcs) conts n i st
  = Advanced.extractEmbedded srcs conts n i st.
Proof.
  unfold Untyped.extractEmbedded, Advanced.extractEmbedded.
  rewrite list_lookup_fmap.
  destruct (mjoin (conts !! i)) as [c|]; [|by destruct (ofEntry <$> srcs !! i)].
  destruct (srcs !! i) as [[p|]|]; cbn [fmap option_fmap option_map ofEntry mjoin
                                         option_join Untyped.truthyJ]; [done| |done].
  by rewrite andb_false_r.
Qed.

Lemma typedOf_ofTyped sm : Untyped.typedOf (ofTyped sm) = sm.
Proof.
  destruct sm as [srcs conts root]. unfold Untyped.typedOf, ofTyped.
  cbn [Untyped.sources Untyped.sourcesContent Untyped.sourceRoot sources
       sourcesContent sourceRoot]. f_equal.
  destruct srcs as [srcs|]; [|done]. cbn [fmap option_fmap option_map]. f_equal.
  rewrite <- list_fmap_compose. rewrite <- (list_fmap_id srcs) at 2.
  apply list_fmap_ext. by intros _ [p|] _.
Qed.

Lemma extractFetched_typed env sm jsFilename n entry st :
  Untyped.extractFetched env (ofTyped sm) jsFilename n (ofEntry entry) st
  = Advanced.extractFetched env sm jsFilename n entry st.
Proof.
  unfold Untyped.extractFetched. destruct entry as [p|]; cbn [ofEntry Untyped.truthyJ].
  - rewrite typedOf_ofTyped. unfold Advanced.extractFetched.
    by destruct (truthy p).
  - done.
Qed.

Lemma foldM_fmap {A A' B} (h : A → A') (f : B → A' → M B) b xs st :
  foldM f b (h <$> xs) st = foldM (λ b x, f b (h x)) b xs st.
Proof.
  revert b st. induction xs as [|x xs IH]; intros b st; [done|].
  cbn [foldM fmap list_fmap]. unfold bind.
  by destruct (f b (h x) st) as [[b'|m] st1].
Qed.

Lemma extractSourceFilesAdvanced_typed env mapContent jsFilename st :
  Untyped.extractSourceFilesAdvanced env
    (λ text, Result_map ofTyped (JSON_parse env text)) mapContent jsFilename st
  = Advanced.extractSourceFilesAdvanced env mapContent jsFilename st.
Proof.
  unfold Untyped.extractSourceFilesAdvanced, Advanced.extractSourceFilesAdvanced.
  unfold try_catch, bind, liftR.
  destruct (JSON_parse env mapContent) as [sm|m]; [|done]. cbn [Result_map].
  change (Untyped.sources (ofTyped sm)) with (fmap (M:=list) ofEntry <$> sources sm).
  change (Untyped.sourcesContent (ofTyped sm)) with (sourcesContent sm).
  destruct (sources sm) as [srcs|]; [|done]. cbn [fmap option_fmap option_map].
  destruct (sourcesContent sm) as [conts|].
  - rewrite length_fmap.
    by rewrite (foldM_ext _ (Advanced.extractEmbedded srcs conts))
      by apply extractEmbedded_typed.
  - rewrite foldM_fmap.
    by rewrite (foldM_ext _ (Advanced.extractFetched env sm jsFilename))
      by (intros; apply extractFetched_typed).
Qed.

End UntypedAgreement.

(** ** The count that [extractSourceFilesFromMap] returns *)

Section ExtractionCount.

Context (env : Env).

Lemma bumpStats_source filename fileData s :
  startsWith filename (lit "src/") = true →
  sourceFiles (Downloader.bumpStats filename fileData s) = S (sourceFiles s)
  ∧ totalFiles (Downloader.bumpStats filename fileData s) = S (totalFiles s).
Proof. intros H. unfold Downloader.bumpStats. by rewrite H. Qed.

Lemma savedAll_counts ws st :
  (∀ w, w ∈ ws → startsWith w.1 (lit "src/") = true) →
  totalFiles (stats (savedAll ws st)) = totalFiles (stats st) + length ws
  ∧ sourceFiles (stats (savedAll ws st)) = sourceFiles (stats st) + length ws
  ∧ length (downloadedFiles (savedAll ws st)) ≤ length (downloadedFiles st) + length ws
  ∧ requests (savedAll ws st) = requests st
  ∧ isDownloading (savedAll ws st) = isDownloading st
  ∧ downloadedUrls (savedAll ws st) = downloadedUrls st.
Proof.
  revert st. induction ws as [|w ws IH]; intros st Hws.
  { cbn. split_and!; (lia || done). }
  cbn [savedAll foldl length].
  destruct (IH (saved w.1 w.2 st)) as (H1 & H2 & H3 & H4 & H5 & H6).
  { intros w' Hw'. apply Hws. by apply list_elem_of_further. }
  fold (savedAll ws (saved w.1 w.2 st)).
  rewrite H1, H2, H4, H5, H6. unfold saved in *.
  cbn [stats downloadedFiles requests isDownloading downloadedUrls set_stats
       set_files] in *.
  destruct (bumpStats_source w.1 w.2 (stats st)) as [-> ->].
  { apply Hws, list_elem_of_here. }
  pose proof (Map_set_length (downloadedFiles st) w.1 w.2).
  split_and!; (lia || done).
Qed.

Lemma omap_length {A B} (f : A → option B) (l : list A) :
  length (omap f l) ≤ length l.
Proof.
  induction l as [|x l IH]; [done|]. cbn [omap list_omap length].
  destruct (f x); cbn [length]; lia.
Qed.

Lemma length_writes srcs conts : length (writes srcs conts) ≤ length srcs.
Proof.
  unfold writes. etrans; [apply omap_length|]. by rewrite length_seq.
Qed.

End ExtractionCount.

Section UntypedCount.

Context (srcs : list Json) (conts : list (option jsstring)).

(** A turn skips its entry, saves one record under [src/], or throws
    on an entry that is truthy and no string, leaving the session as
    it is. *)
Lemma extractEntry_cases n i st :
  Untyped.extractEntry srcs conts n i st = (Ok n, st)
  ∨ (∃ w, startsWith w.1 (lit "src/") = true
          ∧ Untyped.extractEntry srcs conts n i st = (Ok (S n), saved w.1 w.2 st))
  ∨ (∃ m v, srcs !! i = Some v
            ∧ Untyped.truthyJ v = true ∧ Untyped.isString v = false
            ∧ Untyped.extractEntry srcs conts n i st = (Throw m, st)).
Proof.
  unfold Untyped.extractEntry. cbn zeta.
  destruct (srcs !! i) as [v|]; cbn [default from_option]; unfold id.
  2:{ left. unfold Untyped.shouldExtractSource.
      destruct (mjoin (conts !! i)) as [c|]; [|done].
      cbn [Untyped.truthyJ negb]. by rewrite orb_true_r. }
  unfold Untyped.shouldExtractSource.
  destruct (mjoin (conts !! i)) as [c|]; [|by left].
  destruct (truthy c); cbn [negb orb]; [|by left].
  destruct (Untyped.truthyJ v) eqn:Hv; cbn [negb]; [|by left].
  destruct v as [|b|z|p|elements|members].
  - done.
  - right; right. by exists typeErrorMessage, (JBool b).
  - right; right. by exists typeErrorMessage, (JNumber z).
  - rewrite (some_total _ (λ pattern, includes p pattern)) by done.
    cbn [Result_map]. unfold bind at 1, liftR.
    destruct (negb _); [|by left].
    right; left.
    exists (lit "src/" ++ Downloader.cleanSourcePath p,
            mkFileData (Text c) (length c) (lit "source") None None (Some p)).
    split; [apply startsWith_app|reflexivity].
  - rewrite (some_total _
               (λ pattern, existsb (λ e, match e with
                                         | JString t => JS.eqb t pattern
                                         | _ => false
                                         end) elements)) by done.
    cbn [Result_map]. unfold bind at 1, liftR.
    destruct (negb _); [|by left].
    right; right. by exists typeErrorMessage, (JArray elements).
  - right; right. by exists typeErrorMessage, (JObject members).
Qed.

Lemma savedAll_cons w ws st : savedAll (w :: ws) st = savedAll ws (saved w.1 w.2 st).
Proof. reflexivity. Qed.

(** The loop: its saves, and whether it came to its end. *)
Lemma extractEntry_loop idx n st :
  ∃ ws,
    length ws ≤ length idx
    ∧ (∀ w, w ∈ ws → startsWith w.1 (lit "src/") = true)
    ∧ exec (foldM (Untyped.extractEntry srcs conts) n idx) st = savedAll ws st
    ∧ (eval (foldM (Untyped.extractEntry srcs conts) n idx) st = Ok (n + length ws)
       ∨ (∃ m, eval (foldM (Untyped.extractEntry srcs conts) n idx) st = Throw m)
         ∧ ∃ i v, i ∈ idx ∧ srcs !! i = Some v
                  ∧ Untyped.truthyJ v = true ∧ Untyped.isString v = false).
Proof.
  revert n st. induction idx as [|i idx IH]; intros n st.
  { exists []. cbn. split_and!; [done|by intros ? ?%elem_of_nil|done|].
    left. f_equal. lia. }
  cbn [foldM]. rewrite exec_bind, eval_bind.
  destruct (extractEntry_cases n i st)
    as [->|[(w & Hw & ->)|(m & v & Hi & Hv & Hs & ->)]].
  - destruct (IH n st) as (ws & Hlen & Hws & Hex & Hev). exists ws.
    split_and!; [cbn; lia|done|done|].
    destruct Hev as [Hev|[Hm (j & v & Hj & H)]]; [by left|right].
    split; [done|]. exists j, v. split; [by apply list_elem_of_further|done].
  - destruct (IH (S n) (saved w.1 w.2 st)) as (ws & Hlen & Hws & Hex & Hev).
    exists (w :: ws). rewrite savedAll_cons.
    split_and!; [cbn; lia| |done|].
    + intros w' [->|Hw']%elem_of_cons; auto.
    + destruct Hev as [Hev|[Hm (j & v & Hj & H)]].
      * left. rewrite Hev. cbn [length]. f_equal. lia.
      * right. split; [done|]. exists j, v.
        split; [by apply list_elem_of_further|done].
  - exists []. cbn [length savedAll foldl]. split_and!; [lia| |done|].
    + by intros ? ?%elem_of_nil.
    + right. split; [by exists m|]. exists i, v.
      split; [apply list_elem_of_here|done].
Qed.

(** A turn throws on an entry that is truthy, neither a string nor an
    array, and has a content. *)
Lemma extractEntry_throws n i st v c :
  srcs !! i = Some v → conts !! i = Some (Some c) → truthy c = true →
  Untyped.truthyJ v = true → Untyped.isString v = false →
  Untyped.isArray v = false →
  Untyped.extractEntry srcs conts n i st = (Throw typeErrorMessage, st).
Proof.
  intros Hi Hc Ht Hv Hs Ha. unfold Untyped.extractEntry. rewrite Hi, Hc.
  cbn [default from_option mjoin option_join]. unfold id.
  unfold Untyped.shouldExtractSource. rewrite Ht, Hv. cbn [negb orb].
  by destruct v.
Qed.

End UntypedCount.

(** A loop one of whose turns always throws ends with an exception,
    at that turn or before. *)
Lemma foldM_throws {A B} (f : B → A → M B) x xs b st :
  x ∈ xs → (∀ b' st', ∃ m, eval (f b' x) st' = Throw m) →
  ∃ m, eval (foldM f b xs) st = Throw m.
Proof.
  intros Hx Hf. revert b st.
  induction xs as [|y xs IH]; intros b st; [by apply elem_of_nil in Hx|].
  cbn [foldM]. rewrite eval_bind.
  apply elem_of_cons in Hx as [<-|Hx].
  - destruct (Hf b st) as [m Hm]. unfold eval in Hm.
    destruct (f b x st) as [[b'|m'] st1]; cbn [fst] in Hm; [done|by exists m'].
  - destruct (f b y st) as [[b'|m'] st1]; [by apply IH|by exists m'].
Qed.

(** X11.  [extractSourceFilesFromMap] never throws and never uses the
    network, whatever the elements of [sources] are.  Both
    [totalFiles] and [sourceFiles] go up by the number of calls of
    [saveFile] it made, which is at most the length of [sources],
    while the catalog grows by at most as many records.  The number it
    returns is that number of saves when every element of [sources] is
    a string or falsy; otherwise it is that number or 0, for a
    TypeError on an element that is no string ends the loop in the
    outer [catch], which returns 0 and keeps what was saved: it is 0
    whenever some element with a truthy content is truthy and neither
    a string nor an array.  When the map does not parse nothing is
    saved and the session is untouched. *)
Theorem extractSourceFilesFromMap_counts parse mapContent jsFilename st :
  let st' := exec (Untyped.extractSourceFilesFromMap parse mapContent jsFilename) st in
  ∃ count saves,
    eval (Untyped.extractSourceFilesFromMap parse mapContent jsFilename) st = Ok count
    ∧ (count = saves ∨ count = 0)
    ∧ totalFiles (stats st') = totalFiles (stats st) + saves
    ∧ sourceFiles (stats st') = sourceFiles (stats st) + saves
    ∧ length (downloadedFiles st') ≤ length (downloadedFiles st) + saves
    ∧ requests st' = requests st
    ∧ isDownloading st' = isDownloading st
    ∧ downloadedUrls st' = downloadedUrls st
    ∧ (∀ sm srcs, parse mapContent = Ok sm → Untyped.sources sm = Some srcs →
                  saves ≤ length srcs
                  ∧ (Forall (λ v, Untyped.isString v = true
                                  ∨ Untyped.truthyJ v = false) srcs →
                     count = saves))
    ∧ (∀ sm srcs conts i v c,
         parse mapContent = Ok sm →
         Untyped.sources sm = Some srcs → Untyped.sourcesContent sm = Some conts →
         srcs !! i = Some v → conts !! i = Some (Some c) → truthy c = true →
         Untyped.truthyJ v = true → Untyped.isString v = false →
         Untyped.isArray v = false →
         count = 0)
    ∧ (∀ m, parse mapContent = Throw m → saves = 0 ∧ st' = st).
Proof.
  cbn zeta.
  assert (∀ st0 : Session,
            totalFiles (stats st0) = totalFiles (stats st0) + 0
            ∧ sourceFiles (stats st0) = sourceFiles (stats st0) + 0
            ∧ length (downloadedFiles st0) ≤ length (downloadedFiles st0) + 0)
    as Hzero by (intros; lia).
  destruct (parse mapContent) as [sm|m] eqn:Hp.
  2:{ exists 0, 0. unfold eval, exec, Untyped.extractSourceFilesFromMap, try_catch,
        bind, liftR. rewrite Hp. cbn [fst snd].
      destruct (Hzero st) as (? & ? & ?). split_and!; try done. by left. }
  destruct (Untyped.sources sm) as [srcs|] eqn:Hs.
  2:{ exists 0, 0. unfold eval, exec, Untyped.extractSourceFilesFromMap, try_catch,
        bind, liftR. rewrite Hp, Hs. cbn [fst snd].
      destruct (Hzero st) as (? & ? & ?). split_and!; try done; [by left|].
      intros ? ? [= <-]. congruence. }
  destruct (Untyped.sourcesContent sm) as [conts|] eqn:Hc.
  2:{ exists 0, 0. unfold eval, exec, Untyped.extractSourceFilesFromMap, try_catch,
        bind, liftR. rewrite Hp, Hs, Hc. cbn [fst snd].
      destruct (Hzero st) as (? & ? & ?). split_and!; try done; [by left|].
      intros; split; [lia|done]. }
  destruct (extractEntry_loop srcs conts (seq 0 (length srcs)) 0 st)
    as (ws & Hlen & Hws & Hex & Hev).
  rewrite length_seq in Hlen.
  destruct (savedAll_counts ws st Hws) as (H1 & H2 & H3 & H4 & H5 & H6).
  assert (exec (Untyped.extractSourceFilesFromMap parse mapContent jsFilename) st
          = savedAll ws st) as Hst.
  { rewrite <- Hex. unfold exec, Untyped.extractSourceFilesFromMap, try_catch,
      bind at 1, liftR. rewrite Hp, Hs, Hc.
    by destruct (foldM _ 0 _ st) as [[k|m] st1]. }
  assert (∀ sm' srcs', Ok sm = Ok sm' → Untyped.sources sm' = Some srcs' →
                       srcs' = srcs) as Hsame.
  { intros ? ? [= <-] Hs'. congruence. }
  assert (∀ sm' srcs' conts' i v c,
            Ok sm = Ok sm' →
            Untyped.sources sm' = Some srcs' →
            Untyped.sourcesContent sm' = Some conts' →
            srcs' !! i = Some v → conts' !! i = Some (Some c) → truthy c = true →
            Untyped.truthyJ v = true → Untyped.isString v = false →
            Untyped.isArray v = false →
            ∃ m, eval (foldM (Untyped.extractEntry srcs conts) 0
                         (seq 0 (length srcs))) st = Throw m) as Hthrows.
  { intros sm' srcs' conts' i v c [= <-] Hs' Hc' Hi Hci Ht Hv Hstr Harr.
    assert (srcs' = srcs) as -> by congruence.
    assert (conts' = conts) as -> by congruence.
    apply (foldM_throws _ i).
    - apply elem_of_seq. apply lookup_lt_Some in Hi. lia.
    - intros n st1. exists typeErrorMessage. unfold eval.
      by rewrite (extractEntry_throws srcs conts n i st1 v c). }
  rewrite Hst.
  destruct Hev as [Hev|[[m Hev] (i & v & Hi & Hv & Ht & Hn)]].
  - exists (length ws), (length ws).
    split_and!; try done; [|by left| |].
    + unfold eval, Untyped.extractSourceFilesFromMap, try_catch, bind at 1, liftR.
      rewrite Hp, Hs, Hc. unfold eval in Hev.
      destruct (foldM _ 0 _ st) as [[k|m] st1]; cbn [fst] in *; [|done].
      by rewrite Hev.
    + intros sm' srcs' Hsm Hs'. by rewrite (Hsame sm' srcs').
    + intros sm' srcs' conts' i v c Hsm Hs' Hc' Hi Hci Ht Hv Hstr Harr.
      destruct (Hthrows sm' srcs' conts' i v c) as [m Hm]; try done.
      congruence.
  - exists 0, (length ws).
    split_and!; try done; [|by right|].
    + unfold eval, Untyped.extractSourceFilesFromMap, try_catch, bind at 1, liftR.
      rewrite Hp, Hs, Hc. unfold eval in Hev.
      by destruct (foldM _ 0 _ st) as [[k|m'] st1]; cbn [fst] in *.
    + intros sm' srcs' Hsm Hs'. rewrite (Hsame sm' srcs') by done.
      split; [done|]. intros Hall.
      assert (v ∈ srcs) as Hin by (by eapply list_elem_of_lookup_2).
      rewrite Forall_forall in Hall. destruct (Hall v Hin); congruence.
Qed.

(** ** The entry point *)

(** X12.  [startDownload] never throws.  An input that is empty once
    trimmed, that [new URL] rejects, or whose scheme is neither [http:]
    nor [https:], leaves the session exactly as it was: nothing is
    requested and the previous catalog is kept.  Any other input starts
    a run from an empty catalog, an empty set of marks and zeroed
    counters, whatever the session held, and ends with the flag down. *)
Theorem startDownload_guard env value st :
  let st' := exec (Downloader.startDownload env value) st in
  eval (Downloader.startDownload env value) st = Ok tt
  ∧ (trim value = []
     ∨ (∀ u, URL_new env (trim value) None = Some u →
             protocol u ≠ lit "http:" ∧ protocol u ≠ lit "https:") →
     st' = st)
  ∧ (trim value ≠ [] →
     (∃ u, URL_new env (trim value) None = Some u
           ∧ (protocol u = lit "http:" ∨ protocol u = lit "https:")) →
     st' = set_flag false
             (exec (Downloader.executeDownloadProcess env (trim value))
                   (mkSession [] [] true (mkStats 0 0 0 0 0 0) (requests st)))
     ∧ isDownloading st' = false).
Proof.
  cbn zeta. split_and!.
  - destruct (Downloader.validateInput env (trim value)) eqn:Hv.
    + unfold eval. by rewrite startDownload_run.
    + unfold eval, Downloader.startDownload. cbn zeta. by rewrite Hv.
  - intros Hbad.
    assert (Downloader.validateInput env (trim value) = false) as Hv.
    { unfold Downloader.validateInput, Downloader.isValidUrl.
      destruct Hbad as [->|Hbad]; [done|].
      destruct (truthy (trim value)); [|done]. cbn [negb].
      destruct (URL_new env (trim value) None) as [u|]; [|done].
      destruct (Hbad u eq_refl) as [H1 H2].
      by rewrite !eqb_ne. }
    unfold exec, Downloader.startDownload. cbn zeta. by rewrite Hv.
  - intros Hne (u & Hu & Hproto).
    assert (Downloader.validateInput env (trim value) = true) as Hv.
    { unfold Downloader.validateInput, Downloader.isValidUrl. rewrite Hu.
      destruct (trim value); [done|]. cbn [truthy negb].
      destruct Hproto as [-> | ->]; by rewrite eqb_refl, ?orb_true_r. }
    change (exec (Downloader.startDownload env value) st)
      with (snd (Downloader.startDownload env value st)).
    by rewrite startDownload_run.
Qed.

(** * The serverless relay

    The handler that the repository exports for Netlify: it fetches the
    URL given in the query string on behalf of the page and answers
    with permissive CORS headers. *)

Module Netlify.

(** The fields of the event that the handler reads.  [queryUrl] is
    [event.queryStringParameters?.url]: [None] when it is undefined. *)
Record Event : Type := mkEvent {
  httpMethod : jsstring;
  queryUrl : option jsstring
}.

(** The upstream response, as far as the handler looks at it. *)
Record Upstream : Type := mkUpstream {
  up_ok : bool;
  up_status : nat;
  up_statusText : jsstring;
  up_headers : list (jsstring * jsstring);   (* names in lower case *)
  up_text : Result jsstring;                 (* await response.text() *)
  up_arrayBuffer : Result (list N)           (* await response.arrayBuffer() *)
}.

Inductive Fetched : Type :=
  | Failed (message : jsstring)
  | Answered (response : Upstream).

(** The runtime: [fetch url method], [new URL(url)], [JSON.stringify]
    of an object with string fields, and
    [Buffer.from(bytes).toString('base64')]. *)
Record Platform : Type := mkPlatform {
  fetch : jsstring → jsstring → Fetched;
  URL_new : jsstring → option URL;
  JSON_stringify : list (jsstring * jsstring) → jsstring;
  base64 : list N → jsstring
}.

(** The object the handler returns; [isBase64Encoded] is absent from
    every answer but the successful one. *)
Record Reply : Type := mkReply {
  statusCode : nat;
  headers : list (jsstring * jsstring);
  body : jsstring;
  isBase64Encoded : option bool
}.

Definition corsHeaders : list (jsstring * jsstring) :=
  [ (lit "Access-Control-Allow-Origin", lit "*");
    (lit "Access-Control-Allow-Headers",
     lit "Content-Type, User-Agent, x-requested-with, origin");
    (lit "Access-Control-Allow-Methods", lit "GET, POST, PUT, DELETE, OPTIONS");
    (lit "Access-Control-Max-Age", lit "86400") ].

Definition headersToForward : list jsstring :=
  [ lit "content-type"; lit "content-length"; lit "last-modified"; lit "etag";
    lit "cache-control" ].

Definition isBinary (contentType : jsstring) : bool :=
  negb (includes contentType (lit "text"))
  && negb (includes contentType (lit "javascript"))
  && negb (includes contentType (lit "json"))
  && negb (includes contentType (lit "css"))
  && negb (includes contentType (lit "html"))
  && negb (includes contentType (lit "xml")).

(** [responseHeaders] after the [forEach] over [headersToForward]. *)
Definition forwarded (response : Upstream) : list (jsstring * jsstring) :=
  foldl (λ responseHeaders headerName,
           match Map_get (up_headers response) headerName with
           | Some headerValue =>
               if truthy headerValue
               then Map_set responseHeaders headerName headerValue
               else responseHeaders
           | None => responseHeaders
           end)
        corsHeaders headersToForward.

Section Handler.

Context (platform : Platform).

Definition failure (status : nat) (fields : list (jsstring * jsstring)) : Reply :=
  mkReply status corsHeaders (JSON_stringify platform fields) None.

Definition internalError (message : jsstring) : Reply :=
  failure 500 [(lit "error", lit "Internal server error"); (lit "message", message)].

(** The reply, and the URLs passed to [fetch] on the way. *)
Definition handler (event : Event) : Reply * list jsstring :=
  (* Handle preflight OPTIONS request *)
  if JS.eqb (httpMethod event) (lit "OPTIONS")
  then (mkReply 200 corsHeaders [] None, [])
  else
    let missing := (failure 400 [(lit "error", lit "Missing url parameter")], []) in
    let invalid := (failure 400 [(lit "error", lit "Invalid URL format")], []) in
    match queryUrl event with
    | None => missing
    | Some url =>
        if negb (truthy url) then missing
        else
          (* Validate URL *)
          match URL_new platform url with
          | None => invalid
          | Some targetUrl =>
              if negb (JS.eqb (protocol targetUrl) (lit "http:")
                       || JS.eqb (protocol targetUrl) (lit "https:"))
              then invalid
              else
                (* Fetch the resource *)
                (match fetch platform url (httpMethod event) with
                 | Failed message => internalError message
                 | Answered response =>
                     if negb (up_ok response) then
                       failure (up_status response)
                         [(lit "error",
                           lit "Failed to fetch resource: "
                           ++ ofNat (up_status response) ++ lit " "
                           ++ up_statusText response)]
                     else
                       let contentType :=
                         match Map_get (up_headers response) (lit "content-type") with
                         | Some v => if truthy v then v
                                     else lit "application/octet-stream"
                         | None => lit "application/octet-stream"
                         end in
                       let binary := isBinary contentType in
                       match (if binary
                              then Result_map (base64 platform)
                                              (up_arrayBuffer response)
                              else up_text response) with
                       | Throw message => internalError message
                       | Ok body =>
                           mkReply 200 (forwarded response) body (Some binary)
                       end
                 end, [url])
          end
    end.

End Handler.

End Netlify.

Section NetlifyFacts.

Import Netlify.

Context (platform : Platform).

Lemma forwarded_other response k :
  k ∉ headersToForward →
  Map_get (forwarded response) k = Map_get corsHeaders k.
Proof.
  unfold forwarded. generalize corsHeaders as acc.
  induction headersToForward as [|name names IH]; intros acc Hk; [done|].
  apply not_elem_of_cons in Hk as [Hne Hk]. cbn [foldl]. rewrite IH by done.
  destruct (Map_get (up_headers response) name) as [v|]; [|done].
  destruct (truthy v); [|done]. by apply Map_get_set_ne.
Qed.

Lemma forwarded_origin response k v :
  Map_get (forwarded response) k = Some v →
  Map_get corsHeaders k = Some v
  ∨ (k ∈ headersToForward ∧ Map_get (up_headers response) k = Some v).
Proof.
  unfold forwarded. generalize corsHeaders as acc.
  induction headersToForward as [|name names IH]; intros acc; cbn [foldl].
  { by left. }
  intros [H|[Hin Hv]]%IH.
  - destruct (Map_get (up_headers response) name) as [w|] eqn:Hw; [|by left].
    destruct (truthy w); [|by left].
    destruct (decide (k = name)) as [->|Hne].
    + rewrite Map_get_set_eq in H. injection H as <-. right.
      split; [apply list_elem_of_here|done].
    + rewrite Map_get_set_ne in H by done. by left.
  - right. split; [by apply list_elem_of_further|done].
Qed.

(** The headers of every reply are those of [corsHeaders] or, for the
    successful reply, those of [forwarded]. *)
Lemma handler_headers_cases event :
  headers (handler platform event).1 = corsHeaders
  ∨ ∃ url response,
      queryUrl event = Some url
      ∧ fetch platform url (httpMethod event) = Answered response
      ∧ up_ok response = true
      ∧ headers (handler platform event).1 = forwarded response.
Proof.
  unfold handler. destruct (JS.eqb (httpMethod event) _); [by left|].
  cbn zeta. destruct (queryUrl event) as [url|]; [|by left].
  destruct (truthy url); [|by left]. cbn [negb].
  destruct (URL_new platform url) as [u|]; [|by left].
  destruct (_ || _); [|by left]. cbn [negb fst].
  destruct (fetch platform url (httpMethod event)) as [m|response] eqn:Hf; [by left|].
  destruct (up_ok response) eqn:Hok; [|by left]. cbn [negb].
  destruct (if isBinary _ then _ else _); [|by left].
  right. by exists url, response.
Qed.

End NetlifyFacts.

(** X13.  Every reply of the handler, whatever the event and whatever the
    upstream does, carries the four CORS headers with the values of
    [corsHeaders]; in particular [Access-Control-Allow-Origin] is the
    star on error replies as well. *)
Theorem handler_cors platform event k v :
  (k, v) ∈ Netlify.corsHeaders →
  Map_get (Netlify.headers (Netlify.handler platform event).1) k = Some v.
Proof.
  intros Hkv.
  assert (Map_get Netlify.corsHeaders k = Some v ∧ k ∉ Netlify.headersToForward)
    as [Hget Hnot].
  { unfold Netlify.corsHeaders in Hkv.
    repeat (apply elem_of_cons in Hkv as [[= -> ->]|Hkv];
            [split; [reflexivity|not_in_list]|]).
    by apply elem_of_nil in Hkv. }
  destruct (handler_headers_cases platform event) as [->|(url & r & _ & _ & _ & ->)];
    [done|].
  by rewrite forwarded_other.
Qed.

(** An upstream that serves a style sheet and sets a cookie. *)
Definition relayedSheet : Netlify.Platform :=
  Netlify.mkPlatform
    (λ _ _, Netlify.Answered
              (Netlify.mkUpstream true 200 (lit "OK")
                 [(lit "content-type", lit "text/css"); (lit "set-cookie", lit "id=1")]
                 (Ok (lit "p{}")) (Ok [112; 123; 125]%N)))
    Demo.parseAbsolute (λ _, []) (λ _, []).

Definition sheetRequest : Netlify.Event :=
  Netlify.mkEvent (lit "GET") (Some (lit "https://x.test/b.css")).

Example handler_run :
  Netlify.handler relayedSheet sheetRequest
  = (Netlify.mkReply 200
       (Netlify.corsHeaders ++ [(lit "content-type", lit "text/css")])
       (lit "p{}") (Some false),
     [lit "https://x.test/b.css"]).
Proof. reflexivity. Qed.

Lemma handler_cors_witness :
  Map_get (Netlify.headers (Netlify.handler relayedSheet sheetRequest).1)
          (lit "Access-Control-Allow-Origin")
  = Some (lit "*").
Proof.
  apply (handler_cors relayedSheet sheetRequest (lit "Access-Control-Allow-Origin")
           (lit "*")).
  apply list_elem_of_here.
Defined.

(** X14.  The handler forwards five headers of the upstream at most.  A
    header of a reply is one of [corsHeaders], or it is one of
    [content-type], [content-length], [last-modified], [etag] and
    [cache-control] with the value the upstream gave it; no other
    upstream header (a cookie, say) reaches the caller. *)
Theorem handler_forwards platform event k v :
  Map_get (Netlify.headers (Netlify.handler platform event).1) k = Some v →
  Map_get Netlify.corsHeaders k = Some v
  ∨ (k ∈ Netlify.headersToForward
     ∧ ∃ url response,
         Netlify.queryUrl event = Some url
         ∧ Netlify.fetch platform url (Netlify.httpMethod event)
           = Netlify.Answered response
         ∧ Map_get (Netlify.up_headers response) k = Some v).
Proof.
  destruct (handler_headers_cases platform event)
    as [->|(url & r & Hq & Hf & _ & ->)]; [by left|].
  intros [H|[Hin Hv]]%forwarded_origin; [by left|].
  right. split; [done|]. by exists url, r.
Qed.

(** X15.  The handler fetches nothing for a preflight request, for a request
    without a [url] parameter, and for a [url] that [new URL] rejects
    or whose scheme is neither [http:] nor [https:]: the first is
    answered 200 with an empty body, the others 400.  Whatever it
    fetches is the [url] parameter as given, once, and that parameter
    then parses as an [http:] or [https:] URL. *)
Theorem handler_guards platform event :
  let reply := (Netlify.handler platform event).1 in
  let fetched := (Netlify.handler platform event).2 in
  (Netlify.httpMethod event = lit "OPTIONS" →
   reply = Netlify.mkReply 200 Netlify.corsHeaders [] None ∧ fetched = [])
  ∧ (Netlify.httpMethod event ≠ lit "OPTIONS" →
     Netlify.queryUrl event = None ∨ Netlify.queryUrl event = Some []
     ∨ (∃ url, Netlify.queryUrl event = Some url
               ∧ ∀ u, Netlify.URL_new platform url = Some u →
                      protocol u ≠ lit "http:" ∧ protocol u ≠ lit "https:") →
     Netlify.statusCode reply = 400 ∧ fetched = [])
  ∧ (fetched = []
     ∨ ∃ url u, Netlify.queryUrl event = Some url ∧ fetched = [url]
                ∧ Netlify.URL_new platform url = Some u
                ∧ (protocol u = lit "http:" ∨ protocol u = lit "https:")).
Proof.
  cbn zeta. unfold Netlify.handler. split_and!.
  - intros ->. by rewrite eqb_refl.
  - intros Hm Hbad. rewrite eqb_ne by done. cbn zeta.
    destruct Hbad as [->|[->|(url & -> & Hbad)]]; [done|done|].
    destruct (truthy url); [|done]. cbn [negb].
    destruct (Netlify.URL_new platform url) as [u|]; [|done].
    destruct (Hbad u eq_refl) as [H1 H2]. by rewrite !eqb_ne.
  - destruct (JS.eqb (Netlify.httpMethod event) _); [by left|]. cbn zeta.
    destruct (Netlify.queryUrl event) as [url|]; [|by left].
    destruct (truthy url); [|by left]. cbn [negb].
    destruct (Netlify.URL_new platform url) as [u|] eqn:Hu; [|by left].
    destruct (JS.eqb (protocol u) (lit "http:")) eqn:H1.
    { right. exists url, u. apply eqb_eq in H1. auto. }
    destruct (JS.eqb (protocol u) (lit "https:")) eqn:H2; [|by left].
    right. exists url, u. apply eqb_eq in H2. auto.
Qed.

Lemma handler_forwards_witness :
  Map_get Netlify.corsHeaders (lit "content-type") = Some (lit "text/css")
  ∨ (lit "content-type" ∈ Netlify.headersToForward
     ∧ ∃ url response,
         Netlify.queryUrl sheetRequest = Some url
         ∧ Netlify.fetch relayedSheet url (Netlify.httpMethod sheetRequest)
           = Netlify.Answered response
         ∧ Map_get (Netlify.up_headers response) (lit "content-type")
           = Some (lit "text/css")).
Proof.
  exact (handler_forwards relayedSheet sheetRequest (lit "content-type")
           (lit "text/css") eq_refl).
Defined.

(** * Further properties of the older downloader *)

(** ** The embedded branch of [extractSourceFilesAdvanced] only adds *)

Section EmbeddedBranch.

Context (srcs : list Json) (conts : list (option jsstring)).

(** A turn of the loop changes nothing, adds one record under a name
    that was free, or throws on an entry that is truthy and no string,
    leaving the session as it is. *)
Lemma extractEmbedded_step n i st :
  Untyped.extractEmbedded srcs conts n i st = (Ok n, st)
  ∨ (∃ final fileData,
       Map_has (downloadedFiles st) final = false
       ∧ Untyped.extractEmbedded srcs conts n i st
         = (Ok (S n), set_files (λ files, files ++ [(final, fileData)]) st))
  ∨ (∃ m v, srcs !! i = Some v
            ∧ Untyped.truthyJ v = true ∧ Untyped.isString v = false
            ∧ Untyped.extractEmbedded srcs conts n i st = (Throw m, st)).
Proof.
  unfold Untyped.extractEmbedded.
  destruct (mjoin (conts !! i)) as [c|]; [|by left].
  destruct (srcs !! i) as [v|]; [|by left].
  destruct (truthy c); cbn [andb]; [|by left].
  destruct (Untyped.truthyJ v) eqn:Hv; [|by left].
  destruct v as [|b|z|p|elements|members].
  - done.
  - right; right. by exists typeErrorMessage, (JBool b).
  - right; right. by exists typeErrorMessage, (JNumber z).
  - cbn zeta.
    destruct (Advanced.isNoise _); [by left|].
    destruct (Advanced.isInvalidPath _); [by left|].
    right; left.
    pose proof (finalSourceFilename_spec (downloadedFiles st)
                  (lit "sources/" ++ Advanced.cleanPathOf p)) as [Hfree _].
    eexists _, _. split; [exact Hfree|].
    unfold bind, gets, modify, ret, set_files. cbn.
    by rewrite Map_set_absent.
  - right; right. by exists typeErrorMessage, (JArray elements).
  - right; right. by exists typeErrorMessage, (JObject members).
Qed.

Lemma extractEmbedded_loop idx n st :
  ∃ added,
    exec (foldM (Untyped.extractEmbedded srcs conts) n idx) st
    = set_files (λ files, files ++ added) st
    ∧ length added ≤ length idx
    ∧ (eval (foldM (Untyped.extractEmbedded srcs conts) n idx) st
       = Ok (n + length added)
       ∨ (∃ m, eval (foldM (Untyped.extractEmbedded srcs conts) n idx) st = Throw m)
         ∧ ∃ i v, i ∈ idx ∧ srcs !! i = Some v
                  ∧ Untyped.truthyJ v = true ∧ Untyped.isString v = false).
Proof.
  assert (∀ st0 : Session, st0 = set_files (λ files, files ++ []) st0) as Hnil.
  { intros st0. unfold set_files. rewrite app_nil_r. by destruct st0. }
  revert n st. induction idx as [|i idx IH]; intros n st.
  { exists []. cbn [foldM length]. split_and!; [apply Hnil|done|].
    left. unfold eval, ret. cbn. f_equal. lia. }
  cbn [foldM]. rewrite exec_bind, eval_bind.
  destruct (extractEmbedded_step n i st)
    as [->|[(final & fd & _ & ->)|(m & v & Hi & Hv & Hs & ->)]].
  - destruct (IH n st) as (added & Hex & Hlen & Hev). exists added.
    split_and!; [done|cbn; lia|].
    destruct Hev as [Hev|[Hm (j & v & Hj & H)]]; [by left|right].
    split; [done|]. exists j, v. split; [by apply list_elem_of_further|done].
  - destruct (IH (S n) (set_files (λ files, files ++ [(final, fd)]) st))
      as (added & Hex & Hlen & Hev).
    exists ((final, fd) :: added). split_and!; [|cbn; lia|].
    + rewrite Hex. unfold set_files. cbn. by rewrite <- app_assoc.
    + destruct Hev as [Hev|[Hm (j & v & Hj & H)]].
      * left. rewrite Hev. cbn [length]. f_equal. lia.
      * right. split; [done|]. exists j, v.
        split; [by apply list_elem_of_further|done].
  - exists []. cbn [length]. split_and!; [apply Hnil|lia|].
    right. split; [by exists m|]. exists i, v.
    split; [apply list_elem_of_here|done].
Qed.

(** A turn throws on an entry that is truthy, no string, and has a
    content. *)
Lemma extractEmbedded_throws n i st v c :
  srcs !! i = Some v → conts !! i = Some (Some c) → truthy c = true →
  Untyped.truthyJ v = true → Untyped.isString v = false →
  Untyped.extractEmbedded srcs conts n i st = (Throw typeErrorMessage, st).
Proof.
  intros Hi Hc Ht Hv Hs. unfold Untyped.extractEmbedded. rewrite Hi, Hc.
  cbn [mjoin option_join]. rewrite Ht, Hv. cbn [andb].
  by destruct v.
Qed.

End EmbeddedBranch.

Lemma Map_get_app_Some {V} (m m' : JSMap V) k v :
  Map_get m k = Some v → Map_get (m ++ m') k = Some v.
Proof.
  induction m as [|[k' v'] m IH]; [done|]. cbn [Map_get app].
  by destruct (JS.eqb k' k).
Qed.

(** X16.  For a map that carries [sourcesContent], whatever the
    elements of [sources] are, [extractSourceFilesAdvanced] never
    throws and only appends: the catalog is the old one followed by the
    records it has added, at most one per element of [sources], so that
    every record that was there is still there, unchanged and in its
    place, and nothing is requested.  The number it returns is the
    number of records added when every element of [sources] is a
    string or falsy; otherwise it is that number or 0, for a TypeError
    on an element that is no string ends the loop in the outer
    [catch], which returns 0 and keeps what was added: it is 0 whenever
    some element with a truthy content is truthy and no string. *)
Theorem extractSourceFilesAdvanced_appends env parse mapContent jsFilename
    sm srcs conts st :
  parse mapContent = Ok sm →
  Untyped.sources sm = Some srcs → Untyped.sourcesContent sm = Some conts →
  ∃ added count,
    Untyped.extractSourceFilesAdvanced env parse mapContent jsFilename st
    = (Ok count, set_files (λ files, files ++ added) st)
    ∧ (count = length added ∨ count = 0)
    ∧ (Forall (λ v, Untyped.isString v = true ∨ Untyped.truthyJ v = false) srcs →
       count = length added)
    ∧ (∀ i v c, srcs !! i = Some v → conts !! i = Some (Some c) → truthy c = true →
                Untyped.truthyJ v = true → Untyped.isString v = false →
                count = 0)
    ∧ length added ≤ length srcs
    ∧ ∀ k v, Map_get (downloadedFiles st) k = Some v →
             Map_get (downloadedFiles st ++ added) k = Some v.
Proof.
  intros Hp Hs Hc.
  assert (∀ i v c, srcs !! i = Some v → conts !! i = Some (Some c) →
                   truthy c = true →
                   Untyped.truthyJ v = true → Untyped.isString v = false →
                   ∃ m, eval (foldM (Untyped.extractEmbedded srcs conts) 0
                                (seq 0 (length srcs))) st = Throw m) as Hthrows.
  { intros i v c Hi Hci Ht Hv Hstr. apply (foldM_throws _ i).
    - apply elem_of_seq. apply lookup_lt_Some in Hi. lia.
    - intros n st1. exists typeErrorMessage. unfold eval.
      by rewrite (extractEmbedded_throws srcs conts n i st1 v c). }
  destruct (extractEmbedded_loop srcs conts (seq 0 (length srcs)) 0 st)
    as (added & Hex & Hlen & Hev).
  rewrite length_seq in Hlen. unfold exec, eval in *.
  assert (Untyped.extractSourceFilesAdvanced env parse mapContent jsFilename st
          = match foldM (Untyped.extractEmbedded srcs conts) 0
                    (seq 0 (length srcs)) st with
            | (Ok count, st1) => (Ok count, st1)
            | (Throw _, st1) => (Ok 0, st1)
            end) as ->.
  { unfold Untyped.extractSourceFilesAdvanced, try_catch, bind at 1, liftR.
    by rewrite Hp, Hs, Hc. }
  destruct (foldM _ 0 _ st) as [[k|m] st1]; cbn [fst snd] in *; subst st1.
  - exists added, k.
    destruct Hev as [[= ->]|[[m [=]] _]].
    split_and!; [done|by left|done| |done|].
    + intros i v c Hi Hci Ht Hv Hstr.
      by destruct (Hthrows i v c) as [m Hm].
    + intros k v. apply Map_get_app_Some.
  - exists added, 0.
    destruct Hev as [[=]|[_ (i & v & Hi & Hv & Ht & Hn)]].
    split_and!; [done|by right| |done|done|].
    + intros Hall.
      assert (v ∈ srcs) as Hin by (by eapply list_elem_of_lookup_2).
      rewrite Forall_forall in Hall. destruct (Hall v Hin); congruence.
    + intros k v'. apply Map_get_app_Some.
Qed.

(** A map whose second source is the number 5. *)
Definition numberedMap : Untyped.ParsedMap :=
  Untyped.mkParsedMap (Some [JString (lit "a.js"); JNumber true])
                      (Some [Some (lit "X"); Some (lit "Y")]) None.

(** A map whose first source is an array that holds a skip pattern. *)
Definition arrayMap : Untyped.ParsedMap :=
  Untyped.mkParsedMap (Some [JArray [JString (lit "webpack/")]; JString (lit "b.js")])
                      (Some [Some (lit "X"); Some (lit "Y")]) None.

(** On the first map both variants store the first source, meet the
    TypeError at the second and return 0.  On the second map
    [shouldExtractSource] refuses the array without an error, and the
    older variant stops at it. *)
Example cut_short_run :
  let record (c p : string) :=
    mkFileData (Text (lit c)) 1 (lit "source") None None (Some (lit p)) in
  Untyped.extractSourceFilesFromMap (λ _, Ok numberedMap) [] (lit "app.js") Demo.fresh
  = (Ok 0, saved (lit "src/a.js") (record "X" "a.js") Demo.fresh)
  ∧ totalFiles (stats (saved (lit "src/a.js") (record "X" "a.js") Demo.fresh)) = 1
  ∧ Untyped.extractSourceFilesAdvanced Demo.env (λ _, Ok numberedMap) []
      (lit "app.js") Demo.fresh
    = (Ok 0, set_files (λ files, files ++ [(lit "sources/a.js", record "X" "a.js")])
               Demo.fresh)
  ∧ Untyped.extractSourceFilesFromMap (λ _, Ok arrayMap) [] (lit "app.js") Demo.fresh
    = (Ok 1, saved (lit "src/b.js") (record "Y" "b.js") Demo.fresh)
  ∧ Untyped.extractSourceFilesAdvanced Demo.env (λ _, Ok arrayMap) []
      (lit "app.js") Demo.fresh
    = (Ok 0, Demo.fresh).
Proof. vm_compute. split_and!; reflexivity. Qed.

Lemma extractSourceFilesAdvanced_appends_witness :
  ∃ added count,
    Untyped.extractSourceFilesAdvanced Demo.env (λ _, Ok numberedMap) []
      (lit "app.js") Demo.withScript
    = (Ok count, set_files (λ files, files ++ added) Demo.withScript)
    ∧ (count = length added ∨ count = 0)
    ∧ (Forall (λ v, Untyped.isString v = true ∨ Untyped.truthyJ v = false)
         [JString (lit "a.js"); JNumber true] →
       count = length added)
    ∧ (∀ i v c, [JString (lit "a.js"); JNumber true] !! i = Some v →
                [Some (lit "X"); Some (lit "Y")] !! i = Some (Some c) →
                truthy c = true →
                Untyped.truthyJ v = true → Untyped.isString v = false →
                count = 0)
    ∧ length added ≤ 2
    ∧ ∀ k v, Map_get (downloadedFiles Demo.withScript) k = Some v →
             Map_get (downloadedFiles Demo.withScript ++ added) k = Some v.
Proof.
  exact (extractSourceFilesAdvanced_appends Demo.env (λ _, Ok numberedMap) []
           (lit "app.js") numberedMap _ _ Demo.withScript eq_refl eq_refl eq_refl).
Defined.

(** ** The older [fetchWithCORS] does not look at the relay's status *)

(** A network on which every request, the relay's included, is
    answered with status 500 and a JSON body without [contents]. *)
Definition outage : Env :=
  mkEnv (λ _ _, Responded (mkPlatformResponse false 500 [] (Ok []) None (Ok None)))
        (λ _, false) (λ _, 0) Ok id (default [])
        Demo.URL_new Demo.JSON_parse Demo.DOMParser_parse.

(** X17.  When the direct request fails and the relay answers with a JSON
    body, the older [fetchWithCORS] hands back a response with
    [ok = true] and status 200 whatever the relay's own status is, its
    text being the [contents] of the body ([undefined] when there is
    none); on a relay status that is not ok, the refactored
    [fetchWithCORS] throws instead. *)
Theorem relay_status_unchecked env url st encoded r contents :
  directOk env url st = None →
  encodeURIComponent env url = Ok encoded →
  fetch env (S (length (requests st))) (proxyPrefix ++ encoded) = Responded r →
  p_contents r = Ok contents →
  eval (Advanced.fetchWithCORS env url) st
  = Ok (mkResponse true 200 [(lit "content-type", lit "text/plain")] (Ok contents)
                   (Some (TextEncoder_encode env contents)))
  ∧ (p_ok r = false →
     eval (Downloader.fetchWithCORS env url) st
     = Throw (bothFailed ++ lit "Proxy returned " ++ ofNat (p_status r))).
Proof.
  intros Hd He Hr Hc. unfold eval. split.
  - rewrite Advanced_fetchWithCORS_run, Hd. unfold relayOutcomeAdvanced.
    rewrite He. cbn zeta. rewrite requests_awaited, length_app, Nat.add_1_r.
    by rewrite Hr, Hc.
  - intros Hok. rewrite fetchWithCORS_run, Hd. unfold relayOutcome.
    rewrite He. cbn zeta. rewrite requests_awaited, length_app, Nat.add_1_r.
    by rewrite Hr, Hok.
Qed.

Lemma relay_status_unchecked_witness :
  eval (Advanced.fetchWithCORS outage (lit "https://x.test/a.js")) Demo.fresh
  = Ok (mkResponse true 200 [(lit "content-type", lit "text/plain")] (Ok None)
                   (Some []))
  ∧ (false = false →
     eval (Downloader.fetchWithCORS outage (lit "https://x.test/a.js")) Demo.fresh
     = Throw (bothFailed ++ lit "Proxy returned " ++ ofNat 500)).
Proof.
  exact (relay_status_unchecked outage (lit "https://x.test/a.js") Demo.fresh
           (lit "https://x.test/a.js") _ None eq_refl eq_refl eq_refl eq_refl).
Defined.

(** ** Where the renaming loop puts the counter *)

Section Renaming.

Implicit Types (s t base e : jsstring).

Lemma split_nonempty sep s : split sep s ≠ [].
Proof.
  destruct s as [|x s]; [done|]. cbn [split].
  destruct (N.eqb x sep); [done|]. by destruct (split sep s).
Qed.

Lemma split_app_sep sep s t :
  split sep (s ++ sep :: t) = split sep s ++ split sep t.
Proof.
  induction s as [|x s IH]; cbn [app split].
  - by rewrite N.eqb_refl.
  - destruct (N.eqb x sep); [by rewrite IH|]. rewrite IH.
    pose proof (split_nonempty sep s). by destruct (split sep s).
Qed.

(** The extension of a name is its last dot and what follows. *)
Lemma getFileExtension_dot base e :
  46%N ∉ e → Advanced.getFileExtension (base ++ lit "." ++ e) = lit "." ++ e.
Proof.
  intros He. unfold Advanced.getFileExtension.
  change (base ++ lit "." ++ e) with (base ++ 46%N :: e).
  rewrite split_app_sep, (split_none 46 e) by done. cbn zeta.
  rewrite length_app, last_snoc. cbn [length default].
  pose proof (split_nonempty 46 base).
  destruct (split 46 base); [done|]. cbn [length].
  by rewrite bool_decide_true by lia.
Qed.

(** A name without a dot has no extension. *)
Lemma getFileExtension_none s : 46%N ∉ s → Advanced.getFileExtension s = [].
Proof.
  intros Hs. unfold Advanced.getFileExtension. by rewrite split_none.
Qed.

(** An occurrence of the extension that starts inside [base] lies in
    [base]. *)
Lemma extension_inside base e a b :
  46%N ∉ e → base = a ++ b → b ≠ [] →
  startsWith (b ++ lit "." ++ e) (lit "." ++ e) = true →
  includes base (lit "." ++ e) = true.
Proof.
  intros He -> Hb [t Ht]%startsWith_spec.
  destruct b as [|y b]; [done|]. cbn [app] in Ht.
  change (lit "." ++ e) with (46%N :: e) in *. cbn [app] in Ht.
  injection Ht as -> Ht.
  apply app_eq_inv in Ht as [(k & -> & Hk)|(k & -> & Hk)].
  - apply includes_spec. by exists a, k.
  - destruct k as [|z k].
    + rewrite app_nil_r. apply includes_spec. exists a, []. by rewrite app_nil_r.
    + injection Hk as <- _. exfalso. apply He.
      apply elem_of_app. right. apply list_elem_of_here.
Qed.

Lemma replaceStr_here s p repl :
  startsWith s p = true → replaceStr s p repl = repl ++ drop (length p) s.
Proof. intros H. destruct s; cbn [replaceStr]; by rewrite H. Qed.

Lemma replaceStr_first base e :
  46%N ∉ e → includes base (lit "." ++ e) = false →
  replaceStr (base ++ lit "." ++ e) (lit "." ++ e) [] = base.
Proof.
  intros He Hbase.
  assert (∀ a b, base = a ++ b →
                 replaceStr (b ++ lit "." ++ e) (lit "." ++ e) [] = b) as Hgen.
  { intros a b. revert a. induction b as [|y b IH]; intros a Hab.
    - cbn [app]. rewrite replaceStr_here, drop_all; [done|].
      rewrite <- (app_nil_r (lit "." ++ e)) at 1. apply startsWith_app.
    - destruct (startsWith ((y :: b) ++ lit "." ++ e) (lit "." ++ e)) eqn:Hs.
      { apply (extension_inside base e a (y :: b)) in Hs; [congruence|done..]. }
      cbn [app replaceStr] in *. rewrite Hs. f_equal.
      apply (IH (a ++ [y])). by rewrite <- app_assoc. }
  by apply (Hgen []).
Qed.

End Renaming.

(** X18.  When the name is [base.e], the text [e] holding no dot and [.e] not
    occurring in [base], the renaming loop of
    [extractSourceFilesAdvanced] puts the counter right before the
    extension: the name it settles on for a taken [base.e] is
    [base_k.e], with [k] the least number from 1 on for which that name
    is free. *)
Theorem rename_before_extension (files : JSMap FileData) base e :
  46%N ∉ e →
  includes base (lit "." ++ e) = false →
  Map_has files (base ++ lit "." ++ e) = true →
  ∃ k, 1 ≤ k
       ∧ Advanced.finalSourceFilename files (base ++ lit "." ++ e)
         = base ++ lit "_" ++ ofNat k ++ lit "." ++ e
       ∧ Map_has files (base ++ lit "_" ++ ofNat k ++ lit "." ++ e) = false
       ∧ ∀ j, 1 ≤ j < k →
              Map_has files (base ++ lit "_" ++ ofNat j ++ lit "." ++ e) = true.
Proof.
  intros He Hbase Htaken.
  assert (∀ j, candidate (base ++ lit "." ++ e) j
               = base ++ lit "_" ++ ofNat j ++ lit "." ++ e) as Hcand.
  { intros j. unfold candidate.
    by rewrite getFileExtension_dot, replaceStr_first. }
  destruct (finalSourceFilename_spec files (base ++ lit "." ++ e))
    as (Hfree & _ & Hk).
  destruct (Hk Htaken) as (k & Hk1 & Hfinal & Hall).
  exists k. rewrite Hfinal, Hcand in *. split_and!; try done.
  intros j Hj. rewrite <- Hcand. by apply Hall.
Qed.

Lemma rename_before_extension_witness :
  let taken := mkFileData (Text (lit "x")) 1 (lit "source") None None None in
  let files := [(lit "sources/a.js", taken); (lit "sources/a_1.js", taken)] in
  ∃ k, 1 ≤ k
       ∧ Advanced.finalSourceFilename files (lit "sources/a" ++ lit "." ++ lit "js")
         = lit "sources/a" ++ lit "_" ++ ofNat k ++ lit "." ++ lit "js"
       ∧ Map_has files (lit "sources/a" ++ lit "_" ++ ofNat k ++ lit "." ++ lit "js")
         = false
       ∧ ∀ j, 1 ≤ j < k →
              Map_has files (lit "sources/a" ++ lit "_" ++ ofNat j ++ lit "." ++ lit "js")
              = true.
Proof.
  apply (rename_before_extension _ (lit "sources/a") (lit "js")).
  - not_in_list.
  - reflexivity.
  - reflexivity.
Defined.

(** * The source-map comment of a script *)

Section MapComment.

Implicit Types (s t w : jsstring) (r : regex) (b : bool).

(** The text of a line: up to the first line terminator. *)
Fixpoint firstLine (s : jsstring) : jsstring :=
  match s with
  | [] => []
  | x :: s' => if lineTerminator x then [] else x :: firstLine s'
  end.

Fixpoint afterLine (s : jsstring) : jsstring :=
  match s with
  | [] => []
  | x :: s' => if lineTerminator x then s else afterLine s'
  end.

Lemma firstLine_afterLine s : s = firstLine s ++ afterLine s.
Proof.
  induction s as [|x s IH]; [done|]. cbn [firstLine afterLine].
  destruct (lineTerminator x); [done|]. cbn [app]. by f_equal.
Qed.

(** One step of the matcher, atom by atom. *)
Lemma matchHere_Star_nil c r b : matchHere (Star c :: r) b [] = matchHere r b [].
Proof. reflexivity. Qed.

Lemma matchHere_Star_cons c r b x s :
  matchHere (Star c :: r) b (x :: s)
  = if inSet c x
    then match matchHere (Star c :: r) false s with
         | Some t => Some t
         | None => matchHere r b (x :: s)
         end
    else matchHere r b (x :: s).
Proof. reflexivity. Qed.

Lemma matchHere_Single c r b s :
  matchHere (Single c :: r) b s
  = match s with
    | x :: s' => if inSet c x then matchHere r false s' else None
    | [] => None
    end.
Proof. reflexivity. Qed.

Lemma matchHere_Mark r b s :
  matchHere (Mark :: r) b s
  = match matchHere r b s with
    | Some (marks, rest) => Some (s :: marks, rest)
    | None => None
    end.
Proof. reflexivity. Qed.

Lemma matchHere_EolM b s :
  matchHere [EolM] b s
  = match s with
    | [] => Some ([], s)
    | x :: _ => if lineTerminator x then Some ([], s) else None
    end.
Proof. by destruct s. Qed.

(** What a star consumes is made of characters of its class. *)
Lemma matchHere_Star_split c r b s res :
  matchHere (Star c :: r) b s = Some res →
  ∃ w s' b', s = w ++ s' ∧ Forall (λ x, inSet c x = true) w
             ∧ matchHere r b' s' = Some res.
Proof.
  revert b res. induction s as [|x s IH]; intros b res.
  - rewrite matchHere_Star_nil. intros H. by exists [], [], b.
  - rewrite matchHere_Star_cons. destruct (inSet c x) eqn:Hx.
    + destruct (matchHere (Star c :: r) false s) as [res'|] eqn:E.
      * intros [= <-]. destruct (IH false _ E) as (w & s' & b' & -> & Hw & Hm).
        exists (x :: w), s', b'. split_and!; [done| |done]. by apply Forall_cons.
      * intros H. by exists [], (x :: s), b.
    + intros H. by exists [], (x :: s), b.
Qed.

(** A star takes all of a run of its class when what follows the run
    matches the rest and does not start with a character of the
    class. *)
Lemma matchHere_Star_run c r b w s res :
  Forall (λ x, inSet c x = true) w →
  match s with [] => True | x :: _ => inSet c x = false end →
  (∀ b', matchHere r b' s = Some res) →
  matchHere (Star c :: r) b (w ++ s) = Some res.
Proof.
  intros Hw Hs Hr. revert b. induction Hw as [|x w Hx _ IH]; intros b.
  - cbn [app]. destruct s as [|y s]; [by rewrite matchHere_Star_nil|].
    by rewrite matchHere_Star_cons, Hs.
  - cbn [app]. by rewrite matchHere_Star_cons, Hx, IH.
Qed.

(** The group [(.+)] followed by [$] under the [m] flag captures a
    non-empty line to its end. *)
Lemma matchHere_line b s :
  firstLine s ≠ [] →
  matchHere [Mark; Single Dot; Star Dot; Mark; EolM] b s
  = Some ([s; afterLine s], afterLine s).
Proof.
  assert (∀ b' t, matchHere [Star Dot; Mark; EolM] b' t
                  = Some ([afterLine t], afterLine t)) as Hstar.
  { intros b' t. revert b'. induction t as [|x t IH]; intros b'; [done|].
    rewrite matchHere_Star_cons, IH, matchHere_Mark, matchHere_EolM.
    cbn [inSet afterLine]. by destruct (lineTerminator x). }
  destruct s as [|x s]; [done|]. cbn [firstLine]. intros Hline.
  destruct (lineTerminator x) eqn:Hx; [done|].
  rewrite matchHere_Mark, matchHere_Single, Hstar. cbn [inSet afterLine].
  by rewrite Hx.
Qed.

End MapComment.

Section MapCommentMatch.

Implicit Types (s t w code path inner : jsstring) (r : regex).

(** The text that announces the URL of a source map. *)
Definition marker : jsstring := lit "sourceMappingURL=".

Lemma re_sourceMappingURL_parts :
  Downloader.re_sourceMappingURL
  = litRe (lit "//")
    ++ Single (OneOf (lit "@#")) :: Star (OneOf whiteSpace)
       :: litRe marker ++ [Mark; Single Dot; Star Dot; Mark; EolM].
Proof. reflexivity. Qed.

Lemma inSet_OneOf cs x : inSet (OneOf cs) x = true ↔ x ∈ cs.
Proof.
  cbn [inSet]. rewrite existsb_exists. split.
  - intros (y & Hy & Heq). apply N.eqb_eq in Heq. subst y.
    by apply list_elem_of_In.
  - intros Hx. exists x. split; [by apply list_elem_of_In|apply N.eqb_refl].
Qed.

(** A match of the expression starts with two slashes, an at sign or a
    hash, white space, and the marker. *)
Lemma sourceMappingURL_shape b s res :
  matchHere Downloader.re_sourceMappingURL b s = Some res →
  ∃ x w rest, s = lit "//" ++ [x] ++ w ++ marker ++ rest
              ∧ x ∈ lit "@#" ∧ Forall (λ c, c ∈ whiteSpace) w.
Proof.
  rewrite re_sourceMappingURL_parts, matchHere_litRe.
  destruct (startsWith s (lit "//")) eqn:Hs; [|done].
  apply startsWith_spec in Hs as [t ->]. rewrite drop_app_length.
  rewrite matchHere_Single. destruct t as [|x t]; [done|].
  destruct (inSet (OneOf (lit "@#")) x) eqn:Hx; [|done].
  intros (w & s' & b' & -> & Hw & Hm)%matchHere_Star_split.
  rewrite matchHere_litRe in Hm.
  destruct (startsWith s' marker) eqn:Hs'; [|done].
  apply startsWith_spec in Hs' as [rest ->].
  exists x, w, rest. split_and!; [done|by apply inSet_OneOf|].
  eapply Forall_impl; [exact Hw|]. intros c Hc. by apply inSet_OneOf.
Qed.

Lemma space_not_marker c : c ∈ whiteSpace → c ∉ marker.
Proof.
  unfold whiteSpace. intros Hc.
  repeat (apply elem_of_cons in Hc as [->|Hc]; [not_in_list|]).
  by apply elem_of_nil in Hc.
Qed.

Lemma space_not_slash c : c ∈ whiteSpace → c ≠ 47%N.
Proof.
  unfold whiteSpace. intros Hc.
  repeat (apply elem_of_cons in Hc as [->|Hc]; [done|]).
  by apply elem_of_nil in Hc.
Qed.

Lemma opener_not_marker x : x ∈ lit "@#" → (x ∉ marker) ∧ x ≠ 47%N.
Proof.
  intros Hx. change (lit "@#") with ([64; 35]%N) in Hx.
  repeat (apply elem_of_cons in Hx as [->|Hx]; [split; [not_in_list|done]|]).
  by apply elem_of_nil in Hx.
Qed.

(** Two ways of cutting one text, both with a non-empty second part,
    end on the same character. *)
Lemma last_common {A} (l1 l2 k1 k2 : list A) :
  l1 ++ l2 = k1 ++ k2 → l2 ≠ [] → k2 ≠ [] → ∃ c, c ∈ l2 ∧ c ∈ k2.
Proof.
  intros E Hl Hk.
  destruct (last l2) as [c|] eqn:Hc; [|by apply last_None in Hc].
  destruct (last k2) as [d|] eqn:Hd; [|by apply last_None in Hd].
  assert (last (l1 ++ l2) = Some c) as H1 by (by rewrite last_app, Hc).
  assert (last (k1 ++ k2) = Some d) as H2 by (by rewrite last_app, Hd).
  rewrite E, H2 in H1. injection H1 as ->.
  exists c. split; by apply last_Some_elem_of.
Qed.

(** Two readings of one text: a slash-slash opener after [inner], and
    a slash-slash opener at its start, each followed by [m].  If
    [inner] is not empty, [m] occurs inside it. *)
Lemma opener_inside (m inner ws w' path rest' : jsstring) (x x' : N) :
  inner ++ (47%N :: 47%N :: x :: ws) ++ m ++ path
  = 47%N :: 47%N :: x' :: w' ++ m ++ rest' →
  inner ≠ [] →
  (∀ c, c ∈ 47%N :: 47%N :: x :: ws → c ∉ m) →
  47%N ∉ w' → x' ≠ 47%N →
  includes inner m = true.
Proof.
  intros E Hinner Htail Hw47 Hx47.
  remember (47%N :: 47%N :: x :: ws) as tail eqn:Htl.
  assert (includes m m = true) as Hmm.
  { apply startsWith_includes. rewrite <- (app_nil_r m) at 1. apply startsWith_app. }
  destruct inner as [|y b1]; [done|]. cbn [app] in E. injection E as -> E.
  destruct b1 as [|z b2]; cbn [app] in E.
  { subst tail. cbn [app] in E. injection E as E _. by subst x'. }
  injection E as -> E.
  destruct b2 as [|u b3]; cbn [app] in E.
  { subst tail. cbn [app] in E. injection E as E _. by subst x'. }
  injection E as -> E.
  apply (includes_app_l b3 [47%N; 47%N; x']).
  rewrite (app_assoc b3 tail) in E.
  apply app_eq_inv in E as [(k & E1 & E2)|(k & E1 & E2)].
  - apply app_eq_inv in E2 as [(k2 & E3 & E4)|(k2 & E3 & E4)].
    + (* [m] starts before the end of [b3 ++ tail] and ends after it *)
      destruct k as [|c0 k'].
      * exfalso. rewrite app_nil_r in E1. apply Hw47. rewrite <- E1.
        apply elem_of_app. right. subst tail. apply list_elem_of_here.
      * destruct (last_common b3 tail w' (c0 :: k')) as (d & Hd1 & Hd2);
          [done|by subst tail|done|].
        exfalso. apply (Htail d Hd1). rewrite E3. apply elem_of_app. by left.
    + (* [m] ends at or before the end of [b3 ++ tail] *)
      subst k. rewrite app_assoc in E1.
      apply app_eq_inv in E1 as [(k3 & E5 & E6)|(k3 & E5 & E6)].
      * rewrite E5. by apply includes_app_r, includes_app_l.
      * destruct k3 as [|c3 k3'].
        { rewrite app_nil_r in E5. rewrite <- E5. by apply includes_app_l. }
        destruct m as [|c m'].
        { apply startsWith_includes. by destruct b3. }
        destruct (last_common w' (c :: m') b3 (c3 :: k3')) as (d & Hd1 & Hd2);
          [done..|].
        exfalso. apply (Htail d); [|done]. rewrite E6. apply elem_of_app. by left.
  - exfalso. apply Hw47. rewrite E1. apply elem_of_app. left.
    apply elem_of_app. right. subst tail. apply list_elem_of_here.
Qed.

(** A comment that follows a text without the marker is where the
    first match starts: no match starts inside that text. *)
Lemma no_match_inside code a inner x ws path bb :
  code = a ++ inner → inner ≠ [] →
  includes code marker = false →
  x ∈ lit "@#" → Forall (λ c, c ∈ whiteSpace) ws →
  matchHere Downloader.re_sourceMappingURL bb
            (inner ++ lit "//" ++ [x] ++ ws ++ marker ++ path) = None.
Proof.
  intros Hcode Hinner Hclean Hx Hws.
  destruct (matchHere _ bb _) as [res|] eqn:E; [exfalso|done].
  apply sourceMappingURL_shape in E as (x' & w' & rest' & E & Hx' & Hw').
  destruct (opener_not_marker x Hx) as [Hxm _].
  destruct (opener_not_marker x' Hx') as [_ Hx47].
  assert (includes inner marker = true) as Hin.
  { apply (opener_inside marker inner ws w' path rest' x x'); [exact E|done| | |done].
    - intros c [->|[->|[->|Hc]%elem_of_cons]%elem_of_cons]%elem_of_cons;
        [not_in_list|not_in_list|done|].
      apply space_not_marker. by eapply Forall_forall in Hws.
    - intros H. eapply Forall_forall in Hw'; [|exact H].
      by apply space_not_slash in Hw'. }
  rewrite Hcode in Hclean. by rewrite (includes_app_l inner a) in Hclean.
Qed.

End MapCommentMatch.

Section MapCommentFound.

Implicit Types (s t w code path : jsstring) (r : regex).

Lemma matchGroup_here r bb s opened closed rest :
  matchHere r bb s = Some ([opened; closed], rest) →
  matchGroup r bb s = Some (take (length opened - length closed) opened).
Proof. intros H. destruct s; cbn [matchGroup]; by rewrite H. Qed.

(** The search passes over a text inside which no match starts. *)
Lemma matchGroup_skip r bb code rest :
  rest ≠ [] →
  (∀ a inner bb', code = a ++ inner → inner ≠ [] →
                  matchHere r bb' (inner ++ rest) = None) →
  matchGroup r bb (code ++ rest)
  = matchGroup r (match code with [] => bb | _ :: _ => false end) rest.
Proof.
  intros Hrest. revert bb. induction code as [|y code IH]; intros bb Hnone; [done|].
  cbn [app matchGroup].
  assert (matchHere r bb (y :: code ++ rest) = None) as ->.
  { by apply (Hnone [] (y :: code) bb). }
  rewrite IH.
  - by destruct code.
  - intros a inner bb' -> Hinner. by apply (Hnone (y :: a) inner bb').
Qed.

Lemma take_firstLine s : take (length s - length (afterLine s)) s = firstLine s.
Proof.
  rewrite (firstLine_afterLine s) at 1 3. rewrite length_app.
  replace (length (firstLine s) + length (afterLine s) - length (afterLine s))
    with (length (firstLine s)) by lia.
  by rewrite take_app_length.
Qed.

(** The comment itself matches, and the group captures the first line
    of what follows the marker. *)
Lemma matchHere_comment bb x ws path :
  x ∈ lit "@#" → Forall (λ c, c ∈ whiteSpace) ws → firstLine path ≠ [] →
  matchHere Downloader.re_sourceMappingURL bb
            (lit "//" ++ [x] ++ ws ++ marker ++ path)
  = Some ([path; afterLine path], afterLine path).
Proof.
  intros Hx Hws Hline.
  rewrite re_sourceMappingURL_parts, matchHere_litRe, startsWith_app, drop_app_length.
  cbn [app]. rewrite matchHere_Single.
  rewrite (proj2 (inSet_OneOf _ _) Hx).
  apply matchHere_Star_run.
  - eapply Forall_impl; [exact Hws|]. intros c Hc. by apply inSet_OneOf.
  - reflexivity.
  - intros b'. rewrite matchHere_litRe, startsWith_app, drop_app_length.
    by apply matchHere_line.
Qed.

End MapCommentFound.

(** X19.  A script whose text is some code without the marker
    [sourceMappingURL=], then a comment made of two slashes, an at sign
    or a hash, optional white space, the marker and a path: the URL
    that [findSourceMapUrl] reports comes from the first line of that
    path, trimmed.  If it starts with [http] it is returned as it
    stands; otherwise it is resolved against the URL of the script, and
    nothing is reported when that resolution fails. *)
Theorem findSourceMapUrl_comment env file code x ws path :
  content file = Text (code ++ lit "//" ++ [x] ++ ws ++ marker ++ path) →
  includes code marker = false →
  x ∈ lit "@#" → Forall (λ c, c ∈ whiteSpace) ws →
  firstLine path ≠ [] →
  Downloader.findSourceMapUrl env file
  = (let mapPath := trim (firstLine path) in
     if startsWith mapPath (lit "http") then Some mapPath
     else href <$> URL_new env mapPath (Some (default (lit "null") (url file)))).
Proof.
  intros Hcontent Hclean Hx Hws Hline.
  unfold Downloader.findSourceMapUrl. rewrite Hcontent.
  cbn [Downloader.contentText].
  rewrite matchGroup_skip.
  - erewrite matchGroup_here by (by apply matchHere_comment).
    by rewrite take_firstLine.
  - done.
  - intros a inner bb' Hcode Hinner. by eapply no_match_inside.
Qed.

Lemma findSourceMapUrl_comment_witness :
  Downloader.findSourceMapUrl Site.env
    (mkFileData (Text Site.script) 35 (lit "script") (Some (lit "https://x.test/a.js"))
                (Some (lit "application/javascript")) None)
  = Some (lit "https://x.test/a.js.map").
Proof.
  exact (findSourceMapUrl_comment Site.env
           (mkFileData (Text Site.script) 35 (lit "script")
                       (Some (lit "https://x.test/a.js"))
                       (Some (lit "application/javascript")) None)
           (lit "let a;" ++ [10%N]) 35%N (lit " ") (lit "a.js.map")
           eq_refl eq_refl ltac:(in_list)
           ltac:(repeat constructor; in_list) ltac:(discriminate)).
Defined.

(** * Endpoints found in scripts *)

Section MatchFacts.

Implicit Types (s t m : jsstring) (r : regex).

Lemma matchHere_Opt c r bb s :
  matchHere (Opt c :: r) bb s
  = match s with
    | x :: s' =>
        if inSet c x then
          match matchHere r false s' with
          | Some t => Some t
          | None => matchHere r bb s
          end
        else matchHere r bb s
    | [] => matchHere r bb s
    end.
Proof. by destruct s. Qed.

(** What a match leaves is the end of the text it was given. *)
Lemma matchHere_suffix r bb s marks rest :
  matchHere r bb s = Some (marks, rest) → rest `suffix_of` s.
Proof.
  revert bb s marks rest. induction r as [|a r IH]; intros bb s marks rest.
  { by intros [= _ <-]. }
  destruct a as [c|c|c| | | |].
  - rewrite matchHere_Single. destruct s as [|x s]; [done|].
    destruct (inSet c x); [|done]. intros H%IH. by apply suffix_cons_r.
  - revert bb marks rest. induction s as [|x s IHs]; intros bb marks rest.
    + rewrite matchHere_Star_nil. apply IH.
    + rewrite matchHere_Star_cons. destruct (inSet c x); [|apply IH].
      destruct (matchHere (Star c :: r) false s) as [[marks' rest']|] eqn:E;
        [|apply IH].
      intros [= <- <-]. apply suffix_cons_r. by eapply IHs.
  - rewrite matchHere_Opt. destruct s as [|x s]; [apply IH|].
    destruct (inSet c x); [|apply IH].
    destruct (matchHere r false s) as [[marks' rest']|] eqn:E; [|apply IH].
    intros [= <- <-]. apply suffix_cons_r. by eapply IH.
  - cbn [matchHere]. destruct bb; [apply IH|done].
  - cbn [matchHere]. destruct s; [apply IH|done].
  - cbn [matchHere]. destruct s as [|x s]; [apply IH|].
    destruct (lineTerminator x); [apply IH|done].
  - rewrite matchHere_Mark.
    destruct (matchHere r bb s) as [[marks' rest']|] eqn:E; [|done].
    intros [= _ <-]. by eapply IH.
Qed.

(** Each text that [match] with the [g] flag reports is one that the
    expression matches somewhere in the input. *)
Lemma elem_of_matchAllFrom fuel r bb s m :
  m ∈ matchAllFrom fuel r bb s →
  ∃ bb' marks rest, matchHere r bb' (m ++ rest) = Some (marks, rest)
                    ∧ (m ++ rest) `suffix_of` s.
Proof.
  revert bb s. induction fuel as [|fuel IH]; intros bb s; cbn [matchAllFrom].
  { by intros ?%elem_of_nil. }
  assert (∀ x s', s = x :: s' → m ∈ matchAllFrom fuel r false s' →
            ∃ bb' marks rest, matchHere r bb' (m ++ rest) = Some (marks, rest)
                              ∧ (m ++ rest) `suffix_of` s) as Hnext.
  { intros x s' -> (bb' & marks & rest & Hm & Hs)%IH.
    exists bb', marks, rest. split; [done|]. by apply suffix_cons_r. }
  destruct (matchHere r bb s) as [[marks rest]|] eqn:E.
  - pose proof (matchHere_suffix _ _ _ _ _ E) as [pre Hpre].
    case_bool_decide as Hlen.
    + intros [->|Hin]%elem_of_cons.
      * exists bb, marks, rest. subst s. rewrite length_app.
        replace (length pre + length rest - length rest) with (length pre) by lia.
        rewrite take_app_length. by split.
      * apply IH in Hin as (bb' & marks' & rest' & Hm & Hs).
        exists bb', marks', rest'. split; [done|].
        etrans; [exact Hs|]. by exists pre.
    + assert (pre = []) as ->.
      { subst s. rewrite length_app in Hlen. destruct pre; [done|]. cbn in Hlen. lia. }
      cbn [app] in Hpre. subst rest.
      intros [->|Hin]%elem_of_cons.
      * exists bb, marks, s. by split.
      * destruct s as [|x s']; [by apply elem_of_nil in Hin|].
        by apply (Hnext x s').
  - destruct s as [|x s']; [by intros ?%elem_of_nil|]. by apply (Hnext x s').
Qed.

Lemma elem_of_matchAll r s m :
  m ∈ matchAll r s →
  ∃ bb' marks rest, matchHere r bb' (m ++ rest) = Some (marks, rest)
                    ∧ includes s m = true.
Proof.
  intros (bb' & marks & rest & Hm & Hs)%elem_of_matchAllFrom.
  exists bb', marks, rest. split; [done|].
  eapply includes_suffix; [exact Hs|]. apply includes_app_r.
  apply startsWith_includes. rewrite <- (app_nil_r m) at 1. apply startsWith_app.
Qed.

(** [match.slice(1, -1)] of a quoted text is the text. *)
Lemma unquote_quoted q body q' : Downloader.unquote (q :: body ++ [q']) = body.
Proof.
  unfold Downloader.unquote. cbn [drop length]. rewrite drop_0, length_app.
  cbn [length].
  replace (S (length body + 1) - 2) with (length body) by lia.
  by rewrite take_app_length.
Qed.

End MatchFacts.

Section Endpoints.

Context (env : Env).

Implicit Types (s t m body : jsstring).

Lemma inSet_NoneOf cs x : inSet (NoneOf cs) x = true ↔ x ∉ cs.
Proof.
  change (inSet (NoneOf cs) x) with (negb (inSet (OneOf cs) x)).
  rewrite negb_true_iff, <- not_true_iff_false. by rewrite inSet_OneOf.
Qed.

(** The end of both expressions: a run of characters that are neither
    quotes nor white space, then a quote. *)
Lemma matchHere_quotedTail bb s marks rest :
  matchHere [Single (NoneOf (Downloader.quotes ++ whiteSpace));
             Star (NoneOf (Downloader.quotes ++ whiteSpace));
             Single (OneOf Downloader.quotes)] bb s = Some (marks, rest) →
  ∃ chunk q', s = chunk ++ q' :: rest ∧ chunk ≠ [] ∧ q' ∈ Downloader.quotes.
Proof.
  rewrite matchHere_Single. destruct s as [|c s1]; [done|].
  destruct (inSet _ c); [|done].
  intros (cs & s2 & b' & -> & _ & Hm)%matchHere_Star_split.
  rewrite matchHere_Single in Hm. destruct s2 as [|q' s3]; [done|].
  destruct (inSet (OneOf Downloader.quotes) q') eqn:Hq; [|done].
  injection Hm as _ <-. exists (c :: cs), q'.
  split_and!; [done|done|by apply inSet_OneOf].
Qed.

(** A match is a quoted text. *)
Lemma quoted_match m rest q body q' :
  m ++ rest = q :: body ++ q' :: rest →
  m = q :: body ++ [q'] ∧ Downloader.unquote m = body.
Proof.
  intros E. assert (m = q :: body ++ [q']) as ->.
  { apply (app_inv_tail rest). rewrite E. cbn [app]. by rewrite <- app_assoc. }
  split; [done|apply unquote_quoted].
Qed.

Lemma apiEndpoint_shape bb m marks rest :
  matchHere Downloader.re_apiEndpoint bb (m ++ rest) = Some (marks, rest) →
  startsWith (Downloader.unquote m) (lit "/api/") = true
  ∧ includes m (Downloader.unquote m) = true.
Proof.
  unfold Downloader.re_apiEndpoint. cbn [app]. rewrite matchHere_Single.
  destruct (m ++ rest) as [|q s1] eqn:E; [done|].
  destruct (inSet _ q); [|done]. rewrite chars_litRe, matchHere_litRe.
  destruct (startsWith s1 (lit "/api/")) eqn:Hs; [|done].
  apply startsWith_spec in Hs as [s2 ->]. rewrite drop_app_length.
  intros (chunk & q' & -> & _ & _)%matchHere_quotedTail.
  destruct (quoted_match m rest q (lit "/api/" ++ chunk) q') as [-> ->].
  { rewrite E. by rewrite <- app_assoc. }
  split; [apply startsWith_app|].
  apply (includes_app_l _ [q]), includes_app_r.
  apply startsWith_includes. rewrite <- (app_nil_r (_ ++ chunk)) at 1.
  apply startsWith_app.
Qed.

Lemma resourceUrl_shape bb m marks rest :
  matchHere Downloader.re_resourceUrl bb (m ++ rest) = Some (marks, rest) →
  (startsWith (Downloader.unquote m) (lit "http://") = true
   ∨ startsWith (Downloader.unquote m) (lit "https://") = true)
  ∧ includes m (Downloader.unquote m) = true.
Proof.
  unfold Downloader.re_resourceUrl. cbn [app]. rewrite matchHere_Single.
  destruct (m ++ rest) as [|q s1] eqn:E; [done|].
  destruct (inSet _ q); [|done]. rewrite chars_litRe, matchHere_litRe.
  destruct (startsWith s1 (lit "http")) eqn:Hs; [|done].
  apply startsWith_spec in Hs as [s2 ->]. rewrite drop_app_length.
  cbn [app]. rewrite matchHere_Opt.
  assert (∀ bb' s3 scheme,
            s2 = drop 4 scheme ++ s3 →
            scheme = lit "http" ∨ scheme = lit "https" →
            matchHere (chars "://"
                       ++ [Single (NoneOf (Downloader.quotes ++ whiteSpace));
                           Star (NoneOf (Downloader.quotes ++ whiteSpace));
                           Single (OneOf Downloader.quotes)]) bb' s3
            = Some (marks, rest) →
            (startsWith (Downloader.unquote m) (lit "http://") = true
             ∨ startsWith (Downloader.unquote m) (lit "https://") = true)
            ∧ includes m (Downloader.unquote m) = true) as Hrest.
  { intros bb' s3 scheme Hs2 Hscheme. rewrite chars_litRe, matchHere_litRe.
    destruct (startsWith s3 (lit "://")) eqn:H3; [|done].
    apply startsWith_spec in H3 as [s4 ->]. rewrite drop_app_length.
    intros (chunk & q' & -> & _ & _)%matchHere_quotedTail.
    destruct (quoted_match m rest q (scheme ++ lit "://" ++ chunk) q') as [-> ->].
    { rewrite E, Hs2. destruct Hscheme as [-> | ->]; reflexivity. }
    split.
    - destruct Hscheme as [-> | ->]; [left|right];
        rewrite app_assoc; apply startsWith_app.
    - apply (includes_app_l _ [q]), includes_app_r.
      apply startsWith_includes.
      rewrite <- (app_nil_r (scheme ++ _)) at 1. apply startsWith_app. }
  destruct s2 as [|x s3]; [by apply (Hrest _ [] (lit "http")); [|left]|].
  destruct (inSet (Chr 115) x) eqn:Hx.
  - cbn [inSet] in Hx. apply N.eqb_eq in Hx. subst x.
    destruct (matchHere _ false s3) as [[marks' rest']|] eqn:E3.
    + intros [= <- <-]. by apply (Hrest false s3 (lit "https")); [|right|].
    + by apply (Hrest _ (115%N :: s3) (lit "http")); [|left].
  - by apply (Hrest _ (x :: s3) (lit "http")); [|left].
Qed.

Lemma elem_of_extractApiEndpoints content baseUrl endpoints u :
  u ∈ Downloader.extractApiEndpoints env content baseUrl endpoints →
  u ∈ endpoints
  ∨ ∃ path full, startsWith path (lit "/api/") = true
                 ∧ includes content path = true
                 ∧ URL_new env path (Some baseUrl) = Some full
                 ∧ u = href full.
Proof.
  unfold Downloader.extractApiEndpoints.
  assert (∀ m, m ∈ matchAll Downloader.re_apiEndpoint content →
               startsWith (Downloader.unquote m) (lit "/api/") = true
               ∧ includes content (Downloader.unquote m) = true) as Hms.
  { intros m (bb & marks & rest & Hm & Hin)%elem_of_matchAll.
    apply apiEndpoint_shape in Hm as [H1 H2]. split; [done|].
    by eapply includes_trans. }
  revert Hms endpoints. generalize (matchAll Downloader.re_apiEndpoint content).
  intros ms. induction ms as [|m ms IH]; intros Hms endpoints; cbn [foldl]; [by left|].
  intros [H|H]%IH.
  - destruct (URL_new env (Downloader.unquote m) (Some baseUrl)) as [full|] eqn:Hu;
      [|by left].
    apply elem_of_Set_add in H as [H| ->]; [by left|]. right.
    destruct (Hms m) as [H1 H2]; [apply list_elem_of_here|].
    by exists (Downloader.unquote m), full.
  - by right.
  - intros m' Hm'. apply Hms. by apply list_elem_of_further.
Qed.

Lemma elem_of_extractResourceUrls content visited endpoints u :
  u ∈ Downloader.extractResourceUrls content visited endpoints →
  u ∈ endpoints
  ∨ ((startsWith u (lit "http://") = true ∨ startsWith u (lit "https://") = true)
     ∧ includes content u = true ∧ u ∉ visited).
Proof.
  unfold Downloader.extractResourceUrls.
  assert (∀ m, m ∈ matchAll Downloader.re_resourceUrl content →
               (startsWith (Downloader.unquote m) (lit "http://") = true
                ∨ startsWith (Downloader.unquote m) (lit "https://") = true)
               ∧ includes content (Downloader.unquote m) = true) as Hms.
  { intros m (bb & marks & rest & Hm & Hin)%elem_of_matchAll.
    apply resourceUrl_shape in Hm as [H1 H2]. split; [done|].
    by eapply includes_trans. }
  revert Hms endpoints. generalize (matchAll Downloader.re_resourceUrl content).
  intros ms. induction ms as [|m ms IH]; intros Hms endpoints; cbn [foldl]; [by left|].
  intros [H|H]%IH.
  - cbn zeta in H. destruct (Set_has visited (Downloader.unquote m)) eqn:Hv;
      cbn [negb] in H; [by left|].
    apply elem_of_Set_add in H as [H| ->]; [by left|]. right.
    destruct (Hms m) as [H1 H2]; [apply list_elem_of_here|].
    split_and!; [done|done|]. unfold Set_has in Hv. by apply bool_decide_eq_false in Hv.
  - by right.
  - intros m' Hm'. apply Hms. by apply list_elem_of_further.
Qed.

End Endpoints.

(** X20.  Every endpoint that the fifth phase tries comes out of the
    text of a stored record of type [script]: it is the resolution,
    against the URL of the main page, of a piece of that text that
    starts with [/api/], or it is a piece of that text that starts
    with [http://] or [https://] and is not marked as downloaded.
    Hence the record [index.html] must be in the catalog with a URL
    that is not empty, or no endpoint is tried at all. *)
Theorem endpoints_origin env st u :
  u ∈ endpointsOf env st →
  ∃ baseUrl,
    Map_get (downloadedFiles st) (lit "index.html") ≫= url = Some baseUrl
    ∧ baseUrl ≠ []
    ∧ ∃ filename file text,
        (filename, file) ∈ downloadedFiles st
        ∧ type file = lit "script" ∧ content file = Text text
        ∧ ((∃ path full, startsWith path (lit "/api/") = true
                         ∧ includes text path = true
                         ∧ URL_new env path (Some baseUrl) = Some full
                         ∧ u = href full)
           ∨ ((startsWith u (lit "http://") = true
               ∨ startsWith u (lit "https://") = true)
              ∧ includes text u = true
              ∧ u ∉ downloadedUrls st)).
Proof.
  unfold endpointsOf, eval, Downloader.extractEndpointsFromCode, gets. cbn [fst].
  destruct (Map_get (downloadedFiles st) (lit "index.html") ≫= url)
    as [baseUrl|]; [|by intros ?%elem_of_nil].
  destruct baseUrl as [|c baseUrl]; [by intros ?%elem_of_nil|]. cbn [truthy negb].
  intros Hu. exists (c :: baseUrl). split_and!; [done..|].
  assert (∀ fs acc,
            (∀ e, e ∈ fs → e ∈ downloadedFiles st) →
            u ∈ foldl (λ endpoints entry,
                         let file : FileData := entry.2 in
                         match content file with
                         | Text content =>
                             if JS.eqb (type file) (lit "script") then
                               Downloader.extractResourceUrls content (downloadedUrls st)
                                 (Downloader.extractApiEndpoints env content
                                    (c :: baseUrl) endpoints)
                             else endpoints
                         | Binary _ => endpoints
                         end) acc fs →
            u ∈ acc
            ∨ ∃ filename file text,
                (filename, file) ∈ downloadedFiles st
                ∧ type file = lit "script" ∧ content file = Text text
                ∧ ((∃ path full, startsWith path (lit "/api/") = true
                                 ∧ includes text path = true
                                 ∧ URL_new env path (Some (c :: baseUrl)) = Some full
                                 ∧ u = href full)
                   ∨ ((startsWith u (lit "http://") = true
                       ∨ startsWith u (lit "https://") = true)
                      ∧ includes text u = true
                      ∧ u ∉ downloadedUrls st))) as Hfold.
  { induction fs as [|[filename file] fs IH]; intros acc Hfs; cbn [foldl]; [by left|].
    intros [H|H]%IH; [|by right|].
    2:{ intros e He. apply Hfs. by apply list_elem_of_further. }
    cbn [snd] in H. cbn zeta in H.
    destruct (content file) as [text|bytes] eqn:Hc; [|by left].
    destruct (JS.eqb (type file) (lit "script")) eqn:Ht; [|by left].
    apply eqb_eq in Ht.
    assert ((filename, file) ∈ downloadedFiles st) as Hin.
    { apply Hfs, list_elem_of_here. }
    apply elem_of_extractResourceUrls in H as [H|H].
    - apply elem_of_extractApiEndpoints in H as [H|H]; [by left|].
      right. exists filename, file, text. split_and!; [done..|]. by left.
    - right. exists filename, file, text. split_and!; [done..|]. by right. }
  destruct (Hfold (downloadedFiles st) [] (λ e He, He) Hu) as [H|H]; [|done].
  by apply elem_of_nil in H.
Qed.

(** A main page and a script that names two endpoints. *)
Definition withEndpoints : Session :=
  mkSession
    [ (lit "index.html", Demo.mainPage);
      (lit "app.js",
       mkFileData
         (Text (lit "get('/api/items'); load('https://cdn.test/x.js')")) 48
         (lit "script") (Some (lit "https://x.test/app.js"))
         (Some (lit "application/javascript")) None) ]
    [lit "https://x.test/app.js"] true (mkStats 2 0 1 0 0 100)
    [Demo.root; lit "https://x.test/app.js"].

Example endpoints_run :
  endpointsOf Demo.env withEndpoints
  = [lit "https://x.test/api/items"; lit "https://cdn.test/x.js"].
Proof. vm_compute. reflexivity. Qed.

Lemma endpoints_origin_witness :
  ∃ baseUrl,
    Map_get (downloadedFiles withEndpoints) (lit "index.html") ≫= url = Some baseUrl
    ∧ baseUrl ≠ []
    ∧ ∃ filename file text,
        (filename, file) ∈ downloadedFiles withEndpoints
        ∧ type file = lit "script" ∧ content file = Text text
        ∧ ((∃ path full, startsWith path (lit "/api/") = true
                         ∧ includes text path = true
                         ∧ URL_new Demo.env path (Some baseUrl) = Some full
                         ∧ lit "https://cdn.test/x.js" = href full)
           ∨ ((startsWith (lit "https://cdn.test/x.js") (lit "http://") = true
               ∨ startsWith (lit "https://cdn.test/x.js") (lit "https://") = true)
              ∧ includes text (lit "https://cdn.test/x.js") = true
              ∧ lit "https://cdn.test/x.js" ∉ downloadedUrls withEndpoints)).
Proof.
  apply (endpoints_origin Demo.env withEndpoints (lit "https://cdn.test/x.js")).
  vm_compute. in_list.
Defined.
